(** * Serial monitor core: checksum engine, frame synchronizers, dispatcher,
      field extractor, connection recovery and time calibration.

    Shallow embedding of [src/serial_monitor.py].  Bytes are integers in
    [0, 256) carried as [Z]; a [bytes] / [bytearray] object is a [list Z].
    Python integers are unbounded, so no wrap-around is added beyond the masks
    the source itself applies. *)

From Stdlib Require Import ZArith List Bool Lia String Ascii QArith.
Import ListNotations.
Local Open Scope Z_scope.

Definition bytes := list Z.

Definition is_byte (b : Z) : Prop := 0 <= b < 256.
Definition is_bytes (data : bytes) : Prop := Forall is_byte data.

(** ** Python sequence primitives *)

Module Py.

Section Seq.
Context {A : Type}.

(** Normalisation of a slice bound against a sequence of length [len]:
    negative bounds count from the end, and every bound is clipped to
    [0, len]. *)
Definition clamp (len i : Z) : Z :=
  if i <? 0 then Z.max 0 (len + i) else Z.min i len.

(** [s[i:]] *)
Definition slice_from (s : list A) (i : Z) : list A :=
  skipn (Z.to_nat (clamp (Z.of_nat (List.length s)) i)) s.

(** [s[:j]] *)
Definition slice_to (s : list A) (j : Z) : list A :=
  firstn (Z.to_nat (clamp (Z.of_nat (List.length s)) j)) s.

(** [s[i:j]] *)
Definition slice (s : list A) (i j : Z) : list A :=
  let lo := Z.to_nat (clamp (Z.of_nat (List.length s)) i) in
  let hi := Z.to_nat (clamp (Z.of_nat (List.length s)) j) in
  firstn (hi - lo) (skipn lo s).

(** [s[i]]; [None] stands for [IndexError]. *)
Definition getitem (s : list A) (i : Z) : option A :=
  let len := Z.of_nat (List.length s) in
  if (i <? - len) || (len <=? i) then None
  else nth_error s (Z.to_nat (if i <? 0 then len + i else i)).
End Seq.

(** [a == b] on byte strings. *)
Fixpoint bytes_eqb (a b : bytes) : bool :=
  match a, b with
  | [], [] => true
  | x :: a', y :: b' => (x =? y) && bytes_eqb a' b'
  | _, _ => false
  end.

(** [s.startswith(sub)] *)
Fixpoint startswith (sub s : bytes) : bool :=
  match sub, s with
  | [], _ => true
  | x :: sub', y :: s' => (x =? y) && startswith sub' s'
  | _ :: _, [] => false
  end.

(** [s.find(sub)]: the lowest index at which [sub] occurs; [None] stands for
    the result [-1]. *)
Fixpoint find (sub s : bytes) {struct s} : option nat :=
  if startswith sub s then Some 0%nat
  else match s with
       | [] => None
       | _ :: s' => option_map S (find sub s')
       end.

End Py.

(** ** class CRCCalculator *)

Module CRCCalculator.

Definition calculate_ccitt_crc16 (data : bytes) : Z :=
  fold_left
    (fun crc byte =>
       Nat.iter 8
         (fun crc =>
            let crc :=
              if negb (Z.land crc 0x8000 =? 0)
              then Z.lxor (Z.shiftl crc 1) 0x1021
              else Z.shiftl crc 1 in
            Z.land crc 0xFFFF)
         (Z.lxor crc (Z.shiftl byte 8)))
    data 0xFFFF.

Definition calculate_modbus_crc16 (data : bytes) : Z :=
  fold_left
    (fun crc byte =>
       Nat.iter 8
         (fun crc =>
            if negb (Z.land crc 0x0001 =? 0)
            then Z.lxor (Z.shiftr crc 1) 0xA001
            else Z.shiftr crc 1)
         (Z.lxor crc byte))
    data 0xFFFF.

Definition calculate_crc16_xmodem (data : bytes) : Z :=
  fold_left
    (fun crc byte =>
       Nat.iter 8
         (fun crc =>
            let crc :=
              if negb (Z.land crc 0x8000 =? 0)
              then Z.lxor (Z.shiftl crc 1) 0x1021
              else Z.shiftl crc 1 in
            Z.land crc 0xFFFF)
         (Z.lxor crc (Z.shiftl byte 8)))
    data 0x0000.

Definition calculate_sum_check (data : bytes) : Z :=
  Z.land (fold_left Z.add data 0) 0xFF.

Definition calculate_xor_check (data : bytes) : Z :=
  fold_left (fun result byte => Z.lxor result byte) data 0.

End CRCCalculator.

(** ** The checksum algorithms as the design document words them

    A 16-bit register is a number below [2^16]; shifting left discards the
    bit that leaves the register. *)

Module ChecksumSpec.

Definition msb_set (reg : Z) : bool := Z.testbit reg 15.
Definition lsb_set (reg : Z) : bool := Z.odd reg.

(** One MSB-first step: shift left, then XOR the polynomial in when the bit
    shifted out was set. *)
Definition shift_left_step (poly reg : Z) : Z :=
  let shifted := (2 * reg) mod 2 ^ 16 in
  if msb_set reg then Z.lxor shifted poly else shifted.

(** One LSB-first step: shift right, then XOR the reflected polynomial in when
    the bit shifted out was set. *)
Definition shift_right_step (poly reg : Z) : Z :=
  let shifted := reg / 2 in
  if lsb_set reg then Z.lxor shifted poly else shifted.

(** MSB-first CRC: each byte is XORed into the high byte of the register,
    which is then stepped eight times. *)
Definition crc16_msb_first (poly init : Z) (data : bytes) : Z :=
  fold_left
    (fun reg b => Nat.iter 8 (shift_left_step poly) (Z.lxor reg (b * 2 ^ 8)))
    data init.

(** LSB-first CRC: each byte is XORed into the low byte of the register,
    which is then stepped eight times. *)
Definition crc16_lsb_first (poly init : Z) (data : bytes) : Z :=
  fold_left
    (fun reg b => Nat.iter 8 (shift_right_step poly) (Z.lxor reg b))
    data init.

Definition sum8 (data : bytes) : Z := (fold_right Z.add 0 data) mod 256.

Definition xor8 (data : bytes) : Z := fold_right Z.lxor 0 data.

End ChecksumSpec.

(** ** [struct.unpack] for the integer formats the source uses

    [None] stands for [struct.error], raised when the buffer does not have
    exactly the size of the format. *)

Module Struct.

Inductive byteorder := LE | BE.

(** Value of a byte string read least significant byte first. *)
Fixpoint le_value (data : bytes) : Z :=
  match data with
  | [] => 0
  | b :: rest => b + 256 * le_value rest
  end.

Definition unsigned_value (o : byteorder) (data : bytes) : Z :=
  match o with
  | LE => le_value data
  | BE => le_value (rev data)
  end.

(** Two's complement reading of an unsigned value on [size] bytes. *)
Definition to_signed (size : nat) (v : Z) : Z :=
  if v <? 2 ^ (8 * Z.of_nat size - 1) then v else v - 2 ^ (8 * Z.of_nat size).

(** Formats [B], [H], [I] with prefix [<] or [>]. *)
Definition unpack_uint (o : byteorder) (size : nat) (data : bytes) : option Z :=
  if (List.length data =? size)%nat then Some (unsigned_value o data) else None.

(** Formats [b], [h], [i] with prefix [<] or [>]. *)
Definition unpack_int (o : byteorder) (size : nat) (data : bytes) : option Z :=
  option_map (to_signed size) (unpack_uint o size data).

End Struct.

(** ** class DataParser: the built-in 38-byte protocol

    The [timestamp] entry of a result is the wall clock at the time of
    parsing and is left out of the result record. *)

Module DataParser.

Definition FRAME_LENGTH : nat := 38.
Definition FRAME_HEADER : bytes := [0xA8; 0xA8].
Definition FRAME_TAIL : bytes := [0xAA; 0xAA].

Record result := mk_result {
  co_concentration : Z;
  co_avg : Q;
  temperature : Q;
  raw_frame : bytes
}.

(** The parser object: its [buffer]. *)
Definition t := bytes.

Definition init : t := [].

Definition add_data (buffer : t) (data : bytes) : t := buffer ++ data.

(** The body of the [try] block; [None] is the [except] branch, which prints
    and appends nothing. *)
Definition decode (frame : bytes) : option result :=
  match Struct.unpack_uint Struct.LE 2 (Py.slice frame 2 4),
        Struct.unpack_uint Struct.LE 4 (Py.slice frame 4 8),
        Struct.unpack_int Struct.LE 2 (Py.slice frame 8 10) with
  | Some co_concentration, Some co_avg_raw, Some temp_raw =>
      Some {| co_concentration := co_concentration;
              co_avg := (inject_Z co_avg_raw / inject_Z 600)%Q;
              temperature := (inject_Z temp_raw / inject_Z 10)%Q;
              raw_frame := frame |}
  | _, _, _ => None
  end.

(** One pass through the body of the [while] loop. *)
Inductive iteration :=
| Break (buffer : bytes)
| Continue (buffer : bytes) (appended : list result).

Definition loop_body (buffer : bytes) : iteration :=
  match Py.find FRAME_HEADER buffer with
  | None => Break []
  | Some header_index =>
      let buffer :=
        if (0 <? header_index)%nat then skipn header_index buffer else buffer in
      if (List.length buffer <? FRAME_LENGTH)%nat then Break buffer
      else
        let frame := firstn FRAME_LENGTH buffer in
        if negb (Py.bytes_eqb (Py.slice frame 36 38) FRAME_TAIL)
        then Continue (skipn 2 buffer) []
        else
          Continue (skipn FRAME_LENGTH buffer)
                   (match decode frame with
                    | Some r => [r]
                    | None => []
                    end)
  end.

(** The [while] loop; [None] when [fuel] passes are not enough. *)
Fixpoint parse_loop (fuel : nat) (buffer : bytes) (results : list result)
  : option (t * list result) :=
  if (List.length buffer <? FRAME_LENGTH)%nat then Some (buffer, results)
  else
    match fuel with
    | O => None
    | S fuel =>
        match loop_body buffer with
        | Break buffer => Some (buffer, results)
        | Continue buffer appended => parse_loop fuel buffer (results ++ appended)
        end
    end.

Definition parse (buffer : t) : option (t * list result) :=
  parse_loop (S (List.length buffer)) buffer [].

End DataParser.

(** ** class GenericProtocolParser: user-defined protocols

    [crc_type] is a string in the source; the constructors stand for the six
    entries of the protocol dialog's list, in the order none, CRC16-XMODEM,
    CRC16-CCITT, CRC16-MODBUS, additive sum, XOR, and [CrcOther] for any other
    string.  The [timestamp] entry of a result is left out as above. *)

Module GenericProtocolParser.

Inductive crc_kind :=
| CrcNone | CRC16_XMODEM | CRC16_CCITT | CRC16_MODBUS | SumCheck | XorCheck
| CrcOther.

Record protocol_config := mk_config {
  name : string;
  header : bytes;
  tail : bytes;
  length : nat;
  crc_type : crc_kind;
  enabled : bool
}.

Record result := mk_result {
  protocol_name : string;
  raw_frame : bytes;
  frame_hex : string
}.

Record t := mk_parser {
  config : protocol_config;
  buffer : bytes
}.

Definition init (protocol_config : protocol_config) : t :=
  {| config := protocol_config; buffer := [] |}.

Definition add_data (self : t) (data : bytes) : t :=
  let buffer := buffer self ++ data in
  {| config := config self;
     buffer := if 10240 <? Z.of_nat (List.length buffer)
               then Py.slice_from buffer (-5120)
               else buffer |}.

Definition _verify_crc (cfg : protocol_config) (frame : bytes) : bool :=
  match crc_type cfg with
  | CrcNone => true
  | CRC16_MODBUS =>
      if (List.length frame <? 3)%nat then false
      else
        (* the guard leaves two bytes in [frame[-2:]], so unpack succeeds *)
        match Struct.unpack_uint Struct.LE 2 (Py.slice_from frame (-2)) with
        | Some crc_received =>
            crc_received
            =? CRCCalculator.calculate_modbus_crc16 (Py.slice_to frame (-2))
        | None => false
        end
  | CRC16_XMODEM =>
      if (List.length frame <? 3)%nat then false
      else
        match Struct.unpack_uint Struct.LE 2 (Py.slice_from frame (-2)) with
        | Some crc_received =>
            crc_received
            =? CRCCalculator.calculate_crc16_xmodem (Py.slice_to frame (-2))
        | None => false
        end
  | CRC16_CCITT =>
      if (List.length frame <? 3)%nat then false
      else
        match Struct.unpack_uint Struct.BE 2 (Py.slice_from frame (-2)) with
        | Some crc_received =>
            crc_received
            =? CRCCalculator.calculate_ccitt_crc16 (Py.slice_to frame (-2))
        | None => false
        end
  | SumCheck =>
      if (List.length frame <? 2)%nat then false
      else
        match Py.getitem frame (-1) with
        | Some check_received =>
            check_received
            =? CRCCalculator.calculate_sum_check (Py.slice_to frame (-1))
        | None => false
        end
  | XorCheck =>
      if (List.length frame <? 2)%nat then false
      else
        match Py.getitem frame (-1) with
        | Some check_received =>
            check_received
            =? CRCCalculator.calculate_xor_check (Py.slice_to frame (-1))
        | None => false
        end
  | CrcOther => true
  end.

Definition hex_digit (d : Z) : ascii :=
  nth (Z.to_nat d)
      ["0"; "1"; "2"; "3"; "4"; "5"; "6"; "7";
       "8"; "9"; "A"; "B"; "C"; "D"; "E"; "F"]%char "?"%char.

(** [f'{b:02X}'] for a byte. *)
Definition format_02X (b : Z) : string :=
  String (hex_digit (b / 16)) (String (hex_digit (b mod 16)) EmptyString).

Definition hex_of_frame (frame : bytes) : string :=
  String.concat " " (map format_02X frame).

Definition make_result (cfg : protocol_config) (frame : bytes) : result :=
  {| protocol_name := name cfg; raw_frame := frame;
     frame_hex := hex_of_frame frame |}.

(** One pass through the body of the [while] loop. *)
Inductive iteration :=
| Break (buffer : bytes)
| Continue (buffer : bytes)
| Append (r : result) (buffer : bytes).

(** The header search at the top of the loop body: [inl] is the [break]. *)
Definition locate_header (cfg : protocol_config) (buffer : bytes)
  : bytes + bytes :=
  if (0 <? List.length (header cfg))%nat then
    match Py.find (header cfg) buffer with
    | None =>
        inl (if (List.length (header cfg) <? List.length buffer)%nat
             then Py.slice_from buffer
                    (- (Z.of_nat (List.length (header cfg)) - 1))
             else buffer)
    | Some header_index =>
        inr (if (0 <? header_index)%nat then skipn header_index buffer
             else buffer)
    end
  else inr buffer.

Definition tail_matches (cfg : protocol_config) (frame : bytes) : bool :=
  if (0 <? List.length (tail cfg))%nat then
    let tail_start :=
      Z.of_nat (length cfg) - Z.of_nat (List.length (tail cfg)) in
    Py.bytes_eqb (Py.slice_from frame tail_start) (tail cfg)
  else true.

Definition skip_len (cfg : protocol_config) : nat :=
  Nat.max 1 (List.length (header cfg)).

Definition loop_body (cfg : protocol_config) (buffer : bytes) : iteration :=
  match locate_header cfg buffer with
  | inl buffer => Break buffer
  | inr buffer =>
      if (List.length buffer <? length cfg)%nat then Break buffer
      else
        let frame := firstn (length cfg) buffer in
        if negb (tail_matches cfg frame)
        then Continue (skipn (skip_len cfg) buffer)
        else if negb (_verify_crc cfg frame)
        then Continue (skipn (skip_len cfg) buffer)
        else Append (make_result cfg frame) (skipn (length cfg) buffer)
  end.

(** The [while] loop; [None] when [fuel] passes are not enough. *)
Fixpoint parse_loop (fuel : nat) (cfg : protocol_config) (buffer : bytes)
  (results : list result) : option (bytes * list result) :=
  if (List.length buffer <? length cfg)%nat then Some (buffer, results)
  else
    match fuel with
    | O => None
    | S fuel =>
        match loop_body cfg buffer with
        | Break buffer => Some (buffer, results)
        | Continue buffer => parse_loop fuel cfg buffer results
        | Append r buffer => parse_loop fuel cfg buffer (results ++ [r])
        end
    end.

Definition parse (self : t) : option (t * list result) :=
  if negb (enabled (config self)) then Some (self, [])
  else
    match parse_loop (S (List.length (buffer self))) (config self)
                     (buffer self) [] with
    | Some (buffer, results) =>
        Some ({| config := config self; buffer := buffer |}, results)
    | None => None
    end.

End GenericProtocolParser.

(** ** class PlotCanvas: [parse_value_from_frame]

    The arithmetic of the source is floating point; values are carried here as
    exact rationals.  The two IEEE-754 decoders of [struct] ([f] and [d]) are
    parameters of the section. *)

Module PlotCanvas.

Inductive exn := IndexError | StructError | ZeroDivisionError | ValueError.

Inductive outcome (A : Type) :=
| Return (a : A)
| Raise (e : exn).
Arguments Return {A} a.
Arguments Raise {A} e.

Definition bind {A B} (c : outcome A) (k : A -> outcome B) : outcome B :=
  match c with
  | Return a => k a
  | Raise e => Raise e
  end.

Notation "x <- c ;; k" := (bind c (fun x => k))
  (at level 61, c at next level, right associativity).

Definition or_raise {A} (e : exn) (o : option A) : outcome A :=
  match o with
  | Some a => Return a
  | None => Raise e
  end.

Record curve_config := mk_curve_config {
  start_byte : Z;
  byte_count : Z;
  data_type : string;
  bit_mode : bool;
  bit_index : Z;
  coefficient : Q;
  divisor : Q;
  offset : Q
}.

(** The scalar types of a field descriptor as the design lists them: an
    unsigned or signed integer of 1, 2 or 4 bytes, a 4-byte float or an
    8-byte double, each little or big endian. *)
Inductive scalar :=
| UInt (o : Struct.byteorder) (size : nat)
| SInt (o : Struct.byteorder) (size : nat)
| Float32 (o : Struct.byteorder)
| Float64 (o : Struct.byteorder).

Definition scalar_size (k : scalar) : nat :=
  match k with
  | UInt _ size | SInt _ size => size
  | Float32 _ => 4
  | Float64 _ => 8
  end.

(** The names under which a descriptor declares them. *)
Definition type_table : list (string * scalar) :=
  [("uint8", UInt Struct.LE 1); ("int8", SInt Struct.LE 1);
   ("uint16 (LE)", UInt Struct.LE 2); ("uint16 (BE)", UInt Struct.BE 2);
   ("int16 (LE)", SInt Struct.LE 2); ("int16 (BE)", SInt Struct.BE 2);
   ("uint32 (LE)", UInt Struct.LE 4); ("uint32 (BE)", UInt Struct.BE 4);
   ("int32 (LE)", SInt Struct.LE 4); ("int32 (BE)", SInt Struct.BE 4);
   ("float (LE)", Float32 Struct.LE); ("float (BE)", Float32 Struct.BE);
   ("double (LE)", Float64 Struct.LE); ("double (BE)", Float64 Struct.BE)]%string.

Section ParseValue.
Variable unpack_float : Struct.byteorder -> bytes -> Q.
Variable unpack_double : Struct.byteorder -> bytes -> Q.

(** The value of [data] read as the scalar [k]. *)
Definition raw_value (k : scalar) (data : bytes) : Q :=
  match k with
  | UInt o _ => inject_Z (Struct.unsigned_value o data)
  | SInt o size => inject_Z (Struct.to_signed size (Struct.unsigned_value o data))
  | Float32 o => unpack_float o data
  | Float64 o => unpack_double o data
  end.

Definition unpack_ieee (decoder : Struct.byteorder -> bytes -> Q)
  (o : Struct.byteorder) (size : nat) (data : bytes) : outcome Q :=
  if (List.length data =? size)%nat then Return (decoder o data)
  else Raise StructError.

Definition unpack_Z (signed : bool) (o : Struct.byteorder) (size : nat)
  (data : bytes) : outcome Q :=
  v <- or_raise StructError
         ((if signed then Struct.unpack_int else Struct.unpack_uint)
            o size data) ;;
  Return (inject_Z v).

(** The [if]/[elif] chain on [dtype]; [Return None] is its final
    [else: return None]. *)
Definition decode (dtype : string) (data_bytes : bytes)
  : outcome (option Q) :=
  let some (c : outcome Q) := v <- c ;; Return (Some v) in
  let first n := Py.slice_to data_bytes n in
  if (dtype =? "uint8")%string then
    some (b <- or_raise IndexError (Py.getitem data_bytes 0) ;;
          Return (inject_Z b))
  else if (dtype =? "int8")%string then
    some (unpack_Z true Struct.LE 1 (first 1))
  else if (dtype =? "uint16 (LE)")%string then
    some (unpack_Z false Struct.LE 2 (first 2))
  else if (dtype =? "uint16 (BE)")%string then
    some (unpack_Z false Struct.BE 2 (first 2))
  else if (dtype =? "int16 (LE)")%string then
    some (unpack_Z true Struct.LE 2 (first 2))
  else if (dtype =? "int16 (BE)")%string then
    some (unpack_Z true Struct.BE 2 (first 2))
  else if (dtype =? "uint32 (LE)")%string then
    some (unpack_Z false Struct.LE 4 (first 4))
  else if (dtype =? "uint32 (BE)")%string then
    some (unpack_Z false Struct.BE 4 (first 4))
  else if (dtype =? "int32 (LE)")%string then
    some (unpack_Z true Struct.LE 4 (first 4))
  else if (dtype =? "int32 (BE)")%string then
    some (unpack_Z true Struct.BE 4 (first 4))
  else if (dtype =? "float (LE)")%string then
    some (unpack_ieee unpack_float Struct.LE 4 (first 4))
  else if (dtype =? "float (BE)")%string then
    some (unpack_ieee unpack_float Struct.BE 4 (first 4))
  else if (dtype =? "double (LE)")%string then
    some (unpack_ieee unpack_double Struct.LE 8 (first 8))
  else if (dtype =? "double (BE)")%string then
    some (unpack_ieee unpack_double Struct.BE 8 (first 8))
  else Return None.

(** [a >> n]; a negative shift count raises [ValueError]. *)
Definition rshift (a n : Z) : outcome Z :=
  if n <? 0 then Raise ValueError else Return (Z.shiftr a n).

(** [a / b] on floats. *)
Definition true_div (a b : Q) : outcome Q :=
  if Qeq_bool b 0 then Raise ZeroDivisionError else Return (a / b)%Q.

(** The body of the [try] block. *)
Definition parse_value_body (frame : bytes) (config : curve_config)
  : outcome (option Q) :=
  let start := start_byte config in
  let count := byte_count config in
  let dtype := data_type config in
  let len := Z.of_nat (List.length frame) in
  if start + count >? len then Return None
  else if bit_mode config then
    if start >=? len then Return None
    else
      target_byte <- or_raise IndexError (Py.getitem frame start) ;;
      shifted <- rshift target_byte (bit_index config) ;;
      Return (Some (inject_Z (Z.land shifted 0x01)))
  else
    let data_bytes := Py.slice frame start (start + count) in
    decoded <- decode dtype data_bytes ;;
    match decoded with
    | None => Return None
    | Some value =>
        scaled <- true_div (value * coefficient config)%Q (divisor config) ;;
        Return (Some (scaled + offset config)%Q)
    end.

(** [try: ... except Exception: return None] *)
Definition parse_value_from_frame (frame : bytes) (config : curve_config)
  : option Q :=
  match parse_value_body frame config with
  | Return v => v
  | Raise _ => None
  end.
End ParseValue.

End PlotCanvas.

(** ** class SerialMonitor *)

Module SerialMonitor.

Import GenericProtocolParser.

(** *** Dispatch of a received chunk ([on_data_received], parsing part) *)

Record dispatcher := mk_dispatcher {
  parser : DataParser.t;
  protocol_configs : list protocol_config;
  protocol_parsers : list GenericProtocolParser.t
}.

(** A frame handed to a consumer path: the default one, or the generic one
    with the result that carries the protocol name. *)
Inductive consumed :=
| DefaultFrame (r : DataParser.result)
| CustomFrame (r : GenericProtocolParser.result).

Fixpoint init_protocol_parsers (configs : list protocol_config)
  : list GenericProtocolParser.t :=
  match configs with
  | [] => []
  | config :: rest =>
      if enabled config
      then GenericProtocolParser.init config :: init_protocol_parsers rest
      else init_protocol_parsers rest
  end.

Definition default_header : bytes := [0xA8; 0xA8].

(** The [for] loop with [break] that computes [use_default_parser]. *)
Fixpoint use_default_parser (configs : list protocol_config) : bool :=
  match configs with
  | [] => true
  | protocol_config :: rest =>
      if enabled protocol_config then
        if Py.bytes_eqb (header protocol_config) default_header then false
        else use_default_parser rest
      else use_default_parser rest
  end.

(** The [for parser in self.protocol_parsers] loop. *)
Fixpoint run_protocol_parsers (parsers : list GenericProtocolParser.t)
  (data : bytes) : option (list GenericProtocolParser.t * list consumed) :=
  match parsers with
  | [] => Some ([], [])
  | p :: rest =>
      match GenericProtocolParser.parse (GenericProtocolParser.add_data p data) with
      | None => None
      | Some (p', protocol_results) =>
          match run_protocol_parsers rest data with
          | None => None
          | Some (rest', out) =>
              Some (p' :: rest', map CustomFrame protocol_results ++ out)
          end
      end
  end.

Definition run_default_parser (s : dispatcher) (data : bytes)
  : option (DataParser.t * list consumed) :=
  if use_default_parser (protocol_configs s) then
    match DataParser.parse (DataParser.add_data (parser s) data) with
    | None => None
    | Some (buffer, results) => Some (buffer, map DefaultFrame results)
    end
  else Some (parser s, []).

Definition on_data_received (s : dispatcher) (data : bytes)
  : option (dispatcher * list consumed) :=
  match run_default_parser s data with
  | None => None
  | Some (parser', out_default) =>
      match run_protocol_parsers (protocol_parsers s) data with
      | None => None
      | Some (parsers', out_custom) =>
          Some ({| parser := parser';
                   protocol_configs := protocol_configs s;
                   protocol_parsers := parsers' |},
                out_default ++ out_custom)
      end
  end.

(** *** Smart recovery

    Instants are wall-clock readings in microseconds, the resolution of
    [datetime]; [total_seconds() > 10.0] is [> 10_000_000] microseconds. *)

Record port_info := mk_port_info {
  port : string;
  baudrate : Z;
  databits : Z;
  stopbits : string;
  parity : string
}.

(** [lost_port_config]: the [preset_states], each the index of a running
    periodic sender and its period. *)
Definition port_config := list (nat * Q).

Record recovery := mk_recovery {
  lost_port_info : option port_info;
  lost_port_config : option port_config;
  recovery_check_timer : option Z;
  recovery_start_time : option Z;
  port_stable_time : option Z;
  last_port_state : bool
}.

(** What a tick does to the outside: an attempt to reopen the port. *)
Inductive action :=
| OpenSerial (saved_port_info : port_info) (saved_port_config : option port_config).

Definition stop_recovery_check (self : recovery) : recovery :=
  {| lost_port_info := None;
     lost_port_config := None;
     recovery_check_timer := None;
     recovery_start_time := None;
     port_stable_time := None;
     last_port_state := false |}.

Definition start_smart_recovery (self : recovery) (now : Z) : recovery :=
  match lost_port_info self with
  | None => self
  | Some _ =>
      {| lost_port_info := lost_port_info self;
         lost_port_config := lost_port_config self;
         recovery_check_timer := Some 100;
         recovery_start_time := Some now;
         port_stable_time := None;
         last_port_state := false |}
  end.

Definition recover_connection (self : recovery) : recovery * list action :=
  match lost_port_info self with
  | None => (stop_recovery_check self, [])
  | Some saved_port_info =>
      (stop_recovery_check self,
       [OpenSerial saved_port_info (lost_port_config self)])
  end.

Definition set_stable (self : recovery) (stable : option Z) (state : bool)
  : recovery :=
  {| lost_port_info := lost_port_info self;
     lost_port_config := lost_port_config self;
     recovery_check_timer := recovery_check_timer self;
     recovery_start_time := recovery_start_time self;
     port_stable_time := stable;
     last_port_state := state |}.

(** One probe tick: [current_time] is the clock reading and [ports] the
    devices [comports()] lists. *)
Definition check_port_recovery (self : recovery) (current_time : Z)
  (ports : list string) : recovery * list action :=
  match lost_port_info self, recovery_start_time self with
  | Some info, Some start =>
      let elapsed := current_time - start in
      if elapsed >? 10000000 then (stop_recovery_check self, [])
      else
        let target_port := port info in
        let port_exists := existsb (String.eqb target_port) ports in
        if port_exists then
          if negb (last_port_state self) then
            (set_stable self (Some current_time) true, [])
          else
            match port_stable_time self with
            | Some stable =>
                let stable_duration := current_time - stable in
                if stable_duration >=? 1000000 then recover_connection self
                else (self, [])
            | None => (self, [])
            end
        else
          if last_port_state self then (set_stable self None false, [])
          else (set_stable self (port_stable_time self) false, [])
  | _, _ => (stop_recovery_check self, [])
  end.

(** A run of probe ticks, each with its clock reading and port list. *)
Fixpoint run_ticks (self : recovery) (ticks : list (Z * list string))
  : recovery * list action :=
  match ticks with
  | [] => (self, [])
  | (current_time, ports) :: rest =>
      let '(self, acts) := check_port_recovery self current_time ports in
      let '(self, more) := run_ticks self rest in
      (self, acts ++ more)
  end.

(** *** Time calibration *)

Record datetime := mk_datetime {
  year : Z; month : Z; day : Z; hour : Z; minute : Z; second : Z
}.

Definition decimal_to_bcd (decimal_value : Z) : Z :=
  let tens := Z.land (decimal_value / 10) 0x0F in
  let ones := Z.land (decimal_value mod 10) 0x0F in
  Z.lor (Z.shiftl tens 4) ones.

(** [bytearray.append]; [None] stands for the [ValueError] raised on a value
    outside [range(256)]. *)
Definition append (data : bytes) (v : Z) : option bytes :=
  if (0 <=? v) && (v <? 256) then Some (data ++ [v]) else None.

Definition and_then {A B} (o : option A) (k : A -> option B) : option B :=
  match o with
  | Some a => k a
  | None => None
  end.

(** The bytes written to the serial port, if any: nothing is written when the
    port is not open or when the [try] block raises. *)
Definition calibrate_time (port_open : bool) (now : datetime) : option bytes :=
  if negb port_open then None
  else
    let data := [0x06; 0x00; 0x10; 0x24; 0x08] in
    let year := year now mod 100 in
    and_then (append data (decimal_to_bcd year)) (fun data =>
    and_then (append data (decimal_to_bcd (month now))) (fun data =>
    and_then (append data (decimal_to_bcd (day now))) (fun data =>
    and_then (append data (decimal_to_bcd (hour now))) (fun data =>
    and_then (append data (decimal_to_bcd (minute now))) (fun data =>
    and_then (append data (decimal_to_bcd (second now))) (fun data =>
    let crc := CRCCalculator.calculate_crc16_xmodem data in
    and_then (append data (Z.land crc 0xFF)) (fun data =>
    and_then (append data (Z.land (Z.shiftr crc 8) 0xFF)) (fun data =>
    Some data)))))))).

End SerialMonitor.

(** * Vocabulary of the properties *)

Module Frames.
Import GenericProtocolParser.

(** What the parser checks on a candidate frame. *)
Definition accepted (cfg : protocol_config) (frame : bytes) : bool :=
  tail_matches cfg frame && _verify_crc cfg frame.

(** A valid frame of the protocol: frame-length bytes that begin with the
    header and pass the tail and checksum checks. *)
Definition valid_frame (cfg : protocol_config) (frame : bytes) : Prop :=
  List.length frame = length cfg
  /\ Py.startswith (header cfg) frame = true
  /\ accepted cfg frame = true.

(** A valid frame of the built-in protocol. *)
Definition valid_default_frame (frame : bytes) : Prop :=
  List.length frame = DataParser.FRAME_LENGTH
  /\ Py.startswith DataParser.FRAME_HEADER frame = true
  /\ Py.slice frame 36 38 = DataParser.FRAME_TAIL.

(** Feeding one chunk: [add_data] then [parse]. *)
Definition feed (p : GenericProtocolParser.t) (chunk : bytes)
  : option (GenericProtocolParser.t * list result) :=
  parse (add_data p chunk).

(** Feeding chunks one after the other, collecting what each [parse]
    returns. *)
Fixpoint feed_all (p : GenericProtocolParser.t) (chunks : list bytes)
  : option (GenericProtocolParser.t * list result) :=
  match chunks with
  | [] => Some (p, [])
  | chunk :: rest =>
      match feed p chunk with
      | None => None
      | Some (p, out) =>
          match feed_all p rest with
          | None => None
          | Some (p, more) => Some (p, out ++ more)
          end
      end
  end.

Definition feed_default (buffer : DataParser.t) (chunk : bytes)
  : option (DataParser.t * list DataParser.result) :=
  DataParser.parse (DataParser.add_data buffer chunk).

Fixpoint feed_all_default (buffer : DataParser.t) (chunks : list bytes)
  : option (DataParser.t * list DataParser.result) :=
  match chunks with
  | [] => Some (buffer, [])
  | chunk :: rest =>
      match feed_default buffer chunk with
      | None => None
      | Some (buffer, out) =>
          match feed_all_default buffer rest with
          | None => None
          | Some (buffer, more) => Some (buffer, out ++ more)
          end
      end
  end.



End Frames.

Module Dispatch.
Import GenericProtocolParser SerialMonitor.

(** An enabled custom protocol reuses the header of the built-in one. *)
Definition conflict (configs : list protocol_config) : Prop :=
  Exists (fun c => enabled c = true /\ header c = [0xA8; 0xA8]) configs.

Definition default_frames (out : list consumed) : list DataParser.result :=
  flat_map (fun c => match c with DefaultFrame r => [r] | CustomFrame _ => [] end)
           out.

Definition custom_frames (out : list consumed)
  : list GenericProtocolParser.result :=
  flat_map (fun c => match c with DefaultFrame _ => [] | CustomFrame r => [r] end)
           out.

(** Every parser of the list is fed the chunk and parsed, in order; the
    results come out in the same order. *)
Inductive fed_each (data : bytes)
  : list GenericProtocolParser.t -> list GenericProtocolParser.t
    -> list GenericProtocolParser.result -> Prop :=
| fed_nil : fed_each data [] [] []
| fed_cons p p' results ps ps' more :
    Frames.feed p data = Some (p', results) ->
    Forall (fun r => protocol_name r = name (config p)) results ->
    fed_each data ps ps' more ->
    fed_each data (p :: ps) (p' :: ps') (results ++ more).

End Dispatch.

Module Calibration.
Import SerialMonitor.

(** A reading of the wall clock: the fields of a [datetime] in their
    ranges. *)
Definition valid_datetime (now : datetime) : Prop :=
  1 <= year now <= 9999 /\ 1 <= month now <= 12 /\ 1 <= day now <= 31
  /\ 0 <= hour now <= 23 /\ 0 <= minute now <= 59 /\ 0 <= second now <= 59.

(** BCD as the design words it: [((v div 10) << 4) | (v mod 10)]. *)
Definition bcd (v : Z) : Z := Z.lor (Z.shiftl (v / 10) 4) (v mod 10).

Definition bcd_agrees (n : nat) : bool :=
  let v := Z.of_nat n in
  (decimal_to_bcd v =? bcd v) && (0 <=? bcd v) && (bcd v <? 256).

Definition command_prefix : bytes := [0x06; 0x00; 0x10; 0x24; 0x08].

Definition time_fields (now : datetime) : list Z :=
  [year now mod 100; month now; day now; hour now; minute now; second now].

End Calibration.

Module Recovery.
Import SerialMonitor.

(** The target device is among the ports a tick enumerates. *)
Definition present (info : port_info) (tick : Z * list string) : bool :=
  existsb (String.eqb (port info)) (snd tick).

(** What a state remembers of the ticks seen so far: while the device is
    marked present with a stabilisation instant [t0], that instant is the
    clock reading of an earlier tick, and the device was enumerated at that
    tick and at every tick since. *)
Definition stable_since (info : port_info) (trace : list (Z * list string))
  (t0 : Z) : Prop :=
  exists before ports0 since,
    trace = before ++ (t0, ports0) :: since
    /\ Forall (fun tick => present info tick = true) ((t0, ports0) :: since).

Definition remembers (info : port_info) (trace : list (Z * list string))
  (s : recovery) : Prop :=
  (lost_port_info s = None \/ lost_port_info s = Some info)
  /\ (last_port_state s = true ->
      forall t0, port_stable_time s = Some t0 -> stable_since info trace t0).

End Recovery.

(** * Concrete data used by the examples below *)

(** The string "123456789", the customary check input of CRC catalogues. *)
Definition check_input : bytes :=
  [0x31; 0x32; 0x33; 0x34; 0x35; 0x36; 0x37; 0x38; 0x39].

Module Examples.
Import GenericProtocolParser.

(** A protocol with no header and no tail whose two bytes are a CRC16-CCITT
    checksum over nothing. *)
Definition ccitt_only : protocol_config :=
  {| name := "crc-only"; header := []; tail := []; length := 2;
     crc_type := CRC16_CCITT; enabled := true |}.

Definition with_crc (k : crc_kind) : protocol_config :=
  {| name := "probe"; header := [0xA8]; tail := []; length := 4;
     crc_type := k; enabled := true |}.

(** A protocol with a one-byte header. *)
Definition one_byte_header : protocol_config := with_crc CrcNone.

(** A four-byte frame A8 01 with its CRC16-XMODEM, low byte first. *)
Definition xmodem_cfg : protocol_config := with_crc CRC16_XMODEM.
Definition xmodem_frame : bytes := [0xA8; 0x01; 0xF6; 0x84].
Definition xmodem_chunks : list bytes := [[0xA8]; [0x01; 0xF6]; []; [0x84]].

(** Frames under the additive checksum. *)
Definition sum_cfg : protocol_config := with_crc SumCheck.
Definition sum_frame1 : bytes := [0xA8; 0x01; 0x01; 0xAA].
Definition sum_frame2 : bytes := [0xA8; 0x01; 0x02; 0xAB].

(** A frame of the built-in protocol: CO 300, average raw 180000,
    temperature raw 253. *)
Definition default_frame : bytes :=
  [0xA8; 0xA8; 0x2C; 0x01; 0x20; 0xBF; 0x02; 0x00; 0xFD; 0x00]
  ++ repeat 0 26 ++ [0xAA; 0xAA].
Definition default_chunks : list bytes :=
  [firstn 1 default_frame; []; firstn 20 (skipn 1 default_frame);
   skipn 21 default_frame].

(** A monitor with a disabled protocol that reuses the built-in header and
    an enabled one that does not. *)
Definition shadow_cfg : protocol_config :=
  {| name := "shadow"; header := [0xA8; 0xA8]; tail := [0xAA; 0xAA];
     length := 38; crc_type := CrcNone; enabled := false |}.
Definition monitor : SerialMonitor.dispatcher :=
  {| SerialMonitor.parser := DataParser.init;
     SerialMonitor.protocol_configs := [shadow_cfg; xmodem_cfg];
     SerialMonitor.protocol_parsers :=
       SerialMonitor.init_protocol_parsers [shadow_cfg; xmodem_cfg] |}.

(** Probing for COM3 since instant 0. *)
Definition com3 : SerialMonitor.port_info :=
  {| SerialMonitor.port := "COM3"; SerialMonitor.baudrate := 115200;
     SerialMonitor.databits := 8; SerialMonitor.stopbits := "1";
     SerialMonitor.parity := "None" |}.
Definition probing : SerialMonitor.recovery :=
  {| SerialMonitor.lost_port_info := Some com3;
     SerialMonitor.lost_port_config := Some [(0%nat, 1%Q)];
     SerialMonitor.recovery_check_timer := Some 100;
     SerialMonitor.recovery_start_time := Some 0;
     SerialMonitor.port_stable_time := None;
     SerialMonitor.last_port_state := false |}.
Definition ticks_before : list (Z * list string) :=
  [(100000, []); (200000, ["COM3"%string]);
   (700000, ["COM1"%string; "COM3"%string])].
Definition ticks_after : list (Z * list string) :=
  [(1300000, ["COM3"%string])].

(** 2026-11-04 07:22:05. *)
Definition clock : SerialMonitor.datetime :=
  {| SerialMonitor.year := 2026; SerialMonitor.month := 11;
     SerialMonitor.day := 4; SerialMonitor.hour := 7;
     SerialMonitor.minute := 22; SerialMonitor.second := 5 |}.

(** Stand-ins for the IEEE-754 decoders, for the concrete examples. *)
Definition no_float (o : Struct.byteorder) (data : bytes) : Q := 0%Q.

Definition field (start count : Z) (dtype : string) : PlotCanvas.curve_config :=
  {| PlotCanvas.start_byte := start; PlotCanvas.byte_count := count;
     PlotCanvas.data_type := dtype; PlotCanvas.bit_mode := false;
     PlotCanvas.bit_index := 0; PlotCanvas.coefficient := 1%Q;
     PlotCanvas.divisor := 1%Q; PlotCanvas.offset := 0%Q |}.


End Examples.

(** * More of the source: the send path, the display path, the receive log *)

(** ** class SerialMonitorApp, continued *)

Module SerialMonitorApp.

(** *** [add_crc_to_data]

    The checksum names of the send box differ from those of the protocol
    dialog; the constructors stand for its six entries, in the order none,
    CCITT-CRC16, Modbus-CRC16, CRC16-XMODEM, additive sum, XOR, and
    [SendOther] for any other string.  [None] stands for the [ValueError] of
    [bytearray.append]. *)

Inductive send_crc :=
| SendNone | SendCCITT | SendModbus | SendXmodem | SendSum | SendXor
| SendOther.

Definition add_crc_to_data (data : bytes) (crc_type : send_crc)
  : option bytes :=
  match crc_type with
  | SendNone => Some data
  | SendCCITT =>
      let crc := CRCCalculator.calculate_ccitt_crc16 data in
      SerialMonitor.and_then
        (SerialMonitor.append data (Z.land (Z.shiftr crc 8) 0xFF))
        (fun data => SerialMonitor.append data (Z.land crc 0xFF))
  | SendModbus =>
      let crc := CRCCalculator.calculate_modbus_crc16 data in
      SerialMonitor.and_then
        (SerialMonitor.append data (Z.land crc 0xFF))
        (fun data => SerialMonitor.append data (Z.land (Z.shiftr crc 8) 0xFF))
  | SendXmodem =>
      let crc := CRCCalculator.calculate_crc16_xmodem data in
      SerialMonitor.and_then
        (SerialMonitor.append data (Z.land crc 0xFF))
        (fun data => SerialMonitor.append data (Z.land (Z.shiftr crc 8) 0xFF))
  | SendSum =>
      SerialMonitor.append data (CRCCalculator.calculate_sum_check data)
  | SendXor =>
      SerialMonitor.append data (CRCCalculator.calculate_xor_check data)
  | SendOther => Some data
  end.

(** *** The fill step of [send_preset_command]

    [data[1]] and [data[2]] are replaced by the high and the low byte of the
    fill value; [None] stands for the two warnings after which nothing is
    sent. *)

Definition fill_data (data : bytes) (fill_value data_min data_max : Z)
  : option bytes :=
  if (data_min <=? fill_value) && (fill_value <=? data_max) then
    if (3 <=? List.length data)%nat then
      match data with
      | b0 :: _ :: _ :: rest =>
          Some (b0 :: Z.land (Z.shiftr fill_value 8) 0xFF
                   :: Z.land fill_value 0xFF :: rest)
      | _ => None
      end
    else None
  else None.

(** *** The HEX mode of [send_data] and [send_preset_command]

    [text.replace(c, '')] for a one-character [c], and
    [bytearray.fromhex]: two hexadecimal digits per byte, ASCII whitespace
    skipped between bytes; [None] stands for its [ValueError]. *)

Fixpoint remove_char (c : ascii) (text : string) : string :=
  match text with
  | EmptyString => EmptyString
  | String x rest =>
      if Ascii.eqb x c then remove_char c rest
      else String x (remove_char c rest)
  end.

Definition is_space (c : ascii) : bool :=
  let n := nat_of_ascii c in
  (n =? 32)%nat || ((9 <=? n)%nat && (n <=? 13)%nat).

Definition hex_value (c : ascii) : option Z :=
  let n := Z.of_nat (nat_of_ascii c) in
  if (48 <=? n) && (n <=? 57) then Some (n - 48)
  else if (65 <=? n) && (n <=? 70) then Some (n - 55)
  else if (97 <=? n) && (n <=? 102) then Some (n - 87)
  else None.

Fixpoint fromhex (text : string) : option bytes :=
  match text with
  | EmptyString => Some []
  | String c rest =>
      if is_space c then fromhex rest
      else
        match hex_value c, rest with
        | Some top, String c' rest' =>
            match hex_value c' with
            | Some bot =>
                match fromhex rest' with
                | Some data => Some (Z.lor (Z.shiftl top 4) bot :: data)
                | None => None
                end
            | None => None
            end
        | _, _ => None
        end
  end.

(** The bytes sent for [text] in HEX mode. *)
Definition hex_text_to_bytes (text : string) : option bytes :=
  fromhex
    (remove_char "013"%char
       (remove_char "010"%char (remove_char " "%char text))).

(** *** Exceptions of the display path *)

Inductive exn :=
| IndexError | StructError | ZeroDivisionError | TypeError | ValueError.

Inductive result (A : Type) :=
| Ok (a : A)
| Err (e : exn).
Arguments Ok {A} a.
Arguments Err {A} e.

Definition bind {A B} (c : result A) (k : A -> result B) : result B :=
  match c with
  | Ok a => k a
  | Err e => Err e
  end.

Notation "x <- c ;; k" := (bind c (fun x => k))
  (at level 61, c at next level, right associativity).

Definition or_raise {A} (e : exn) (o : option A) : result A :=
  match o with
  | Some a => Ok a
  | None => Err e
  end.

(** A Python value of the display path: an [int], a [float] (carried as an
    exact rational) or a [str] (its code points). *)
Inductive value :=
| Int (z : Z)
| Float (q : Q)
| Str (s : list Z).

(** [data.rstrip(b'\x00')] *)
Fixpoint rstrip_nul (data : bytes) : bytes :=
  match data with
  | [] => []
  | b :: rest =>
      match rstrip_nul rest with
      | [] => if b =? 0 then [] else [b]
      | kept => b :: kept
      end
  end.

(** [data.decode('ascii')]; [None] stands for [UnicodeDecodeError]. *)
Definition decode_ascii (data : bytes) : option (list Z) :=
  if forallb (fun b => b <? 128) data then Some data else None.

(** [data.decode('ascii', errors='replace')] *)
Definition decode_ascii_replace (data : bytes) : list Z :=
  map (fun b => if b <? 128 then b else 0xFFFD) data.

Record display_config := mk_display_config {
  d_enabled : bool;
  d_protocol : option string;
  d_start_byte : Z;
  d_byte_count : Z;
  d_data_type : string;
  d_coefficient : Q;
  d_divisor : Q;
  d_offset : Q
}.


Record clock_config := mk_clock_config {
  c_enabled : bool;
  c_protocol : option string;
  c_year_start : Z;
  c_year_count : Z;
  c_year_type : string;
  c_month_start : Z;
  c_day_start : Z;
  c_hour_start : Z;
  c_minute_start : Z;
  c_second_start : Z
}.

(** What the display path does to the widgets. *)
Inductive effect :=
| ReceivedTimeLabel (hour minute second : Z)
| ReceivedDateLabel (year month day : Z)
| ReceivedTime (year month day hour minute second : Z)
| BitStatus (window_idx : nat) (lit : list bool)
| CustomDisplay (index : nat) (v : value).

Definition option_string_eqb (a b : option string) : bool :=
  match a, b with
  | None, None => true
  | Some x, Some y => String.eqb x y
  | _, _ => false
  end.

Section DisplayPath.
Variable unpack_float : Struct.byteorder -> bytes -> Q.

Definition unpack_int_value (signed : bool) (o : Struct.byteorder)
  (size : nat) (data : bytes) : result value :=
  v <- or_raise StructError
         ((if signed then Struct.unpack_int else Struct.unpack_uint)
            o size data) ;;
  Ok (Int v).

Definition unpack_float_value (o : Struct.byteorder) (data : bytes)
  : result value :=
  if (List.length data =? 4)%nat then Ok (Float (unpack_float o data))
  else Err StructError.

Definition parse_data_bytes (data_bytes : bytes) (data_type : string)
  : result value :=
  let first n := Py.slice_to data_bytes n in
  if (data_type =? "uint8")%string then
    b <- or_raise IndexError (Py.getitem data_bytes 0) ;; Ok (Int b)
  else if (data_type =? "int8")%string then
    unpack_int_value true Struct.LE 1 (first 1)
  else if (data_type =? "uint16 (LE)")%string then
    unpack_int_value false Struct.LE 2 (first 2)
  else if (data_type =? "uint16 (BE)")%string then
    unpack_int_value false Struct.BE 2 (first 2)
  else if (data_type =? "int16 (LE)")%string then
    unpack_int_value true Struct.LE 2 (first 2)
  else if (data_type =? "int16 (BE)")%string then
    unpack_int_value true Struct.BE 2 (first 2)
  else if (data_type =? "uint32 (LE)")%string then
    unpack_int_value false Struct.LE 4 (first 4)
  else if (data_type =? "uint32 (BE)")%string then
    unpack_int_value false Struct.BE 4 (first 4)
  else if (data_type =? "int32 (LE)")%string then
    unpack_int_value true Struct.LE 4 (first 4)
  else if (data_type =? "int32 (BE)")%string then
    unpack_int_value true Struct.BE 4 (first 4)
  else if (data_type =? "float (LE)")%string then
    unpack_float_value Struct.LE (first 4)
  else if (data_type =? "float (BE)")%string then
    unpack_float_value Struct.BE (first 4)
  else if (data_type =? "string (ASCII)")%string then
    match decode_ascii (rstrip_nul data_bytes) with
    | Some s => Ok (Str s)
    | None => Ok (Str (decode_ascii_replace data_bytes))
    end
  else Ok (Int 0).

(** The operand of [value * coefficient]; a [str] times a [float] raises
    [TypeError]. *)
Definition to_number (v : value) : result Q :=
  match v with
  | Int z => Ok (inject_Z z)
  | Float q => Ok q
  | Str _ => Err TypeError
  end.

Definition true_div (a b : Q) : result Q :=
  if Qeq_bool b 0 then Err ZeroDivisionError else Ok (a / b)%Q.

(** The body of the [try] block of the loop over [custom_displays]; [Ok
    None] is the [continue] on a frame that is too short. *)
Definition display_body (data : bytes) (config : display_config)
  : result (option value) :=
  let start_byte := d_start_byte config in
  let byte_count := d_byte_count config in
  let data_type := d_data_type config in
  if Z.of_nat (List.length data) <? start_byte + byte_count then Ok None
  else
    let data_bytes := Py.slice data start_byte (start_byte + byte_count) in
    value <- parse_data_bytes data_bytes data_type ;;
    if negb (data_type =? "string (ASCII)")%string then
      number <- to_number value ;;
      scaled <- true_div (number * d_coefficient config)%Q (d_divisor config) ;;
      Ok (Some (Float (scaled + d_offset config)%Q))
    else Ok (Some value).

(** The value a display window is updated with, if any: the [except] branch
    prints and goes on. *)
Definition display_value (data : bytes) (config : display_config)
  : option value :=
  match display_body data config with
  | Ok v => v
  | Err _ => None
  end.




(** [f'{v:02d}']: the format code [d] accepts an [int] only. *)
Definition format_d (v : value) : result Z :=
  match v with
  | Int z => Ok z
  | _ => Err ValueError
  end.

(** The body of the [try] block of [update_received_clock], as the effects
    done before it returns or raises. *)
Definition clock_body (config : clock_config) (data : bytes)
  : list effect * result unit :=
  let len := Z.of_nat (List.length data) in
  let read (start : Z) (k : Z -> list effect * result unit) :=
    if len <=? start then ([], Ok tt)
    else match Py.getitem data start with
         | Some b => k b
         | None => ([], Err IndexError)
         end in
  if len <? c_year_start config + c_year_count config then ([], Ok tt)
  else
    match parse_data_bytes
            (Py.slice data (c_year_start config)
                      (c_year_start config + c_year_count config))
            (c_year_type config) with
    | Err e => ([], Err e)
    | Ok year =>
        read (c_month_start config) (fun month =>
        read (c_day_start config) (fun day =>
        read (c_hour_start config) (fun hour =>
        read (c_minute_start config) (fun minute =>
        read (c_second_start config) (fun second =>
          match format_d year with
          | Err e => ([ReceivedTimeLabel hour minute second], Err e)
          | Ok y =>
              ([ReceivedTimeLabel hour minute second;
                ReceivedDateLabel y month day;
                ReceivedTime y month day hour minute second], Ok tt)
          end)))))
    end.

Definition update_received_clock (clock : option clock_config) (data : bytes)
  : list effect :=
  match clock with
  | None => []
  | Some config =>
      if negb (c_enabled config) then [] else fst (clock_body config data)
  end.


End DisplayPath.

(** *** The receive log: grouping chunks by arrival gap

    The test [(current_time - last_rx_time).total_seconds() * 1000 >=
    frame_interval_ms] is floating point; it is the parameter
    [gap_reached last now interval] of the section. *)

Record rx_log := mk_rx_log {
  rx_buffer : bytes;
  last_rx_time : option Z;
  frame_interval_ms : Z
}.

Section ReceiveLog.
Variable gap_reached : Z -> Z -> Z -> bool.

(** The first half of [on_data_received]; the second component is what
    [add_data_to_display('RX', ...)] is called with. *)
Definition log_received (self : rx_log) (current_time : Z) (data : bytes)
  : rx_log * list bytes :=
  let is_new_frame :=
    match last_rx_time self with
    | None => true
    | Some last => gap_reached last current_time (frame_interval_ms self)
    end in
  if is_new_frame then
    if (0 <? List.length (rx_buffer self))%nat then
      ({| rx_buffer := [] ++ data; last_rx_time := Some current_time;
          frame_interval_ms := frame_interval_ms self |},
       [rx_buffer self])
    else
      ({| rx_buffer := rx_buffer self ++ data;
          last_rx_time := Some current_time;
          frame_interval_ms := frame_interval_ms self |}, [])
  else
    ({| rx_buffer := rx_buffer self ++ data;
        last_rx_time := Some current_time;
        frame_interval_ms := frame_interval_ms self |}, []).

Definition flush_rx_buffer (self : rx_log) (current_time : Z)
  : rx_log * list bytes :=
  if (0 <? List.length (rx_buffer self))%nat then
    match last_rx_time self with
    | Some last =>
        if gap_reached last current_time (frame_interval_ms self) then
          ({| rx_buffer := []; last_rx_time := None;
              frame_interval_ms := frame_interval_ms self |},
           [rx_buffer self])
        else (self, [])
    | None => (self, [])
    end
  else (self, []).

(** The flush at the top of [on_connection_lost] and of [close_serial]. *)
Definition flush_on_close (self : rx_log) : rx_log * list bytes :=
  if (0 <? List.length (rx_buffer self))%nat then
    ({| rx_buffer := []; last_rx_time := None;
        frame_interval_ms := frame_interval_ms self |}, [rx_buffer self])
  else
    ({| rx_buffer := rx_buffer self; last_rx_time := None;
        frame_interval_ms := frame_interval_ms self |}, []).

Inductive log_event :=
| Received (current_time : Z) (data : bytes)
| FlushTick (current_time : Z)
| Closed
| IntervalChanged (value : Z).

(** [on_frame_interval_changed] *)
Definition on_frame_interval_changed (self : rx_log) (value : Z) : rx_log :=
  {| rx_buffer := rx_buffer self; last_rx_time := last_rx_time self;
     frame_interval_ms := value |}.

Definition log_step (self : rx_log) (e : log_event) : rx_log * list bytes :=
  match e with
  | Received current_time data => log_received self current_time data
  | FlushTick current_time => flush_rx_buffer self current_time
  | Closed => flush_on_close self
  | IntervalChanged value => (on_frame_interval_changed self value, [])
  end.

Fixpoint log_run (self : rx_log) (events : list log_event)
  : rx_log * list bytes :=
  match events with
  | [] => (self, [])
  | e :: rest =>
      let '(self, shown) := log_step self e in
      let '(self, more) := log_run self rest in
      (self, shown ++ more)
  end.

End ReceiveLog.

End SerialMonitorApp.

(** ** class PlotCanvas, continued: [init_default_curves] *)

Module DefaultCurves.

Definition curve (start count : Z) (dtype : string) (divisor : Q)
  : PlotCanvas.curve_config :=
  {| PlotCanvas.start_byte := start; PlotCanvas.byte_count := count;
     PlotCanvas.data_type := dtype; PlotCanvas.bit_mode := false;
     PlotCanvas.bit_index := 0; PlotCanvas.coefficient := 1%Q;
     PlotCanvas.divisor := divisor; PlotCanvas.offset := 0%Q |}.

Definition default_curves : list PlotCanvas.curve_config :=
  [curve 2 2 "uint16 (LE)" 1%Q;
   curve 4 4 "uint32 (LE)" 600%Q;
   curve 8 2 "int16 (LE)" 10%Q].

End DefaultCurves.

(** ** class PlotCanvas, continued: the recorded history

    Time stamps are clock readings in microseconds; [time_data] holds the
    seconds since [start_time] as exact rationals.  [saved] says whether the
    [try] block of [auto_save_and_reset], which writes a file, got as far as
    [clear_data].  [None] stands for the [IndexError] of [pop(0)] on an empty
    list. *)

Module PlotHistory.

Record curve := mk_curve {
  protocol : option string;
  field : PlotCanvas.curve_config
}.

(** A parser result as [add_data] reads it. *)
Record data_dict := mk_data_dict {
  timestamp : Z;
  raw_frame : option bytes;
  protocol_name : option string
}.

Record t := mk_canvas {
  time_data : list Q;
  timestamp_data : list Z;
  curve_configs : list curve;
  curve_data : list (list Q);
  start_time : option Z;
  recording_start_time : option Z;
  last_auto_save_time : option Z
}.

Definition auto_save_interval : Z := 2 * 3600.

(** [l.pop(0)], the popped element dropped. *)
Definition pop0 {A} (l : list A) : option (list A) :=
  match l with
  | [] => None
  | _ :: rest => Some rest
  end.

Definition set_curve_configs (self : t) (configs : list curve) : t :=
  {| time_data := time_data self;
     timestamp_data := timestamp_data self;
     curve_configs := Py.slice_to configs 50;
     curve_data := map (fun _ => []) (Py.slice_to configs 50);
     start_time := start_time self;
     recording_start_time := recording_start_time self;
     last_auto_save_time := last_auto_save_time self |}.

Definition clear_data (self : t) : t :=
  {| time_data := [];
     timestamp_data := [];
     curve_configs := curve_configs self;
     curve_data := map (fun _ => []) (curve_data self);
     start_time := None;
     recording_start_time := None;
     last_auto_save_time := last_auto_save_time self |}.

Definition auto_save_and_reset (saved : bool) (self : t) : t :=
  if (List.length (time_data self) =? 0)%nat then self
  else if saved then clear_data self else self.

(** The state [__init__] leaves: empty lists, then
    [init_default_curves]. *)
Definition init : t :=
  set_curve_configs
    {| time_data := []; timestamp_data := []; curve_configs := [];
       curve_data := []; start_time := None; recording_start_time := None;
       last_auto_save_time := None |}
    (map (mk_curve None) DefaultCurves.default_curves).

Section AddData.
Variable unpack_float : Struct.byteorder -> bytes -> Q.
Variable unpack_double : Struct.byteorder -> bytes -> Q.

(** The loop over [enumerate(self.curve_configs)]: iteration [i] appends
    one value to [curve_data[i]] when there is such a list. *)
Fixpoint append_values (frame : bytes) (protocol_name : option string)
  (configs : list curve) (curve_data : list (list Q)) : list (list Q) :=
  match configs, curve_data with
  | config :: configs, data :: rest =>
      (data ++
       [if SerialMonitorApp.option_string_eqb (protocol config) protocol_name
        then
          match PlotCanvas.parse_value_from_frame unpack_float unpack_double
                  frame (field config) with
          | Some value => value
          | None => 0%Q
          end
        else if (0 <? List.length data)%nat then last data 0%Q else 0%Q])
      :: append_values frame protocol_name configs rest
  | _, _ => curve_data
  end.

(** [for data_list in self.curve_data: if data_list: data_list.pop(0)] *)
Definition pop_curves (curve_data : list (list Q)) : list (list Q) :=
  map (fun data_list => match data_list with
                        | [] => []
                        | _ :: rest => rest
                        end) curve_data.

Definition add_data (saved : bool) (self : t) (d : data_dict) : option t :=
  let fresh := match start_time self with None => true | Some _ => false end in
  let start :=
    match start_time self with
    | None => timestamp d
    | Some start => start
    end in
  let recording_start :=
    if fresh then Some (timestamp d) else recording_start_time self in
  let last_auto_save :=
    if fresh then Some (timestamp d) else last_auto_save_time self in
  let elapsed := (inject_Z (timestamp d - start) / 1000000)%Q in
  let time_data := time_data self ++ [elapsed] in
  let timestamp_data := timestamp_data self ++ [timestamp d] in
  let curve_data :=
    match raw_frame d with
    | Some frame =>
        append_values frame (protocol_name d) (curve_configs self)
          (curve_data self)
    | None => curve_data self
    end in
  match
    (if 50000 <? Z.of_nat (List.length time_data) then
       match pop0 time_data, pop0 timestamp_data with
       | Some time_data, Some timestamp_data =>
           Some (time_data, timestamp_data, pop_curves curve_data)
       | _, _ => None
       end
     else Some (time_data, timestamp_data, curve_data))
  with
  | None => None
  | Some (time_data, timestamp_data, curve_data) =>
      let self :=
        {| time_data := time_data;
           timestamp_data := timestamp_data;
           curve_configs := curve_configs self;
           curve_data := curve_data;
           start_time := Some start;
           recording_start_time := recording_start;
           last_auto_save_time := last_auto_save |} in
      Some
        match last_auto_save with
        | Some last =>
            if auto_save_interval * 1000000 <=? timestamp d - last then
              let self := auto_save_and_reset saved self in
              {| time_data := PlotHistory.time_data self;
                 timestamp_data := PlotHistory.timestamp_data self;
                 curve_configs := PlotHistory.curve_configs self;
                 curve_data := PlotHistory.curve_data self;
                 start_time := PlotHistory.start_time self;
                 recording_start_time := PlotHistory.recording_start_time self;
                 last_auto_save_time := Some (timestamp d) |}
            else self
        | None => self
        end
  end.

Inductive op :=
| AddData (saved : bool) (d : data_dict)
| ClearData
| SetCurveConfigs (configs : list curve).

Definition step (self : t) (o : op) : option t :=
  match o with
  | AddData saved d => add_data saved self d
  | ClearData => Some (clear_data self)
  | SetCurveConfigs configs => Some (set_curve_configs self configs)
  end.

Fixpoint run (self : t) (ops : list op) : option t :=
  match ops with
  | [] => Some self
  | o :: ops =>
      match step self o with
      | Some self => run self ops
      | None => None
      end
  end.

End AddData.

(** The history holds at most 50000 points, one time stamp per point, one
    list per curve, at most 50 curves, and no curve is longer than the time
    axis. *)
Definition bounded (self : t) : Prop :=
  Z.of_nat (List.length (time_data self)) <= 50000
  /\ List.length (timestamp_data self) = List.length (time_data self)
  /\ List.length (curve_data self) = List.length (curve_configs self)
  /\ (List.length (curve_configs self) <= 50)%nat
  /\ Forall (fun data => (List.length data <= List.length (time_data self))%nat)
       (curve_data self).

(** Every curve has one value per point of the time axis. *)
Definition aligned (self : t) : Prop :=
  Forall (fun data => List.length data = List.length (time_data self))
    (curve_data self).

(** The calls that keep the curves aligned with the time axis. *)
Definition keeps_alignment (o : op) : Prop :=
  match o with
  | AddData _ d => raw_frame d <> None
  | ClearData => True
  | SetCurveConfigs _ => False
  end.

End PlotHistory.

(** * Vocabulary of the further properties *)

Module More.
Import GenericProtocolParser.

(** The two nibbles of a byte pack to sixteen times the high one plus the
    low one. *)
Definition nibbles_pack (n : nat) : bool :=
  let hi := Z.of_nat (n / 16) in
  let lo := Z.of_nat (n mod 16) in
  Z.lor (Z.shiftl hi 4) lo =? 16 * hi + lo.

(** The protocol-dialog name of a send-box checksum. *)
Definition receive_kind (k : SerialMonitorApp.send_crc) : crc_kind :=
  match k with
  | SerialMonitorApp.SendNone => CrcNone
  | SerialMonitorApp.SendCCITT => CRC16_CCITT
  | SerialMonitorApp.SendModbus => CRC16_MODBUS
  | SerialMonitorApp.SendXmodem => CRC16_XMODEM
  | SerialMonitorApp.SendSum => SumCheck
  | SerialMonitorApp.SendXor => XorCheck
  | SerialMonitorApp.SendOther => CrcOther
  end.

(** The number of bytes a send-box checksum appends. *)
Definition trailer_size (k : SerialMonitorApp.send_crc) : nat :=
  match k with
  | SerialMonitorApp.SendCCITT | SerialMonitorApp.SendModbus
  | SerialMonitorApp.SendXmodem => 2
  | SerialMonitorApp.SendSum | SerialMonitorApp.SendXor => 1
  | SerialMonitorApp.SendNone | SerialMonitorApp.SendOther => 0
  end.

(** [b] is what is left of [a] after bytes are dropped from its front. *)
Definition suffix_of (b a : bytes) : Prop := exists dropped, a = dropped ++ b.


(** The chunks of a run of log events, in order of arrival. *)
Definition received_bytes (events : list SerialMonitorApp.log_event) : bytes :=
  flat_map (fun e => match e with
                     | SerialMonitorApp.Received _ data => data
                     | _ => []
                     end) events.



(** The type names that both the curve dialog and the display dialog
    offer. *)
Definition shared_types : list string :=
  ["uint8"; "int8"; "uint16 (LE)"; "uint16 (BE)"; "int16 (LE)"; "int16 (BE)";
   "uint32 (LE)"; "uint32 (BE)"; "int32 (LE)"; "int32 (BE)";
   "float (LE)"; "float (BE)"]%string.

(** An enabled display window with the field descriptor of a curve. *)
Definition as_display (c : PlotCanvas.curve_config) (protocol : option string)
  : SerialMonitorApp.display_config :=
  {| SerialMonitorApp.d_enabled := true;
     SerialMonitorApp.d_protocol := protocol;
     SerialMonitorApp.d_start_byte := PlotCanvas.start_byte c;
     SerialMonitorApp.d_byte_count := PlotCanvas.byte_count c;
     SerialMonitorApp.d_data_type := PlotCanvas.data_type c;
     SerialMonitorApp.d_coefficient := PlotCanvas.coefficient c;
     SerialMonitorApp.d_divisor := PlotCanvas.divisor c;
     SerialMonitorApp.d_offset := PlotCanvas.offset c |}.

(** What a curve plots, as the value a display window shows. *)
Definition plotted (v : option Q) : option SerialMonitorApp.value :=
  option_map SerialMonitorApp.Float v.

(** [frames] are pieces of [buffer] that follow one another without
    overlap, in this order, and [rest] is what is left of [buffer] after the
    last of them. *)
Fixpoint carved (frames : list bytes) (rest buffer : bytes) : Prop :=
  match frames with
  | [] => suffix_of rest buffer
  | frame :: frames =>
      exists skipped after,
        buffer = skipped ++ frame ++ after /\ carved frames rest after
  end.

(** The hexadecimal text of a byte string without its spaces: two digits
    per byte. *)
Fixpoint digits (frame : bytes) : string :=
  match frame with
  | [] => EmptyString
  | b :: frame =>
      String (hex_digit (b / 16)) (String (hex_digit (b mod 16)) (digits frame))
  end.


(** The year types the clock dialog offers. *)
Definition year_types : list string :=
  ["uint16 (LE)"; "uint16 (BE)"; "uint8"]%string.

(** The bytes at [start] on are too few for [count] of them. *)
Definition too_short (data : bytes) (start count : Z) : Prop :=
  Z.of_nat (List.length data) < start + count.

End More.

Module MoreExamples.
Import GenericProtocolParser.



(** The exact comparison of microsecond readings with an interval in
    milliseconds. *)
Definition gap (last now interval : Z) : bool := interval * 1000 <=? now - last.

Definition fresh_log : SerialMonitorApp.rx_log :=
  {| SerialMonitorApp.rx_buffer := [];
     SerialMonitorApp.last_rx_time := None;
     SerialMonitorApp.frame_interval_ms := 100 |}.

Definition log_events : list SerialMonitorApp.log_event :=
  [SerialMonitorApp.Received 0 [1; 2];
   SerialMonitorApp.Received 20000 [3];
   SerialMonitorApp.FlushTick 50000;
   SerialMonitorApp.Received 200000 [4; 5];
   SerialMonitorApp.FlushTick 400000;
   SerialMonitorApp.Received 500000 [6]].

(** A frame of the built-in protocol that carries 2026-11-04 07:22:05 at
    offsets 10 to 16 and the status byte 0xA5 at offset 17. *)
Definition clock_frame : bytes :=
  [0xA8; 0xA8; 0x2C; 0x01; 0x20; 0xBF; 0x02; 0x00; 0xFD; 0x00;
   0xEA; 0x07; 11; 4; 7; 22; 5; 0xA5]
  ++ repeat 0 18 ++ [0xAA; 0xAA].

Definition clock_cfg : SerialMonitorApp.clock_config :=
  {| SerialMonitorApp.c_enabled := true;
     SerialMonitorApp.c_protocol := None;
     SerialMonitorApp.c_year_start := 10;
     SerialMonitorApp.c_year_count := 2;
     SerialMonitorApp.c_year_type := "uint16 (LE)";
     SerialMonitorApp.c_month_start := 12;
     SerialMonitorApp.c_day_start := 13;
     SerialMonitorApp.c_hour_start := 14;
     SerialMonitorApp.c_minute_start := 15;
     SerialMonitorApp.c_second_start := 16 |}.


(** Two results of the built-in parser a second apart, a change of the
    curves, and a result more than two hours later. *)
Definition history_ops : list PlotHistory.op :=
  [PlotHistory.AddData true
     {| PlotHistory.timestamp := 0;
        PlotHistory.raw_frame := Some clock_frame;
        PlotHistory.protocol_name := None |};
   PlotHistory.AddData true
     {| PlotHistory.timestamp := 1000000;
        PlotHistory.raw_frame := Some clock_frame;
        PlotHistory.protocol_name := Some "probe"%string |};
   PlotHistory.ClearData;
   PlotHistory.AddData true
     {| PlotHistory.timestamp := 7300000000;
        PlotHistory.raw_frame := Some clock_frame;
        PlotHistory.protocol_name := None |}].

(** A frame that carries the text Hi, padded with two NUL bytes, and a
    window that shows it. *)
Definition text_frame : bytes := [0xA8; 0x01; 0x48; 0x69; 0x00; 0x00; 0xAA].

Definition text_display : SerialMonitorApp.display_config :=
  {| SerialMonitorApp.d_enabled := true;
     SerialMonitorApp.d_protocol := Some "probe"%string;
     SerialMonitorApp.d_start_byte := 2;
     SerialMonitorApp.d_byte_count := 4;
     SerialMonitorApp.d_data_type := "string (ASCII)";
     SerialMonitorApp.d_coefficient := 2%Q;
     SerialMonitorApp.d_divisor := 0%Q;
     SerialMonitorApp.d_offset := 1%Q |}.

(** Two frames of the probe protocol with garbage before, between and after
    them. *)
Definition noisy_buffer : bytes :=
  [0x00; 0xA8; 0x01; 0xF6; 0x84; 0x55; 0xA8; 0x01; 0xF6; 0x84; 0x01].

End MoreExamples.

(** * Properties *)

(** ** Generic facts on folds and iteration *)

Lemma fold_left_pointwise {A B} (f g : A -> B -> A) (l : list B) (a : A) :
  (forall x y, f x y = g x y) -> fold_left f l a = fold_left g l a.
Proof.
  intros Hfg. revert a.
  induction l as [|b l IH]; intros a; simpl; [reflexivity|].
  rewrite Hfg. apply IH.
Qed.

Lemma iter_pointwise {A} (f g : A -> A) (n : nat) (a : A) :
  (forall x, f x = g x) -> Nat.iter n f a = Nat.iter n g a.
Proof.
  intros Hfg. induction n as [|n IH]; simpl; [reflexivity|].
  rewrite IH. apply Hfg.
Qed.

Lemma fold_left_add_acc (l : list Z) (a : Z) :
  fold_left Z.add l a = a + fold_right Z.add 0 l.
Proof.
  revert a. induction l as [|b l IH]; intros a; simpl; [lia|].
  rewrite IH. lia.
Qed.

Lemma fold_left_lxor_acc (l : list Z) (a : Z) :
  fold_left (fun r b => Z.lxor r b) l a = Z.lxor a (fold_right Z.lxor 0 l).
Proof.
  revert a. induction l as [|b l IH]; intros a; simpl.
  - now rewrite Z.lxor_0_r.
  - rewrite IH. now rewrite Z.lxor_assoc.
Qed.

(** ** Bit-level facts behind the CRC steps *)

Section RegisterBits.

Lemma land_bit15 (crc : Z) :
  (Z.land crc 0x8000 =? 0) = negb (Z.testbit crc 15).
Proof.
  change 0x8000 with (2 ^ 15).
  destruct (Z.testbit crc 15) eqn:Hb; cbn [negb].
  - apply Z.eqb_neq. intros H0.
    assert (Ht : Z.testbit (Z.land crc (2 ^ 15)) 15 = true).
    { rewrite Z.land_spec, Hb, Z.pow2_bits_true by lia. reflexivity. }
    rewrite H0, Z.bits_0 in Ht. discriminate.
  - apply Z.eqb_eq. apply Z.bits_inj'. intros n Hn.
    rewrite Z.land_spec, Z.bits_0, Z.pow2_bits_eqb by lia.
    destruct (Z.eqb_spec 15 n) as [<-|_].
    + now rewrite Hb.
    + apply andb_false_r.
Qed.

Lemma land_bit0 (crc : Z) : (Z.land crc 0x0001 =? 0) = negb (Z.odd crc).
Proof.
  change 0x0001 with (Z.ones 1).
  rewrite Z.land_ones by lia. change (2 ^ 1) with 2.
  rewrite Zmod_odd. now destruct (Z.odd crc).
Qed.

Lemma mask16_lxor (a p : Z) :
  Z.land p 0xFFFF = p ->
  Z.land (Z.lxor a p) 0xFFFF = Z.lxor (Z.land a 0xFFFF) p.
Proof.
  intros Hp. apply Z.bits_inj'. intros n Hn.
  rewrite Z.land_spec, !Z.lxor_spec, Z.land_spec.
  rewrite <- Hp at 2. rewrite Z.land_spec.
  destruct (Z.testbit a n), (Z.testbit p n), (Z.testbit 0xFFFF n);
    reflexivity.
Qed.

Lemma mask16_shiftl1 (crc : Z) :
  Z.land (Z.shiftl crc 1) 0xFFFF = (2 * crc) mod 2 ^ 16.
Proof.
  change 0xFFFF with (Z.ones 16).
  rewrite Z.land_ones, Z.shiftl_mul_pow2 by lia.
  f_equal. lia.
Qed.

Lemma msb_first_step (crc : Z) :
  Z.land (if negb (Z.land crc 0x8000 =? 0)
          then Z.lxor (Z.shiftl crc 1) 0x1021
          else Z.shiftl crc 1) 0xFFFF
  = ChecksumSpec.shift_left_step 0x1021 crc.
Proof.
  unfold ChecksumSpec.shift_left_step, ChecksumSpec.msb_set.
  rewrite land_bit15, negb_involutive.
  destruct (Z.testbit crc 15).
  - rewrite mask16_lxor by reflexivity. now rewrite mask16_shiftl1.
  - apply mask16_shiftl1.
Qed.

Lemma lsb_first_step (crc : Z) :
  (if negb (Z.land crc 0x0001 =? 0)
   then Z.lxor (Z.shiftr crc 1) 0xA001
   else Z.shiftr crc 1)
  = ChecksumSpec.shift_right_step 0xA001 crc.
Proof.
  unfold ChecksumSpec.shift_right_step, ChecksumSpec.lsb_set.
  rewrite land_bit0, negb_involutive.
  rewrite Z.shiftr_div_pow2 by lia. change (2 ^ 1) with 2.
  reflexivity.
Qed.

End RegisterBits.

(** C7. Each of the five checksum functions of [CRCCalculator] computes the
    algorithm the design states: CRC16-CCITT is the MSB-first register
    machine with polynomial 0x1021 started at 0xFFFF, each byte XORed into the
    high register byte; CRC16-XMODEM is the same machine started at 0x0000;
    CRC16-Modbus is the LSB-first machine with the reflected polynomial 0xA001
    started at 0xFFFF; Sum8 is the byte sum modulo 256; Xor8 is the XOR fold.
    On the empty input they return 0xFFFF, 0x0000, 0xFFFF, 0 and 0, and on
    the check input "123456789" the catalogue values 0x29B1, 0x31C3 and
    0x4B37. *)
Theorem checksum_engine_reference (data : bytes) :
  CRCCalculator.calculate_ccitt_crc16 data
    = ChecksumSpec.crc16_msb_first 0x1021 0xFFFF data
  /\ CRCCalculator.calculate_crc16_xmodem data
    = ChecksumSpec.crc16_msb_first 0x1021 0x0000 data
  /\ CRCCalculator.calculate_modbus_crc16 data
    = ChecksumSpec.crc16_lsb_first 0xA001 0xFFFF data
  /\ CRCCalculator.calculate_sum_check data = ChecksumSpec.sum8 data
  /\ CRCCalculator.calculate_xor_check data = ChecksumSpec.xor8 data
  /\ CRCCalculator.calculate_ccitt_crc16 [] = 0xFFFF
  /\ CRCCalculator.calculate_crc16_xmodem [] = 0x0000
  /\ CRCCalculator.calculate_modbus_crc16 [] = 0xFFFF
  /\ CRCCalculator.calculate_sum_check [] = 0
  /\ CRCCalculator.calculate_xor_check [] = 0
  /\ CRCCalculator.calculate_ccitt_crc16 check_input = 0x29B1
  /\ CRCCalculator.calculate_crc16_xmodem check_input = 0x31C3
  /\ CRCCalculator.calculate_modbus_crc16 check_input = 0x4B37.
Proof.
  assert (Hmsb : forall init,
    fold_left
      (fun crc byte =>
         Nat.iter 8
           (fun crc =>
              let crc :=
                if negb (Z.land crc 0x8000 =? 0)
                then Z.lxor (Z.shiftl crc 1) 0x1021
                else Z.shiftl crc 1 in
              Z.land crc 0xFFFF)
           (Z.lxor crc (Z.shiftl byte 8)))
      data init
    = ChecksumSpec.crc16_msb_first 0x1021 init data).
  { intros init. unfold ChecksumSpec.crc16_msb_first.
    apply fold_left_pointwise. intros crc byte.
    rewrite Z.shiftl_mul_pow2 by lia.
    apply iter_pointwise. intros x. apply msb_first_step. }
  repeat split; try reflexivity.
  - apply Hmsb.
  - apply Hmsb.
  - unfold CRCCalculator.calculate_modbus_crc16, ChecksumSpec.crc16_lsb_first.
    apply fold_left_pointwise. intros crc byte.
    apply iter_pointwise. intros x. apply lsb_first_step.
  - unfold CRCCalculator.calculate_sum_check, ChecksumSpec.sum8.
    rewrite fold_left_add_acc. change 0xFF with (Z.ones 8).
    rewrite Z.land_ones by lia. reflexivity.
  - unfold CRCCalculator.calculate_xor_check, ChecksumSpec.xor8.
    rewrite fold_left_lxor_acc. apply Z.lxor_0_l.
Qed.

(** ** Facts on the Python sequence primitives *)

Section PyFacts.

Lemma bytes_eqb_eq (a b : bytes) : Py.bytes_eqb a b = true <-> a = b.
Proof.
  revert b. induction a as [|x a IH]; intros [|y b]; simpl;
    try (split; [discriminate|congruence]); [tauto|].
  rewrite andb_true_iff, Z.eqb_eq, IH.
  split; [intros [-> ->]; reflexivity|intros [= -> ->]; auto].
Qed.

Lemma bytes_eqb_refl (a : bytes) : Py.bytes_eqb a a = true.
Proof. now apply bytes_eqb_eq. Qed.

Lemma startswith_iff (sub s : bytes) :
  Py.startswith sub s = true <-> exists rest, s = sub ++ rest.
Proof.
  revert s. induction sub as [|x sub IH]; intros s; simpl.
  - split; [intros _; now exists s|reflexivity].
  - destruct s as [|y s].
    + split; [discriminate|intros [rest H]; discriminate].
    + rewrite andb_true_iff, Z.eqb_eq, IH. split.
      * intros [-> [rest ->]]. now exists rest.
      * intros [rest [= -> ->]]. split; [reflexivity|now exists rest].
Qed.

Lemma startswith_app (sub s rest : bytes) :
  Py.startswith sub s = true -> Py.startswith sub (s ++ rest) = true.
Proof.
  rewrite !startswith_iff. intros [r ->].
  exists (r ++ rest). now rewrite app_assoc.
Qed.

Lemma startswith_self_app (sub rest : bytes) :
  Py.startswith sub (sub ++ rest) = true.
Proof. apply startswith_iff. now exists rest. Qed.

Lemma startswith_length (sub s : bytes) :
  Py.startswith sub s = true -> (List.length sub <= List.length s)%nat.
Proof.
  rewrite startswith_iff. intros [r ->]. rewrite length_app. lia.
Qed.


Lemma find_startswith (sub s : bytes) :
  Py.startswith sub s = true -> Py.find sub s = Some 0%nat.
Proof. intros H. destruct s; simpl in *; now rewrite H. Qed.

Lemma find_unfold (sub s : bytes) :
  Py.find sub s =
  if Py.startswith sub s then Some 0%nat
  else match s with
       | [] => None
       | _ :: s' => option_map S (Py.find sub s')
       end.
Proof. destruct s; reflexivity. Qed.

(** [find] returns the first position at which [sub] is a prefix of the
    remainder. *)
Lemma find_some (sub s : bytes) (n : nat) :
  Py.find sub s = Some n <->
  Py.startswith sub (skipn n s) = true
  /\ forall m, (m < n)%nat -> Py.startswith sub (skipn m s) = false.
Proof.
  revert n. induction s as [|x s IH]; intros n.
  - rewrite find_unfold, skipn_nil.
    destruct (Py.startswith sub []) eqn:H0.
    + split.
      * intros [= <-]. split; [reflexivity|lia].
      * intros [_ Hm]. destruct n as [|n]; [reflexivity|].
        specialize (Hm 0%nat ltac:(lia)). simpl in Hm. congruence.
    + split; [discriminate|intros [H _]; discriminate].
  - rewrite find_unfold.
    destruct (Py.startswith sub (x :: s)) eqn:H0.
    + split.
      * intros [= <-]. split; [exact H0|lia].
      * intros [_ Hm]. destruct n as [|n]; [reflexivity|].
        specialize (Hm 0%nat ltac:(lia)). simpl in Hm. congruence.
    + destruct n as [|n].
      * split.
        -- destruct (Py.find sub s); discriminate.
        -- intros [H _]. simpl in H. congruence.
      * destruct (Py.find sub s) as [k|] eqn:Hf; simpl.
        -- split.
           ++ intros [= <-]. destruct (IH k) as [IHk _].
              destruct (IHk eq_refl) as [Hk Hm].
              split; [exact Hk|].
              intros [|m] Hlt; [exact H0|]. apply Hm. lia.
           ++ intros [Hk Hm].
              assert (Hn : Some k = Some n); [|congruence].
              apply IH. split; [exact Hk|].
              intros m Hlt. apply (Hm (S m)). lia.
        -- split; [discriminate|].
           intros [Hk Hm].
           assert (Hn : @None nat = Some n); [|discriminate].
           apply IH. split; [exact Hk|].
           intros m Hlt. apply (Hm (S m)). lia.
Qed.

Lemma find_bound (sub s : bytes) (n : nat) :
  Py.find sub s = Some n -> (n + List.length sub <= List.length s)%nat.
Proof.
  revert n. induction s as [|x s IH]; intros n; rewrite find_unfold.
  - destruct (Py.startswith sub []) eqn:H0; [|discriminate].
    intros [= <-]. apply startswith_length in H0. simpl in *. lia.
  - destruct (Py.startswith sub (x :: s)) eqn:H0.
    + intros [= <-]. apply startswith_length in H0. simpl in *. lia.
    + destruct (Py.find sub s) as [k|]; [|discriminate].
      intros [= <-]. specialize (IH k eq_refl). simpl. lia.
Qed.

(** [find] fails exactly when [sub] does not occur in [s]. *)
Lemma find_none (sub s : bytes) :
  Py.find sub s = None <-> ~ exists pre post, s = pre ++ sub ++ post.
Proof.
  induction s as [|x s IH]; rewrite find_unfold.
  - destruct (Py.startswith sub []) eqn:H0.
    + split; [discriminate|]. intros H. exfalso. apply H.
      apply startswith_iff in H0 as [r Hr]. now exists [], r.
    + split; [|reflexivity]. intros _ [pre [post H]].
      destruct pre; [|discriminate]. simpl in H.
      assert (Py.startswith sub [] = true); [|congruence].
      apply startswith_iff. now exists post.
  - destruct (Py.startswith sub (x :: s)) eqn:H0.
    + split; [discriminate|]. intros H. exfalso. apply H.
      apply startswith_iff in H0 as [r Hr]. now exists [], r.
    + destruct (Py.find sub s) as [k|] eqn:Hf; simpl.
      * split; [discriminate|]. intros H. exfalso. apply H.
        destruct (find_some sub s k) as [Hfs _].
        destruct (Hfs Hf) as [Hp _].
        apply startswith_iff in Hp as [r Hr].
        exists (x :: firstn k s), r.
        simpl. f_equal. rewrite <- Hr. symmetry. apply firstn_skipn.
      * split; [|reflexivity]. intros _ [pre [post H]].
        destruct pre as [|y pre].
        -- simpl in H.
           assert (Py.startswith sub (x :: s) = true); [|congruence].
           apply startswith_iff. now exists post.
        -- injection H as _ H.
           destruct IH as [IH _]. apply (IH eq_refl). now exists pre, post.
Qed.

(** Slices counted from the end. *)
Lemma slice_from_neg {A} (s : list A) (k : nat) :
  (0 < k <= List.length s)%nat ->
  Py.slice_from s (- Z.of_nat k) = skipn (List.length s - k) s.
Proof.
  intros Hk. unfold Py.slice_from, Py.clamp.
  destruct (Z.ltb_spec (- Z.of_nat k) 0); [|lia].
  f_equal. lia.
Qed.

Lemma slice_to_neg {A} (s : list A) (k : nat) :
  (0 < k <= List.length s)%nat ->
  Py.slice_to s (- Z.of_nat k) = firstn (List.length s - k) s.
Proof.
  intros Hk. unfold Py.slice_to, Py.clamp.
  destruct (Z.ltb_spec (- Z.of_nat k) 0); [|lia].
  f_equal. lia.
Qed.

Lemma slice_from_nonneg {A} (s : list A) (i : Z) :
  0 <= i -> Py.slice_from s i = skipn (Z.to_nat i) s.
Proof.
  intros Hi. unfold Py.slice_from, Py.clamp.
  destruct (Z.ltb_spec i 0); [lia|].
  destruct (Z.le_gt_cases i (Z.of_nat (List.length s))).
  - now rewrite Z.min_l by lia.
  - rewrite Z.min_r, Nat2Z.id by lia.
    rewrite !skipn_all2 by lia. reflexivity.
Qed.

Lemma slice_from_app_tail {A} (s t : list A) :
  t <> [] -> Py.slice_from (s ++ t) (- Z.of_nat (List.length t)) = t.
Proof.
  intros Ht. rewrite slice_from_neg.
  - rewrite length_app, Nat.add_sub, skipn_app, Nat.sub_diag.
    rewrite skipn_all. reflexivity.
  - rewrite length_app. destruct t; [congruence|simpl; lia].
Qed.

Lemma slice_to_app_tail {A} (s t : list A) :
  t <> [] -> Py.slice_to (s ++ t) (- Z.of_nat (List.length t)) = s.
Proof.
  intros Ht. rewrite slice_to_neg.
  - rewrite length_app, Nat.add_sub, firstn_app, Nat.sub_diag.
    rewrite firstn_all. simpl. apply app_nil_r.
  - rewrite length_app. destruct t; [congruence|simpl; lia].
Qed.

Lemma getitem_last {A} (s : list A) (x : A) :
  Py.getitem (s ++ [x]) (-1) = Some x.
Proof.
  unfold Py.getitem. rewrite length_app. simpl.
  destruct (Z.ltb_spec (-1) (- Z.of_nat (List.length s + 1))); [lia|].
  destruct (Z.leb_spec (Z.of_nat (List.length s + 1)) (-1)); [lia|].
  simpl.
  replace (Z.to_nat (Z.of_nat (List.length s + 1) + -1))
    with (List.length s) by lia.
  rewrite nth_error_app2, Nat.sub_diag by lia. reflexivity.
Qed.

Lemma slice_within {A} (s : list A) (i j : Z) :
  0 <= i <= j -> j <= Z.of_nat (List.length s) ->
  Py.slice s i j = firstn (Z.to_nat j - Z.to_nat i) (skipn (Z.to_nat i) s).
Proof.
  intros Hi Hj. unfold Py.slice, Py.clamp.
  destruct (Z.ltb_spec i 0); [lia|]. destruct (Z.ltb_spec j 0); [lia|].
  now rewrite !Z.min_l by lia.
Qed.

End PyFacts.

(** ** The loop of [GenericProtocolParser.parse] *)

Module GenericLoop.
Import GenericProtocolParser Frames.

Section Loop.
Variable cfg : protocol_config.

Lemma parse_loop_short fuel buffer results :
  (List.length buffer < length cfg)%nat ->
  parse_loop fuel cfg buffer results = Some (buffer, results).
Proof.
  intros H. destruct fuel; simpl;
    destruct (Nat.ltb_spec (List.length buffer) (length cfg));
    reflexivity || lia.
Qed.

Lemma parse_loop_step fuel buffer results :
  (length cfg <= List.length buffer)%nat ->
  parse_loop (S fuel) cfg buffer results =
  match loop_body cfg buffer with
  | Break buffer => Some (buffer, results)
  | Continue buffer => parse_loop fuel cfg buffer results
  | Append r buffer => parse_loop fuel cfg buffer (results ++ [r])
  end.
Proof.
  intros H. simpl.
  destruct (Nat.ltb_spec (List.length buffer) (length cfg)); [lia|].
  reflexivity.
Qed.

(** The header search leaves the buffer at the first header occurrence. *)
Lemma locate_header_inr buffer b :
  locate_header cfg buffer = inr b ->
  Py.startswith (header cfg) b = true
  /\ exists i, b = skipn i buffer
     /\ (header cfg <> [] -> Py.find (header cfg) buffer = Some i).
Proof.
  unfold locate_header.
  destruct (Nat.ltb_spec 0 (List.length (header cfg))) as [Hh|Hh].
  - destruct (Py.find (header cfg) buffer) as [i|] eqn:Hf; [|discriminate].
    intros [= <-]. apply find_some in Hf as Hs. destruct Hs as [Hs _].
    destruct (Nat.ltb_spec 0 i).
    + split; [exact Hs|]. now exists i.
    + assert (i = 0%nat) as -> by lia. split; [exact Hs|]. now exists 0%nat.
  - intros [= <-]. destruct (header cfg); [|simpl in Hh; lia].
    split; [reflexivity|]. exists 0%nat. split; [reflexivity|congruence].
Qed.

Lemma locate_header_at_front buffer :
  Py.startswith (header cfg) buffer = true ->
  locate_header cfg buffer = inr buffer.
Proof.
  intros Hs. unfold locate_header.
  destruct (0 <? List.length (header cfg))%nat; [|reflexivity].
  now rewrite (find_startswith _ _ Hs).
Qed.

Lemma locate_header_seek buffer i :
  header cfg <> [] ->
  Py.find (header cfg) buffer = Some i ->
  locate_header cfg buffer = inr (skipn i buffer).
Proof.
  intros Hh Hf. unfold locate_header.
  destruct (Nat.ltb_spec 0 (List.length (header cfg))) as [_|Hl].
  - rewrite Hf. destruct (Nat.ltb_spec 0 i); [reflexivity|].
    now assert (i = 0%nat) as -> by lia.
  - destruct (header cfg); [congruence|simpl in Hl; lia].
Qed.

(** A candidate at the front of the buffer that passes both checks is
    appended and consumed. *)
Lemma loop_body_accept buffer :
  Py.startswith (header cfg) buffer = true ->
  (length cfg <= List.length buffer)%nat ->
  accepted cfg (firstn (length cfg) buffer) = true ->
  loop_body cfg buffer =
  Append (make_result cfg (firstn (length cfg) buffer))
         (skipn (length cfg) buffer).
Proof.
  intros Hs Hl Ha. unfold loop_body.
  rewrite (locate_header_at_front _ Hs).
  destruct (Nat.ltb_spec (List.length buffer) (length cfg)); [lia|].
  apply andb_true_iff in Ha as [-> ->]. reflexivity.
Qed.


(** Bytes before the first header occurrence are discarded within the same
    pass. *)
Lemma loop_body_seek buffer i :
  header cfg <> [] ->
  Py.find (header cfg) buffer = Some i ->
  loop_body cfg buffer = loop_body cfg (skipn i buffer).
Proof.
  intros Hh Hf. unfold loop_body.
  rewrite (locate_header_seek _ _ Hh Hf).
  apply find_some in Hf as [Hs _].
  now rewrite (locate_header_at_front _ Hs).
Qed.


(** Every pass that does not leave the loop shortens the buffer, as long
    as the frame length is positive. *)
Lemma loop_body_shrinks buffer :
  (0 < length cfg <= List.length buffer)%nat ->
  match loop_body cfg buffer with
  | Break _ => True
  | Continue b | Append _ b => (List.length b < List.length buffer)%nat
  end.
Proof.
  intros [Hpos Hl]. unfold loop_body.
  destruct (locate_header cfg buffer) as [b|b] eqn:Hloc; [exact I|].
  apply locate_header_inr in Hloc as [_ [i [-> _]]].
  destruct (Nat.ltb_spec (List.length (skipn i buffer)) (length cfg));
    [exact I|].
  rewrite length_skipn in *.
  destruct (negb (tail_matches cfg _));
    [|destruct (negb (_verify_crc cfg _))];
    rewrite length_skipn, ?length_skipn; unfold skip_len; lia.
Qed.

(** With a positive frame length the loop ends within [len(buffer)]
    passes. *)
Lemma parse_loop_total fuel buffer results :
  (0 < length cfg)%nat ->
  (List.length buffer <= fuel)%nat ->
  exists x, parse_loop fuel cfg buffer results = Some x.
Proof.
  intros Hpos. revert buffer results.
  induction fuel as [|fuel IH]; intros buffer results Hf.
  - exists (buffer, results). apply parse_loop_short. lia.
  - destruct (Nat.ltb_spec (List.length buffer) (length cfg)) as [Hs|Hs].
    + exists (buffer, results). now apply parse_loop_short.
    + rewrite parse_loop_step by assumption.
      pose proof (loop_body_shrinks buffer (conj Hpos Hs)) as Hsh.
      destruct (loop_body cfg buffer) as [b|b|r b].
      * now exists (b, results).
      * apply IH. lia.
      * apply IH. lia.
Qed.

End Loop.

Lemma parse_total (p : t) :
  (0 < length (config p))%nat -> exists x, parse p = Some x.
Proof.
  intros Hpos. unfold parse.
  destruct (negb (enabled (config p))); [now eexists|].
  destruct (parse_loop_total (config p) (S (List.length (buffer p)))
              (buffer p) [] Hpos) as [[b out] ->]; [lia|].
  now eexists.
Qed.

End GenericLoop.

(** ** Well-formedness of what the parsers append *)

Module WellFormed.
Import GenericProtocolParser Frames GenericLoop.




(** The built-in parser. *)




End WellFormed.


(** ** Checksum verification *)

Module VerifyCrc.
Import GenericProtocolParser.

Lemma last2 (data : bytes) (b1 b2 : Z) :
  Py.slice_from (data ++ [b1; b2]) (-2) = [b1; b2]
  /\ Py.slice_to (data ++ [b1; b2]) (-2) = data.
Proof.
  change (-2) with (- Z.of_nat (List.length [b1; b2])).
  split; [apply slice_from_app_tail|apply slice_to_app_tail]; discriminate.
Qed.

Lemma last1 (data : bytes) (b : Z) :
  Py.getitem (data ++ [b]) (-1) = Some b
  /\ Py.slice_to (data ++ [b]) (-1) = data.
Proof.
  split; [apply getitem_last|].
  change (-1) with (- Z.of_nat (List.length [b])).
  apply slice_to_app_tail. discriminate.
Qed.

Lemma long_enough (data tl : bytes) (n : nat) :
  data <> [] -> n = S (List.length tl) ->
  (List.length (data ++ tl) <? n)%nat = false.
Proof.
  intros Hd ->. apply Nat.ltb_ge. rewrite length_app.
  destruct data; [congruence|simpl; lia].
Qed.

(** The [struct.unpack] call of [_verify_crc] never fails: behind the length
    guard the last two bytes are there. *)
Lemma unpack_trailer_defined (o : Struct.byteorder) (frame : bytes) :
  (2 <= List.length frame)%nat ->
  Struct.unpack_uint o 2 (Py.slice_from frame (-2)) <> None.
Proof.
  intros Hl. unfold Struct.unpack_uint.
  change (-2) with (- Z.of_nat 2). rewrite slice_from_neg by lia.
  rewrite length_skipn.
  destruct (Nat.eqb_spec (List.length frame - (List.length frame - 2)) 2);
    [discriminate|lia].
Qed.

(** Nor does the read of [frame[-1]]: behind its guard the frame is not
    empty. *)
Lemma getitem_trailer_defined (frame : bytes) :
  (1 <= List.length frame)%nat -> Py.getitem frame (-1) <> None.
Proof.
  intros Hl. unfold Py.getitem.
  destruct (Z.ltb_spec (-1) (- Z.of_nat (List.length frame))); [lia|].
  destruct (Z.leb_spec (Z.of_nat (List.length frame)) (-1)); [lia|].
  cbn [orb]. change (-1 <? 0) with true. cbv iota.
  apply nth_error_Some. lia.
Qed.

End VerifyCrc.

(** C3 (amended). For a candidate frame with at least one byte before its
    checksum bytes, [_verify_crc] accepts exactly when the checksum recomputed
    over the frame minus its trailing checksum bytes equals those bytes read
    in the kind's byte order: CRC16-CCITT high byte first, CRC16-XMODEM and
    CRC16-Modbus low byte first, over the last two bytes; Sum8 and Xor8
    against the last byte.  Kind none accepts every frame.  A frame with
    nothing before the checksum bytes (fewer than 3 bytes for the CRC16
    kinds, fewer than 2 for Sum8 and Xor8) is rejected. *)
Theorem verify_crc_byte_order
  (cfg : GenericProtocolParser.protocol_config) (data : bytes) (b1 b2 : Z) :
  data <> [] ->
  match GenericProtocolParser.crc_type cfg with
  | GenericProtocolParser.CRC16_CCITT =>
      (GenericProtocolParser._verify_crc cfg (data ++ [b1; b2]) = true
       <-> CRCCalculator.calculate_ccitt_crc16 data = 256 * b1 + b2)
      /\ forall frame, (List.length frame < 3)%nat ->
                       GenericProtocolParser._verify_crc cfg frame = false
  | GenericProtocolParser.CRC16_XMODEM =>
      (GenericProtocolParser._verify_crc cfg (data ++ [b1; b2]) = true
       <-> CRCCalculator.calculate_crc16_xmodem data = b1 + 256 * b2)
      /\ forall frame, (List.length frame < 3)%nat ->
                       GenericProtocolParser._verify_crc cfg frame = false
  | GenericProtocolParser.CRC16_MODBUS =>
      (GenericProtocolParser._verify_crc cfg (data ++ [b1; b2]) = true
       <-> CRCCalculator.calculate_modbus_crc16 data = b1 + 256 * b2)
      /\ forall frame, (List.length frame < 3)%nat ->
                       GenericProtocolParser._verify_crc cfg frame = false
  | GenericProtocolParser.SumCheck =>
      (GenericProtocolParser._verify_crc cfg (data ++ [b1]) = true
       <-> CRCCalculator.calculate_sum_check data = b1)
      /\ forall frame, (List.length frame < 2)%nat ->
                       GenericProtocolParser._verify_crc cfg frame = false
  | GenericProtocolParser.XorCheck =>
      (GenericProtocolParser._verify_crc cfg (data ++ [b1]) = true
       <-> CRCCalculator.calculate_xor_check data = b1)
      /\ forall frame, (List.length frame < 2)%nat ->
                       GenericProtocolParser._verify_crc cfg frame = false
  | GenericProtocolParser.CrcNone | GenericProtocolParser.CrcOther =>
      forall frame, GenericProtocolParser._verify_crc cfg frame = true
  end.
Proof.
  intros Hd. unfold GenericProtocolParser._verify_crc.
  destruct (VerifyCrc.last2 data b1 b2) as [Hfrom Hto].
  destruct (VerifyCrc.last1 data b1) as [Hget Hto1].
  assert (Hshort : forall (frame : bytes) n X,
            (List.length frame < n)%nat ->
            (if (List.length frame <? n)%nat then false else X) = false).
  { intros frame n X Hl.
    now destruct (Nat.ltb_spec (List.length frame) n); [|lia]. }
  destruct (GenericProtocolParser.crc_type cfg); try reflexivity;
    (split; [|intros frame; apply Hshort]);
    rewrite VerifyCrc.long_enough by (assumption || reflexivity);
    rewrite ?Hfrom, ?Hto, ?Hget, ?Hto1;
    unfold Struct.unpack_uint, Struct.unsigned_value;
    cbn [List.length Nat.eqb rev app Struct.le_value];
    rewrite Z.eqb_eq; split; intros H; lia.
Qed.

(** C3, witness: a four-byte frame under CRC16-XMODEM. *)
Lemma verify_crc_byte_order_witness :
  GenericProtocolParser._verify_crc
    (Examples.with_crc GenericProtocolParser.CRC16_XMODEM)
    ([0xA8; 0x01] ++ [0xF6; 0x84]) = true
  <-> CRCCalculator.calculate_crc16_xmodem [0xA8; 0x01] = 0xF6 + 256 * 0x84.
Proof.
  apply (verify_crc_byte_order
           (Examples.with_crc GenericProtocolParser.CRC16_XMODEM)
           [0xA8; 0x01] 0xF6 0x84).
  discriminate.
Defined.

(** C3, counterexample: under CRC16-CCITT the two-byte frame FF FF carries
    the checksum of the empty payload, high byte first, and is rejected. *)
Lemma verify_crc_rejects_bare_checksum :
  List.length [0xFF; 0xFF] = GenericProtocolParser.length Examples.ccitt_only
  /\ ~ (GenericProtocolParser._verify_crc Examples.ccitt_only [0xFF; 0xFF]
        = true
        <-> CRCCalculator.calculate_ccitt_crc16
              (Py.slice_to [0xFF; 0xFF] (-2))
            = Struct.unsigned_value Struct.BE
                (Py.slice_from [0xFF; 0xFF] (-2))).
Proof.
  split; [reflexivity|].
  intros [_ H]. specialize (H eq_refl). discriminate H.
Qed.

(** ** Header not found *)

Module HeaderNotFound.
Import GenericProtocolParser GenericLoop.

Lemma parse_break (cfg : protocol_config) (buffer b : bytes) :
  enabled cfg = true ->
  (length cfg <= List.length buffer)%nat ->
  loop_body cfg buffer = Break b ->
  parse {| config := cfg; buffer := buffer |}
  = Some ({| config := cfg; buffer := b |}, []).
Proof.
  intros He Hl Hb. unfold parse.
  cbn [GenericProtocolParser.config GenericProtocolParser.buffer].
  rewrite He.
  cbn [negb].
  rewrite parse_loop_step, Hb by assumption. reflexivity.
Qed.

(** With a header of two bytes or more and a buffer longer than the header,
    all but the last [len(header) - 1] bytes are dropped. *)
Lemma long_header_trimmed (cfg : protocol_config) (buffer : bytes) :
  enabled cfg = true ->
  (2 <= List.length (header cfg) < List.length buffer)%nat ->
  (length cfg <= List.length buffer)%nat ->
  Py.find (header cfg) buffer = None ->
  parse {| config := cfg; buffer := buffer |}
  = Some ({| config := cfg;
             buffer := skipn (List.length buffer
                              - (List.length (header cfg) - 1)) buffer |},
          []).
Proof.
  intros He [Hh Hb] Hl Hf. apply parse_break; try assumption.
  unfold loop_body, locate_header. rewrite Hf.
  destruct (Nat.ltb_spec 0 (List.length (header cfg))); [|lia].
  destruct (Nat.ltb_spec (List.length (header cfg)) (List.length buffer));
    [|lia].
  f_equal.
  replace (- (Z.of_nat (List.length (header cfg)) - 1))
    with (- Z.of_nat (List.length (header cfg) - 1)) by lia.
  apply slice_from_neg. lia.
Qed.

(** The built-in parser clears its buffer instead. *)
Lemma default_cleared (buffer : bytes) :
  (DataParser.FRAME_LENGTH <= List.length buffer)%nat ->
  Py.find DataParser.FRAME_HEADER buffer = None ->
  DataParser.parse buffer = Some ([], []).
Proof.
  intros Hl Hf. unfold DataParser.parse.
  cbn [DataParser.parse_loop].
  destruct (Nat.ltb_spec (List.length buffer) DataParser.FRAME_LENGTH);
    [lia|].
  unfold DataParser.loop_body. now rewrite Hf.
Qed.

End HeaderNotFound.

(** C4 (the source departs from the design and from its own comment, which
    keeps the last [len(header) - 1] bytes). With a one-byte header that does
    not occur in a buffer of at least frame-length bytes, [parse] leaves the
    whole buffer in place: the slice [buffer[-(len(header)-1):]] is
    [buffer[-0:]], the entire buffer, and not its last zero bytes. *)
Theorem single_byte_header_not_trimmed
  (cfg : GenericProtocolParser.protocol_config) (buffer : bytes) (h : Z) :
  GenericProtocolParser.enabled cfg = true ->
  GenericProtocolParser.header cfg = [h] ->
  (GenericProtocolParser.length cfg <= List.length buffer)%nat ->
  Py.find (GenericProtocolParser.header cfg) buffer = None ->
  GenericProtocolParser.parse
    {| GenericProtocolParser.config := cfg;
       GenericProtocolParser.buffer := buffer |}
  = Some ({| GenericProtocolParser.config := cfg;
             GenericProtocolParser.buffer := buffer |}, []).
Proof.
  intros He Hh Hl Hf. apply HeaderNotFound.parse_break; try assumption.
  unfold GenericProtocolParser.loop_body, GenericProtocolParser.locate_header.
  rewrite Hf, Hh. cbn [List.length].
  change (0 <? 1)%nat with true. cbv iota.
  destruct (1 <? List.length buffer)%nat; [|reflexivity].
  change (- (Z.of_nat 1 - 1)) with 0.
  now rewrite slice_from_nonneg by lia.
Qed.

(** C4, at the failing input: header A8, frame length 4, buffer 01 02 03 04.
    The buffer after [parse] is the four bytes, where the design says it is
    the last zero bytes. *)
Lemma single_byte_header_not_trimmed_witness :
  GenericProtocolParser.parse
    {| GenericProtocolParser.config := Examples.one_byte_header;
       GenericProtocolParser.buffer := [1; 2; 3; 4] |}
  = Some ({| GenericProtocolParser.config := Examples.one_byte_header;
             GenericProtocolParser.buffer := [1; 2; 3; 4] |}, [])
  /\ skipn (List.length [1; 2; 3; 4]
            - (List.length
                 (GenericProtocolParser.header Examples.one_byte_header) - 1))
           [1; 2; 3; 4] = [].
Proof.
  split.
  - apply (single_byte_header_not_trimmed Examples.one_byte_header
             [1; 2; 3; 4] 0xA8); reflexivity.
  - reflexivity.
Defined.

(** ** Feeding a frame in pieces *)

Module Chunking.
Import GenericProtocolParser Frames GenericLoop.

Section Generic.
Variable cfg : protocol_config.
Hypothesis Henabled : enabled cfg = true.
Hypothesis Hpos : (0 < length cfg)%nat.
Hypothesis Hcap : Z.of_nat (length cfg) <= 10240.

Lemma add_data_below_cap (b chunk : bytes) :
  (List.length (b ++ chunk) <= length cfg)%nat ->
  add_data {| config := cfg; buffer := b |} chunk
  = {| config := cfg; buffer := b ++ chunk |}.
Proof.
  intros Hl. unfold add_data.
  cbn [GenericProtocolParser.config GenericProtocolParser.buffer].
  destruct (Z.ltb_spec 10240 (Z.of_nat (List.length (b ++ chunk))));
    [lia|reflexivity].
Qed.

Lemma parse_enabled (b : bytes) :
  parse {| config := cfg; buffer := b |}
  = match parse_loop (S (List.length b)) cfg b [] with
    | Some (b', results) => Some ({| config := cfg; buffer := b' |}, results)
    | None => None
    end.
Proof.
  unfold parse.
  cbn [GenericProtocolParser.config GenericProtocolParser.buffer].
  now rewrite Henabled.
Qed.

(** While the frame is incomplete nothing is emitted and nothing is
    dropped. *)
Lemma feed_incomplete (b chunk : bytes) :
  (List.length (b ++ chunk) < length cfg)%nat ->
  feed {| config := cfg; buffer := b |} chunk
  = Some ({| config := cfg; buffer := b ++ chunk |}, []).
Proof.
  intros Hl. unfold feed.
  rewrite add_data_below_cap, parse_enabled by lia.
  now rewrite parse_loop_short.
Qed.

(** The chunk that completes the frame emits it and empties the buffer. *)
Lemma feed_complete (b chunk : bytes) :
  valid_frame cfg (b ++ chunk) ->
  feed {| config := cfg; buffer := b |} chunk
  = Some (init cfg, [make_result cfg (b ++ chunk)]).
Proof.
  intros (Hl & Hs & Ha). unfold feed.
  rewrite add_data_below_cap, parse_enabled by lia.
  rewrite parse_loop_step by lia.
  rewrite loop_body_accept; rewrite <- ?Hl, ?firstn_all; try assumption;
    [|lia].
  rewrite skipn_all, parse_loop_short by (simpl; lia).
  reflexivity.
Qed.

Lemma feed_all_nothing_left (chunks : list bytes) :
  List.concat chunks = [] ->
  feed_all (init cfg) chunks = Some (init cfg, []).
Proof.
  induction chunks as [|c chunks IH]; intros Hc; [reflexivity|].
  simpl in Hc. apply app_eq_nil in Hc as [-> Hc].
  cbn [feed_all]. unfold init at 1.
  rewrite feed_incomplete by (simpl; lia).
  simpl app. fold (init cfg). now rewrite IH.
Qed.

Lemma feed_all_from_prefix (chunks : list bytes) (b : bytes) :
  (List.length b < length cfg)%nat ->
  valid_frame cfg (b ++ List.concat chunks) ->
  feed_all {| config := cfg; buffer := b |} chunks
  = Some (init cfg, [make_result cfg (b ++ List.concat chunks)]).
Proof.
  revert b. induction chunks as [|c chunks IH]; intros b Hb Hv.
  - exfalso. destruct Hv as [Hl _]. simpl in Hl.
    rewrite app_nil_r in Hl. lia.
  - cbn [feed_all List.concat] in *.
    destruct (Nat.ltb_spec (List.length (b ++ c)) (length cfg)) as [Hlt|Hge].
    + rewrite feed_incomplete by assumption.
      rewrite IH; rewrite <- ?app_assoc; auto.
    + assert (Hnil : List.concat chunks = []).
      { destruct Hv as [Hl _]. rewrite app_assoc, length_app in Hl.
        apply length_zero_iff_nil. lia. }
      rewrite Hnil, app_nil_r in *.
      rewrite feed_complete by assumption.
      now rewrite feed_all_nothing_left.
Qed.
End Generic.

(** The built-in parser. *)

Lemma default_parse_short (b : bytes) :
  (List.length b < DataParser.FRAME_LENGTH)%nat ->
  DataParser.parse b = Some (b, []).
Proof.
  intros Hl. unfold DataParser.parse. cbn [DataParser.parse_loop].
  now destruct (Nat.ltb_spec (List.length b) DataParser.FRAME_LENGTH); [|lia].
Qed.

Lemma unpack_uint_slice (o : Struct.byteorder) (frame : bytes) (i n : nat) :
  (i + n <= List.length frame)%nat ->
  Struct.unpack_uint o n (Py.slice frame (Z.of_nat i) (Z.of_nat (i + n)))
  <> None.
Proof.
  intros Hl. unfold Struct.unpack_uint.
  rewrite slice_within by lia.
  rewrite length_firstn, length_skipn.
  destruct (Nat.eqb_spec
              (Nat.min (Z.to_nat (Z.of_nat (i + n)) - Z.to_nat (Z.of_nat i))
                       (List.length frame - Z.to_nat (Z.of_nat i))) n);
    [discriminate|lia].
Qed.

Lemma default_decode (frame : bytes) :
  List.length frame = DataParser.FRAME_LENGTH ->
  exists r, DataParser.decode frame = Some r /\ DataParser.raw_frame r = frame.
Proof.
  intros Hl. unfold DataParser.decode, Struct.unpack_int.
  unfold DataParser.FRAME_LENGTH in Hl.
  pose proof (unpack_uint_slice Struct.LE frame 2 2 ltac:(lia)) as H1.
  pose proof (unpack_uint_slice Struct.LE frame 4 4 ltac:(lia)) as H2.
  pose proof (unpack_uint_slice Struct.LE frame 8 2 ltac:(lia)) as H3.
  change (Z.of_nat 2) with 2 in *. change (Z.of_nat (2 + 2)) with 4 in *.
  change (Z.of_nat 4) with 4 in *. change (Z.of_nat (4 + 4)) with 8 in *.
  change (Z.of_nat 8) with 8 in *. change (Z.of_nat (8 + 2)) with 10 in *.
  destruct (Struct.unpack_uint Struct.LE 2 (Py.slice frame 2 4));
    [|congruence].
  destruct (Struct.unpack_uint Struct.LE 4 (Py.slice frame 4 8));
    [|congruence].
  destruct (Struct.unpack_uint Struct.LE 2 (Py.slice frame 8 10));
    [|congruence].
  cbn [option_map]. eexists. split; reflexivity.
Qed.

Lemma default_feed_incomplete (b chunk : bytes) :
  (List.length (b ++ chunk) < DataParser.FRAME_LENGTH)%nat ->
  feed_default b chunk = Some (b ++ chunk, []).
Proof. intros Hl. now apply default_parse_short. Qed.

Lemma default_feed_complete (b chunk : bytes) (r : DataParser.result) :
  valid_default_frame (b ++ chunk) ->
  DataParser.decode (b ++ chunk) = Some r ->
  feed_default b chunk = Some (DataParser.init, [r]).
Proof.
  intros (Hl & Hs & Ht) Hr.
  unfold feed_default, DataParser.add_data, DataParser.parse.
  cbn [DataParser.parse_loop].
  destruct (Nat.ltb_spec (List.length (b ++ chunk)) DataParser.FRAME_LENGTH);
    [lia|].
  unfold DataParser.loop_body.
  rewrite (find_startswith _ _ Hs). cbn [Nat.ltb Nat.leb].
  destruct (Nat.ltb_spec (List.length (b ++ chunk)) DataParser.FRAME_LENGTH);
    [lia|].
  rewrite <- Hl, firstn_all, skipn_all, Ht, bytes_eqb_refl, Hr.
  cbn [negb]. rewrite Hl.
  destruct (List.length (b ++ chunk)); [discriminate|].
  cbn [DataParser.parse_loop List.length].
  reflexivity.
Qed.

Lemma default_feed_all_nothing_left (chunks : list bytes) :
  List.concat chunks = [] ->
  feed_all_default DataParser.init chunks = Some (DataParser.init, []).
Proof.
  induction chunks as [|c chunks IH]; intros Hc; [reflexivity|].
  simpl in Hc. apply app_eq_nil in Hc as [-> Hc].
  cbn [feed_all_default].
  rewrite default_feed_incomplete
    by (unfold DataParser.init, DataParser.FRAME_LENGTH; simpl; lia).
  change (DataParser.init ++ []) with DataParser.init.
  now rewrite IH.
Qed.

Lemma default_feed_all_from_prefix (chunks : list bytes) (b : bytes)
  (r : DataParser.result) :
  (List.length b < DataParser.FRAME_LENGTH)%nat ->
  valid_default_frame (b ++ List.concat chunks) ->
  DataParser.decode (b ++ List.concat chunks) = Some r ->
  feed_all_default b chunks = Some (DataParser.init, [r]).
Proof.
  revert b. induction chunks as [|c chunks IH]; intros b Hb Hv Hr.
  - exfalso. destruct Hv as [Hl _]. simpl in Hl.
    rewrite app_nil_r in Hl. lia.
  - cbn [feed_all_default List.concat] in *.
    destruct (Nat.ltb_spec (List.length (b ++ c)) DataParser.FRAME_LENGTH)
      as [Hlt|Hge].
    + rewrite default_feed_incomplete by assumption.
      rewrite IH; rewrite <- ?app_assoc; auto.
    + assert (Hnil : List.concat chunks = []).
      { destruct Hv as [Hl _]. rewrite app_assoc, length_app in Hl.
        apply length_zero_iff_nil. lia. }
      rewrite Hnil, app_nil_r in *.
      rewrite (default_feed_complete _ _ r) by assumption.
      now rewrite default_feed_all_nothing_left.
Qed.

End Chunking.

(** C1. A valid frame fed to a fresh synchronizer in arbitrary consecutive
    chunks (add_data then parse per chunk) emits exactly one result, the one
    with the bytes of the frame, and so does feeding the frame whole; this
    holds for every enabled generic protocol whose frame length is positive
    and within the buffer cap of 10240 bytes, and for the built-in parser. *)
Theorem chunking_invariance
  (cfg : GenericProtocolParser.protocol_config)
  (frame : bytes) (chunks : list bytes)
  (dframe : bytes) (dchunks : list bytes) :
  GenericProtocolParser.enabled cfg = true ->
  (0 < GenericProtocolParser.length cfg)%nat ->
  Z.of_nat (GenericProtocolParser.length cfg) <= 10240 ->
  Frames.valid_frame cfg frame ->
  List.concat chunks = frame ->
  Frames.valid_default_frame dframe ->
  List.concat dchunks = dframe ->
  (Frames.feed_all (GenericProtocolParser.init cfg) chunks
   = Some (GenericProtocolParser.init cfg,
           [GenericProtocolParser.make_result cfg frame])
   /\ Frames.feed (GenericProtocolParser.init cfg) frame
      = Some (GenericProtocolParser.init cfg,
              [GenericProtocolParser.make_result cfg frame]))
  /\ exists r,
       DataParser.decode dframe = Some r
       /\ DataParser.raw_frame r = dframe
       /\ Frames.feed_all_default DataParser.init dchunks
          = Some (DataParser.init, [r])
       /\ Frames.feed_default DataParser.init dframe
          = Some (DataParser.init, [r]).
Proof.
  intros He Hpos Hcap Hv <- Hdv <-. split; [split|].
  - apply (Chunking.feed_all_from_prefix cfg He Hpos Hcap chunks []);
      [simpl; lia|exact Hv].
  - apply (Chunking.feed_complete cfg He Hpos Hcap [] (List.concat chunks)).
    exact Hv.
  - destruct (Chunking.default_decode (List.concat dchunks)) as [r [Hr Hraw]];
      [apply Hdv|].
    exists r. repeat split; try assumption.
    + apply (Chunking.default_feed_all_from_prefix dchunks [] r);
        [unfold DataParser.FRAME_LENGTH; simpl; lia|exact Hdv|exact Hr].
    + apply (Chunking.default_feed_complete [] (List.concat dchunks) r);
        assumption.
Qed.

(** ** Resynchronisation after a rejected candidate *)

Module Resync.
Import GenericProtocolParser Frames GenericLoop.

Section Generic.
Variable cfg : protocol_config.
Variables f1 bad f2 : bytes.
Hypothesis Hf1 : valid_frame cfg f1.
Hypothesis Hf2 : valid_frame cfg f2.
Hypothesis Hbad_len : List.length bad = length cfg.
Hypothesis Hbad_header : Py.startswith (header cfg) bad = true.
Hypothesis Hpos : (0 < length cfg)%nat.
(** The header occurs nowhere strictly inside the corrupted frame, also not
    straddling into the frame after it. *)
Hypothesis Hclean :
  forall i, (0 < i < length cfg)%nat ->
            Py.startswith (header cfg) (skipn i (bad ++ f2)) = false.



End Generic.

End Resync.


(** ** Dispatch of a chunk to the parsers *)

Module DispatchFacts.
Import GenericProtocolParser SerialMonitor Dispatch.

Lemma use_default_parser_iff (configs : list protocol_config) :
  use_default_parser configs = true <-> ~ conflict configs.
Proof.
  unfold conflict. induction configs as [|c cs IH]; simpl.
  - split; [intros _ H; inversion H|reflexivity].
  - destruct (enabled c) eqn:He.
    + destruct (Py.bytes_eqb (header c) default_header) eqn:Hh.
      * split; [discriminate|]. intros H. exfalso. apply H.
        apply Exists_cons_hd. split; [exact He|].
        now apply bytes_eqb_eq in Hh.
      * rewrite IH. split.
        -- intros Hn H. inversion H as [? ? [_ Hc]|]; subst; [|tauto].
           rewrite Hc in Hh. unfold default_header in Hh.
           rewrite bytes_eqb_refl in Hh. discriminate.
        -- intros Hn H. apply Hn. now apply Exists_cons_tl.
    + rewrite IH. split.
      * intros Hn H. inversion H as [? ? [Hc _]|]; subst; [congruence|tauto].
      * intros Hn H. apply Hn. now apply Exists_cons_tl.
Qed.

Lemma default_loop_body_shrinks (buffer : bytes) :
  match DataParser.loop_body buffer with
  | DataParser.Break _ => True
  | DataParser.Continue b _ => (List.length b < List.length buffer)%nat
  end.
Proof.
  unfold DataParser.loop_body.
  destruct (Py.find DataParser.FRAME_HEADER buffer) as [i|]; [|exact I].
  set (b0 := if (0 <? i)%nat then skipn i buffer else buffer).
  assert (Hb0 : (List.length b0 <= List.length buffer)%nat).
  { subst b0. destruct (0 <? i)%nat; [rewrite length_skipn|]; lia. }
  destruct (Nat.ltb_spec (List.length b0) DataParser.FRAME_LENGTH);
    [exact I|].
  unfold DataParser.FRAME_LENGTH in *.
  destruct (negb _); rewrite length_skipn; lia.
Qed.

Lemma default_parse_loop_total fuel (buffer : bytes) results :
  (List.length buffer <= fuel)%nat ->
  exists x, DataParser.parse_loop fuel buffer results = Some x.
Proof.
  revert buffer results.
  induction fuel as [|fuel IH]; intros buffer results Hf; cbn [DataParser.parse_loop].
  - destruct (Nat.ltb_spec (List.length buffer) DataParser.FRAME_LENGTH);
      [now eexists|].
    unfold DataParser.FRAME_LENGTH in *. lia.
  - destruct (Nat.ltb_spec (List.length buffer) DataParser.FRAME_LENGTH);
      [now eexists|].
    pose proof (default_loop_body_shrinks buffer) as Hsh.
    destruct (DataParser.loop_body buffer) as [b|b appended];
      [now eexists|].
    apply IH. lia.
Qed.

Lemma default_parse_total (buffer : DataParser.t) :
  exists x, DataParser.parse buffer = Some x.
Proof. apply default_parse_loop_total. lia. Qed.

(** Every result of a generic parser carries the name of its protocol. *)
Lemma parse_loop_named cfg fuel buffer results b out :
  parse_loop fuel cfg buffer results = Some (b, out) ->
  Forall (fun r => protocol_name r = name cfg) results ->
  Forall (fun r => protocol_name r = name cfg) out.
Proof.
  revert buffer results.
  induction fuel as [|fuel IH]; intros buffer results H Hres; cbn [parse_loop] in H;
    destruct (List.length buffer <? length cfg)%nat;
    try discriminate; try (now injection H as <- <-).
  unfold loop_body in H.
  destruct (locate_header cfg buffer) as [b0|b0];
    [now injection H as <- <-|].
  destruct (List.length b0 <? length cfg)%nat;
    [now injection H as <- <-|].
  destruct (negb (tail_matches cfg _)); [eapply IH; eassumption|].
  destruct (negb (_verify_crc cfg _)); [eapply IH; eassumption|].
  eapply IH; [eassumption|].
  apply Forall_app. split; [assumption|].
  constructor; [reflexivity|constructor].
Qed.

Lemma add_data_config (p : GenericProtocolParser.t) (data : bytes) :
  config (add_data p data) = config p.
Proof. reflexivity. Qed.

Lemma feed_named (p p' : GenericProtocolParser.t) data results :
  Frames.feed p data = Some (p', results) ->
  Forall (fun r => protocol_name r = name (config p)) results.
Proof.
  unfold Frames.feed, parse. rewrite add_data_config.
  destruct (negb (enabled (config p)));
    [intros [= <- <-]; constructor|].
  destruct (parse_loop _ _ _ _) as [[b out]|] eqn:Hl; [|discriminate].
  intros [= <- <-].
  eapply parse_loop_named; [exact Hl|constructor].
Qed.

Lemma run_protocol_parsers_fed (parsers : list GenericProtocolParser.t) data :
  Forall (fun p => (0 < length (config p))%nat) parsers ->
  exists parsers' out,
    run_protocol_parsers parsers data = Some (parsers', out)
    /\ default_frames out = []
    /\ fed_each data parsers parsers' (custom_frames out).
Proof.
  induction 1 as [|p ps Hp Hps IH]; cbn [run_protocol_parsers].
  - exists [], []. repeat split. constructor.
  - destruct (GenericLoop.parse_total (add_data p data)) as [[p' res] Hfeed];
      [exact Hp|].
    rewrite Hfeed.
    destruct IH as (ps' & out & -> & Hd & Hfed).
    exists (p' :: ps'), (map CustomFrame res ++ out).
    split; [reflexivity|].
    unfold default_frames, custom_frames in *.
    rewrite !flat_map_app. rewrite Hd.
    assert (Hdef : flat_map
                     (fun c => match c with
                               | DefaultFrame r => [r]
                               | CustomFrame _ => []
                               end) (map CustomFrame res) = []).
    { clear. induction res; simpl; auto. }
    assert (Hcus : flat_map
                     (fun c => match c with
                               | DefaultFrame _ => []
                               | CustomFrame r => [r]
                               end) (map CustomFrame res) = res).
    { clear. induction res; simpl; congruence. }
    rewrite Hdef, Hcus. split; [reflexivity|].
    constructor; [exact Hfeed|eapply feed_named; exact Hfeed|exact Hfed].
Qed.

Lemma init_protocol_parsers_enabled (configs : list protocol_config) :
  init_protocol_parsers configs = map init (filter enabled configs).
Proof.
  induction configs as [|c cs IH]; simpl; [reflexivity|].
  destruct (enabled c); simpl; now rewrite IH.
Qed.

Lemma frames_of_default (results : list DataParser.result) :
  default_frames (map DefaultFrame results) = results
  /\ custom_frames (map DefaultFrame results) = [].
Proof.
  unfold default_frames, custom_frames.
  induction results as [|r rs [IH1 IH2]]; simpl; split; congruence.
Qed.

End DispatchFacts.

(** C5. On every received chunk, with custom parsers of positive frame
    length: the set of custom parsers is one fresh parser per enabled
    protocol; the built-in parser is fed the chunk and parsed exactly when no
    enabled custom protocol has the header A8 A8, and is left untouched
    otherwise; every custom parser is fed the chunk and parsed whatever the
    outcome of that test, its results carrying its protocol name. *)
Theorem dispatcher_conflict_rule (s : SerialMonitor.dispatcher) (data : bytes) :
  Forall (fun p => (0 < GenericProtocolParser.length
                          (GenericProtocolParser.config p))%nat)
         (SerialMonitor.protocol_parsers s) ->
  SerialMonitor.init_protocol_parsers (SerialMonitor.protocol_configs s)
  = map GenericProtocolParser.init
        (filter GenericProtocolParser.enabled (SerialMonitor.protocol_configs s))
  /\ exists s' out,
       SerialMonitor.on_data_received s data = Some (s', out)
       /\ (~ Dispatch.conflict (SerialMonitor.protocol_configs s) ->
           Frames.feed_default (SerialMonitor.parser s) data
           = Some (SerialMonitor.parser s', Dispatch.default_frames out))
       /\ (Dispatch.conflict (SerialMonitor.protocol_configs s) ->
           SerialMonitor.parser s' = SerialMonitor.parser s
           /\ Dispatch.default_frames out = [])
       /\ Dispatch.fed_each data (SerialMonitor.protocol_parsers s)
            (SerialMonitor.protocol_parsers s') (Dispatch.custom_frames out).
Proof.
  intros Hpos. split; [apply DispatchFacts.init_protocol_parsers_enabled|].
  destruct (DispatchFacts.run_protocol_parsers_fed _ data Hpos)
    as (ps' & cout & Hrun & Hcd & Hfed).
  unfold SerialMonitor.on_data_received, SerialMonitor.run_default_parser.
  rewrite Hrun.
  destruct (SerialMonitor.use_default_parser (SerialMonitor.protocol_configs s))
    eqn:Hu.
  - destruct (DispatchFacts.default_parse_total
                (DataParser.add_data (SerialMonitor.parser s) data))
      as [[b res] Hparse].
    rewrite Hparse. eexists _, _. split; [reflexivity|].
    destruct (DispatchFacts.frames_of_default res) as [Hd1 Hd2].
    unfold Dispatch.default_frames, Dispatch.custom_frames in *.
    rewrite !flat_map_app, Hd1, Hd2, Hcd, app_nil_r.
    cbn [SerialMonitor.parser SerialMonitor.protocol_parsers app].
    apply DispatchFacts.use_default_parser_iff in Hu.
    split; [intros _; exact Hparse|].
    split; [tauto|exact Hfed].
  - eexists _, _. split; [reflexivity|].
    cbn [SerialMonitor.parser SerialMonitor.protocol_parsers app].
    assert (Hc : Dispatch.conflict (SerialMonitor.protocol_configs s)).
    { destruct (DispatchFacts.use_default_parser_iff
                  (SerialMonitor.protocol_configs s)) as [_ Hiff].
      unfold Dispatch.conflict in *.
      destruct (Exists_dec
                  (fun c => GenericProtocolParser.enabled c = true
                            /\ GenericProtocolParser.header c = [0xA8; 0xA8])
                  (SerialMonitor.protocol_configs s)) as [Hy|Hn];
        [|exact Hy|rewrite (Hiff Hn) in Hu; discriminate].
      intros c.
      destruct (GenericProtocolParser.enabled c);
        destruct (list_eq_dec Z.eq_dec (GenericProtocolParser.header c)
                              [0xA8; 0xA8]);
        (left; split; congruence) || (right; intros [? ?]; congruence). }
    split; [tauto|]. split; [intros _; split; [reflexivity|exact Hcd]|].
    exact Hfed.
Qed.

(** ** Field extraction *)

Module Extract.
Import PlotCanvas.

Lemma slice_to_prefix {A} (s : list A) (j : Z) (n : nat) :
  j = Z.of_nat n -> (n <= List.length s)%nat -> Py.slice_to s j = firstn n s.
Proof.
  intros -> Hn. unfold Py.slice_to, Py.clamp.
  destruct (Z.ltb_spec (Z.of_nat n) 0); [lia|].
  f_equal. lia.
Qed.

Lemma unpack_uint_prefix (o : Struct.byteorder) (n : nat) (data : bytes) :
  (n <= List.length data)%nat ->
  Struct.unpack_uint o n (firstn n data)
  = Some (Struct.unsigned_value o (firstn n data)).
Proof.
  intros Hn. unfold Struct.unpack_uint.
  rewrite length_firstn, Nat.min_l, Nat.eqb_refl by lia. reflexivity.
Qed.

Section Decoders.
Variable unpack_float : Struct.byteorder -> bytes -> Q.
Variable unpack_double : Struct.byteorder -> bytes -> Q.

Lemma unpack_Z_prefix (signed : bool) (o : Struct.byteorder) (n : nat)
  (j : Z) (data : bytes) :
  j = Z.of_nat n -> (n <= List.length data)%nat ->
  unpack_Z signed o n (Py.slice_to data j)
  = Return (raw_value unpack_float unpack_double
              (if signed then SInt o n else UInt o n) (firstn n data)).
Proof.
  intros Hj Hn. rewrite (slice_to_prefix data j n Hj Hn).
  unfold unpack_Z, Struct.unpack_int.
  destruct signed; rewrite unpack_uint_prefix by assumption; reflexivity.
Qed.

Lemma unpack_ieee_prefix (decoder : Struct.byteorder -> bytes -> Q)
  (o : Struct.byteorder) (n : nat) (j : Z) (data : bytes) :
  j = Z.of_nat n -> (n <= List.length data)%nat ->
  unpack_ieee decoder o n (Py.slice_to data j)
  = Return (decoder o (firstn n data)).
Proof.
  intros Hj Hn. rewrite (slice_to_prefix data j n Hj Hn).
  unfold unpack_ieee.
  rewrite length_firstn, Nat.min_l, Nat.eqb_refl by lia. reflexivity.
Qed.

Lemma getitem_first (data : bytes) :
  (1 <= List.length data)%nat ->
  or_raise IndexError (Py.getitem data 0)
  = Return (Struct.unsigned_value Struct.LE (firstn 1 data)).
Proof.
  destruct data as [|b rest]; simpl List.length; intros Hl; [lia|].
  unfold Py.getitem. cbn [List.length].
  destruct (Z.ltb_spec 0 (- Z.of_nat (S (List.length rest)))); [lia|].
  destruct (Z.leb_spec (Z.of_nat (S (List.length rest))) 0); [lia|].
  cbn. f_equal. lia.
Qed.

Ltac eval_type_tests :=
  repeat match goal with
         | |- context [String.eqb ?a ?b] =>
             let r := eval vm_compute in (String.eqb a b) in
             change (String.eqb a b) with r
         end;
  cbv iota.

(** On a declared type the chain reads the first [scalar_size] bytes. *)
Lemma decode_known (dtype : string) (k : scalar) (data : bytes) :
  In (dtype, k) type_table ->
  (scalar_size k <= List.length data)%nat ->
  decode unpack_float unpack_double dtype data
  = Return (Some (raw_value unpack_float unpack_double k
                    (firstn (scalar_size k) data))).
Proof.
  intros Hin. unfold type_table in Hin. cbn [In] in Hin.
  repeat (destruct Hin as [Hin|Hin]; [injection Hin as <- <-|]);
    try contradiction; cbn [scalar_size]; intros Hl;
    unfold decode; eval_type_tests;
    rewrite ?getitem_first, ?(unpack_Z_prefix true), ?(unpack_Z_prefix false),
      ?unpack_ieee_prefix by (reflexivity || assumption);
    reflexivity.
Qed.


End Decoders.

End Extract.



(** ** Time calibration *)

Module CalibrationFacts.
Import SerialMonitor Calibration.

Lemma bcd_below_100 (v : Z) :
  0 <= v < 100 -> decimal_to_bcd v = bcd v /\ 0 <= bcd v < 256.
Proof.
  intros Hv.
  assert (Hall : forallb bcd_agrees (seq 0 100) = true) by (vm_compute; reflexivity).
  rewrite forallb_forall in Hall.
  specialize (Hall (Z.to_nat v)). unfold bcd_agrees in Hall.
  rewrite Z2Nat.id in Hall by lia.
  rewrite !andb_true_iff, Z.eqb_eq, Z.leb_le, Z.ltb_lt in Hall.
  assert (Hin : In (Z.to_nat v) (seq 0 100)) by (apply in_seq; lia).
  specialize (Hall Hin). intuition.
Qed.


Lemma append_byte (data : bytes) (v : Z) :
  0 <= v < 256 -> append data v = Some (data ++ [v]).
Proof.
  intros Hv. unfold append.
  destruct (Z.leb_spec 0 v); [|lia]. destruct (Z.ltb_spec v 256); [|lia].
  reflexivity.
Qed.

Lemma append_bcd (data : bytes) (v : Z) :
  0 <= v < 100 -> append data (decimal_to_bcd v) = Some (data ++ [bcd v]).
Proof.
  intros Hv. destruct (bcd_below_100 v Hv) as [-> Hr]. now apply append_byte.
Qed.

Lemma mask16_range (x : Z) : 0 <= Z.land x 0xFFFF < 65536.
Proof.
  change 0xFFFF with (Z.ones 16). rewrite Z.land_ones by lia.
  apply Z.mod_pos_bound. lia.
Qed.

(** The XMODEM register stays within 16 bits. *)
Lemma xmodem_range (data : bytes) :
  0 <= CRCCalculator.calculate_crc16_xmodem data < 65536.
Proof.
  unfold CRCCalculator.calculate_crc16_xmodem.
  match goal with
  | |- context [fold_left ?f data _] => set (step := f)
  end.
  assert (Hall : forall init, 0 <= init < 65536 ->
                              0 <= fold_left step data init < 65536).
  { induction data as [|b data IH]; intros init Hi; [exact Hi|].
    cbn [fold_left]. apply IH.
    subst step. cbn [Nat.iter]. apply mask16_range. }
  apply Hall. lia.
Qed.

Lemma low_high_bytes (crc : Z) :
  0 <= crc < 65536 ->
  Z.land crc 0xFF = crc mod 256
  /\ Z.land (Z.shiftr crc 8) 0xFF = crc / 256
  /\ 0 <= crc mod 256 < 256 /\ 0 <= crc / 256 < 256.
Proof.
  intros Hc. change 0xFF with (Z.ones 8).
  rewrite !Z.land_ones, Z.shiftr_div_pow2 by lia.
  change (2 ^ 8) with 256.
  assert (0 <= crc / 256 < 256)
    by (split; [apply Z.div_pos|apply Z.div_lt_upper_bound]; lia).
  rewrite (Z.mod_small (crc / 256)) by lia.
  repeat split; try lia; apply Z.mod_pos_bound; lia.
Qed.

End CalibrationFacts.


(** ** Smart recovery *)

Module RecoveryFacts.
Import SerialMonitor Recovery.

(** Once the saved port information is cleared, ticks do nothing. *)
Lemma stopped_tick (s : recovery) (now : Z) (ports : list string) :
  lost_port_info s = None ->
  check_port_recovery s now ports = (stop_recovery_check s, []).
Proof. intros H. unfold check_port_recovery. now rewrite H. Qed.

Lemma stopped_run (s : recovery) (ticks : list (Z * list string)) :
  lost_port_info s = None ->
  snd (run_ticks s ticks) = []
  /\ lost_port_info (fst (run_ticks s ticks)) = None.
Proof.
  revert s. induction ticks as [|[now ports] ticks IH]; intros s Hs.
  - now split.
  - cbn [run_ticks]. rewrite stopped_tick by assumption.
    specialize (IH (stop_recovery_check s) eq_refl).
    destruct (run_ticks (stop_recovery_check s) ticks) as [s' more].
    exact IH.
Qed.

(** A tick acts at most once, and when it acts it is the reconnect of a
    device seen present for a second, after which recovery is stopped. *)
Lemma tick_cases (s : recovery) (now : Z) (ports : list string) :
  let '(s', acts) := check_port_recovery s now ports in
  acts = []
  \/ exists info start t0,
       lost_port_info s = Some info
       /\ recovery_start_time s = Some start
       /\ now - start <= 10000000
       /\ present info (now, ports) = true
       /\ last_port_state s = true
       /\ port_stable_time s = Some t0
       /\ 1000000 <= now - t0
       /\ acts = [OpenSerial info (lost_port_config s)]
       /\ s' = stop_recovery_check s.
Proof.
  unfold check_port_recovery, present. cbn [snd].
  destruct (lost_port_info s) as [info|] eqn:Hi; [|cbv iota; now left].
  destruct (recovery_start_time s) as [start|] eqn:Hst; [|cbv iota; now left].
  destruct (Z.gtb_spec (now - start) 10000000); [cbv iota; now left|].
  destruct (existsb (String.eqb (port info)) ports) eqn:Hp.
  - destruct (last_port_state s) eqn:Hl; cbn [negb]; [|cbv iota; now left].
    destruct (port_stable_time s) as [t0|] eqn:Ht; [|cbv iota; now left].
    destruct (Z.geb_spec (now - t0) 1000000); [|cbv iota; now left].
    unfold recover_connection. rewrite Hi.
    cbv iota. right. exists info, start, t0.
    repeat split; try reflexivity; try assumption; lia.
  - destruct (last_port_state s); cbv iota; now left.
Qed.

Lemma at_most_one_action (s : recovery) (ticks : list (Z * list string)) :
  (List.length (snd (run_ticks s ticks)) <= 1)%nat.
Proof.
  revert s. induction ticks as [|[now ports] ticks IH]; intros s.
  - simpl. lia.
  - cbn [run_ticks].
    pose proof (tick_cases s now ports) as Hc.
    destruct (check_port_recovery s now ports) as [s1 acts].
    destruct Hc as [->|(info & start & t0 & _ & _ & _ & _ & _ & _ & _ & -> & ->)].
    + specialize (IH s1). destruct (run_ticks s1 ticks) as [s2 more].
      exact IH.
    + destruct (stopped_run (stop_recovery_check s) ticks eq_refl)
        as [Hnone _].
      destruct (run_ticks (stop_recovery_check s) ticks) as [s2 more].
      cbn [snd] in *. subst more. simpl. lia.
Qed.

Lemma remembers_tick (info : port_info) (trace : list (Z * list string))
  (s : recovery) (now : Z) (ports : list string) :
  remembers info trace s ->
  remembers info (trace ++ [(now, ports)])
            (fst (check_port_recovery s now ports)).
Proof.
  intros [Hinfo Hmem].
  assert (Hstop : remembers info (trace ++ [(now, ports)])
                            (stop_recovery_check s)).
  { split; [now left|]. cbn. discriminate. }
  unfold check_port_recovery.
  destruct (lost_port_info s) as [info'|] eqn:Hi; [|exact Hstop].
  destruct Hinfo as [Hinfo|Hinfo]; [discriminate|].
  injection Hinfo as ->.
  destruct (recovery_start_time s) as [start|]; [|exact Hstop].
  destruct (now - start >? 10000000); [exact Hstop|].
  destruct (existsb (String.eqb (port info)) ports) eqn:Hp.
  - destruct (last_port_state s) eqn:Hl; cbn [negb].
    + assert (Hkeep : remembers info (trace ++ [(now, ports)]) s).
      { split; [right; exact Hi|].
        intros _ t0 Ht0.
        destruct (Hmem eq_refl t0 Ht0) as (before & ports0 & since & -> & Hall).
        exists before, ports0, (since ++ [(now, ports)]).
        split; [now rewrite <- app_assoc|].
        rewrite app_comm_cons. apply Forall_app. split; [exact Hall|].
        constructor; [exact Hp|constructor]. }
      destruct (port_stable_time s) as [t0|]; [|exact Hkeep].
      destruct (now - t0 >=? 1000000); [|exact Hkeep].
      unfold recover_connection. rewrite Hi. exact Hstop.
    + split; [right; exact Hi|].
      cbn. intros _ t0 [= <-].
      exists trace, ports, []. split; [reflexivity|].
      constructor; [exact Hp|constructor].
  - destruct (last_port_state s); (split; [right; exact Hi|cbn; discriminate]).
Qed.

Lemma remembers_run (info : port_info) (ticks trace : list (Z * list string))
  (s : recovery) :
  remembers info trace s ->
  remembers info (trace ++ ticks) (fst (run_ticks s ticks)).
Proof.
  revert trace s. induction ticks as [|[now ports] ticks IH]; intros trace s H.
  - now rewrite app_nil_r.
  - cbn [run_ticks].
    pose proof (remembers_tick info trace s now ports H) as H1.
    destruct (check_port_recovery s now ports) as [s1 acts].
    cbn [fst] in H1.
    specialize (IH _ _ H1). rewrite <- app_assoc in IH.
    revert IH. destruct (run_ticks s1 ticks) as [s2 more].
    intros IH. exact IH.
Qed.

(** An action during a run stops recovery for the rest of it. *)
Lemma run_acted_stopped (s : recovery) (ticks : list (Z * list string)) :
  snd (run_ticks s ticks) <> [] ->
  lost_port_info (fst (run_ticks s ticks)) = None.
Proof.
  revert s. induction ticks as [|[now ports] ticks IH]; intros s;
    [simpl; congruence|].
  cbn [run_ticks].
  pose proof (tick_cases s now ports) as Hc.
  destruct (check_port_recovery s now ports) as [s1 acts].
  destruct Hc as [->|(info & start & t0 & _ & _ & _ & _ & _ & _ & _ & -> & ->)].
  - specialize (IH s1). destruct (run_ticks s1 ticks) as [s2 more].
    exact IH.
  - intros _.
    destruct (stopped_run (stop_recovery_check s) ticks eq_refl) as [_ Hn].
    destruct (run_ticks (stop_recovery_check s) ticks) as [s2 more].
    exact Hn.
Qed.

(** While the snapshot is kept, the start of the window is kept. *)
Lemma tick_keeps_start (s : recovery) (now : Z) (ports : list string)
  (i : port_info) :
  lost_port_info (fst (check_port_recovery s now ports)) = Some i ->
  recovery_start_time (fst (check_port_recovery s now ports))
  = recovery_start_time s.
Proof.
  unfold check_port_recovery, recover_connection.
  repeat match goal with
         | |- context [match ?x with _ => _ end] => destruct x eqn:?
         end; cbn; intros H; try discriminate H; congruence.
Qed.

Lemma run_keeps_start (s : recovery) (ticks : list (Z * list string))
  (start : Z) (i : port_info) :
  recovery_start_time s = Some start ->
  lost_port_info (fst (run_ticks s ticks)) = Some i ->
  recovery_start_time (fst (run_ticks s ticks)) = Some start.
Proof.
  revert s. induction ticks as [|[now ports] ticks IH]; intros s Hs Hi;
    [exact Hs|].
  cbn [run_ticks] in *.
  pose proof (tick_keeps_start s now ports) as Hk.
  destruct (check_port_recovery s now ports) as [s1 acts].
  cbn [fst] in Hk.
  destruct (lost_port_info s1) as [i1|] eqn:Hi1.
  - specialize (IH s1). rewrite (Hk i1 eq_refl) in IH.
    specialize (IH Hs). revert IH Hi.
    destruct (run_ticks s1 ticks) as [s2 more]. cbn [fst]. auto.
  - destruct (stopped_run s1 ticks Hi1) as [_ Hn]. revert Hn Hi.
    destruct (run_ticks s1 ticks) as [s2 more]. cbn [fst]. congruence.
Qed.

(** A device that is marked present since [t0] and stays enumerated is
    reconnected at the first tick at least a second after [t0]. *)
Lemma stable_run_reconnects (ticks : list (Z * list string)) (s : recovery)
  (info : port_info) (start t0 : Z) :
  lost_port_info s = Some info ->
  recovery_start_time s = Some start ->
  last_port_state s = true ->
  port_stable_time s = Some t0 ->
  Forall (fun tick => present info tick = true
                      /\ fst tick - start <= 10000000) ticks ->
  Exists (fun tick => 1000000 <= fst tick - t0) ticks ->
  snd (run_ticks s ticks) = [OpenSerial info (lost_port_config s)].
Proof.
  intros Hi Hst Hl Ht Hall Hex.
  induction ticks as [|[now ports] ticks IH]; [inversion Hex|].
  inversion Hall as [|? ? [Hp Hw] Hrest]; subst. cbn [fst snd] in *.
  cbn [run_ticks]. unfold check_port_recovery, present in *.
  cbn [snd] in Hp. rewrite Hi, Hst, Hp, Hl, Ht. cbn [negb].
  destruct (Z.gtb_spec (now - start) 10000000); [lia|].
  destruct (Z.geb_spec (now - t0) 1000000) as [Hge|Hlt].
  - unfold recover_connection. rewrite Hi.
    destruct (stopped_run (stop_recovery_check s) ticks eq_refl) as [Hn _].
    destruct (run_ticks (stop_recovery_check s) ticks) as [s2 more].
    cbn [snd] in *. now subst more.
  - assert (Hex' : Exists (fun tick => 1000000 <= fst tick - t0) ticks).
    { inversion Hex as [? ? Hnow|]; subst; [cbn [fst] in Hnow; lia|assumption]. }
    specialize (IH Hrest Hex').
    destruct (run_ticks s ticks) as [s2 more]. exact IH.
Qed.

End RecoveryFacts.

(** C8. Let recovery be probing for the device of [info] since [start], the
    device not yet seen ([last_port_state] false).  Over any run of probe
    ticks at most one reconnect attempt is made.  If the tick after the run
    [earlier] makes the attempt, then no attempt was made before, the tick is
    within 10 s of [start], and the device was enumerated at every tick since
    the one whose clock reading [t0] is at least 1 s back; the attempt clears
    the saved snapshot and the probe timer.  A tick within the window at
    which the device is absent makes no attempt, clears the stabilisation
    instant and leaves the start of the window, the timer and the snapshot as
    they are.  A tick more than 10 s after [start] makes no attempt, cancels
    the timer and clears the snapshot, and no later tick makes an
    attempt. *)
Theorem recovery_debounce_and_timeout
  (s : SerialMonitor.recovery) (info : SerialMonitor.port_info) (start : Z)
  (earlier later : list (Z * list string)) (now : Z) (ports : list string) :
  SerialMonitor.lost_port_info s = Some info ->
  SerialMonitor.recovery_start_time s = Some start ->
  SerialMonitor.last_port_state s = false ->
  let '(s1, before) := SerialMonitor.run_ticks s earlier in
  let '(s2, acts) := SerialMonitor.check_port_recovery s1 now ports in
  (List.length
     (snd (SerialMonitor.run_ticks s (earlier ++ (now, ports) :: later)))
   <= 1)%nat
  /\ (acts <> [] ->
      before = []
      /\ acts = [SerialMonitor.OpenSerial info (SerialMonitor.lost_port_config s1)]
      /\ now - start <= 10000000
      /\ (exists t0,
            1000000 <= now - t0
            /\ Recovery.stable_since info (earlier ++ [(now, ports)]) t0)
      /\ s2 = SerialMonitor.stop_recovery_check s1
      /\ snd (SerialMonitor.run_ticks s2 later) = [])
  /\ (SerialMonitor.lost_port_info s1 = Some info ->
      Recovery.present info (now, ports) = false ->
      now - start <= 10000000 ->
      acts = []
      /\ SerialMonitor.port_stable_time s2
         = (if SerialMonitor.last_port_state s1 then None
            else SerialMonitor.port_stable_time s1)
      /\ SerialMonitor.last_port_state s2 = false
      /\ SerialMonitor.recovery_start_time s2 = Some start
      /\ SerialMonitor.recovery_check_timer s2
         = SerialMonitor.recovery_check_timer s1
      /\ SerialMonitor.lost_port_info s2 = Some info
      /\ SerialMonitor.lost_port_config s2 = SerialMonitor.lost_port_config s1)
  /\ (SerialMonitor.lost_port_info s1 = Some info ->
      now - start > 10000000 ->
      acts = []
      /\ SerialMonitor.recovery_check_timer s2 = None
      /\ SerialMonitor.lost_port_info s2 = None
      /\ SerialMonitor.lost_port_config s2 = None
      /\ snd (SerialMonitor.run_ticks s2 later) = [])
  /\ (forall t0 ports0 rest,
        Recovery.present info (t0, ports0) = true ->
        t0 - start <= 10000000 ->
        Forall (fun tick => Recovery.present info tick = true
                            /\ fst tick - start <= 10000000) rest ->
        Exists (fun tick => 1000000 <= fst tick - t0) rest ->
        snd (SerialMonitor.run_ticks s ((t0, ports0) :: rest))
        = [SerialMonitor.OpenSerial info (SerialMonitor.lost_port_config s)]).
Proof.
  intros Hinfo Hstart Hlast.
  assert (Hpositive : forall t0 ports0 rest,
        Recovery.present info (t0, ports0) = true ->
        t0 - start <= 10000000 ->
        Forall (fun tick => Recovery.present info tick = true
                            /\ fst tick - start <= 10000000) rest ->
        Exists (fun tick => 1000000 <= fst tick - t0) rest ->
        snd (SerialMonitor.run_ticks s ((t0, ports0) :: rest))
        = [SerialMonitor.OpenSerial info (SerialMonitor.lost_port_config s)]).
  { intros t0 ports0 rest Hp Hw Hall Hex.
    cbn [SerialMonitor.run_ticks].
    unfold SerialMonitor.check_port_recovery, Recovery.present in *.
    cbn [snd] in Hp. rewrite Hinfo, Hstart, Hp, Hlast. cbn [negb].
    destruct (Z.gtb_spec (t0 - start) 10000000); [lia|].
    pose proof (RecoveryFacts.stable_run_reconnects rest
                  (SerialMonitor.set_stable s (Some t0) true) info start t0
                  Hinfo Hstart eq_refl eq_refl Hall Hex) as Hrun.
    destruct (SerialMonitor.run_ticks
                (SerialMonitor.set_stable s (Some t0) true) rest)
      as [s2 more].
    exact Hrun. }
  pose proof (RecoveryFacts.at_most_one_action s
                (earlier ++ (now, ports) :: later)) as Honce.
  assert (Hinit : Recovery.remembers info [] s).
  { split; [now right|]. rewrite Hlast. discriminate. }
  pose proof (RecoveryFacts.remembers_run info earlier [] s Hinit) as Hrun.
  pose proof (RecoveryFacts.run_acted_stopped s earlier) as Hacted.
  pose proof (fun i => RecoveryFacts.run_keeps_start s earlier start i Hstart)
    as Hstart1.
  destruct (SerialMonitor.run_ticks s earlier) as [s1 before].
  cbn [fst snd] in *. rewrite app_nil_l in Hrun.
  pose proof (RecoveryFacts.tick_cases s1 now ports) as Hc.
  pose proof (RecoveryFacts.remembers_tick info earlier s1 now ports Hrun)
    as Hafter.
  destruct (SerialMonitor.check_port_recovery s1 now ports) as [s2 acts] eqn:Hck.
  split; [exact Honce|]. split; [|split; [|split; [|exact Hpositive]]].
  - intros Hacts.
    destruct Hc as [->|(i & st & t0 & Hi & Hst & Hwin & Hp & Hl & Ht & Hsec
                        & -> & ->)]; [congruence|].
    assert (Hb : before = []).
    { destruct before; [reflexivity|].
      rewrite Hacted in Hi by discriminate. discriminate. }
    destruct Hrun as [[Hn|Hsame] Hmem]; [congruence|].
    assert (i = info) as -> by congruence.
    rewrite (Hstart1 info Hi) in Hst. injection Hst as <-.
    repeat split; try assumption; try reflexivity.
    + exists t0. split; [exact Hsec|].
      destruct (Hmem Hl t0 Ht) as (bf & p0 & since & -> & Hall).
      exists bf, p0, (since ++ [(now, ports)]).
      split; [now rewrite <- app_assoc|].
      rewrite app_comm_cons. apply Forall_app. split; [exact Hall|].
      constructor; [exact Hp|constructor].
    + apply RecoveryFacts.stopped_run. reflexivity.
  - intros Hi Habs Hwin.
    unfold SerialMonitor.check_port_recovery in Hck.
    rewrite Hi, (Hstart1 info Hi) in Hck.
    destruct (Z.gtb_spec (now - start) 10000000); [lia|].
    unfold Recovery.present in Habs. cbn [snd] in Habs. rewrite Habs in Hck.
    destruct (SerialMonitor.last_port_state s1);
      injection Hck as <- <-; cbn; repeat split;
      try reflexivity; try assumption; now apply Hstart1 with info.
  - intros Hi Hlate.
    unfold SerialMonitor.check_port_recovery in Hck.
    rewrite Hi, (Hstart1 info Hi) in Hck.
    destruct (Z.gtb_spec (now - start) 10000000); [|lia].
    injection Hck as <- <-. repeat split.
    apply RecoveryFacts.stopped_run. reflexivity.
Qed.

(** ** The theorems at concrete inputs *)

(** C1, witness: A8 01 F6 84 under CRC16-XMODEM in four chunks, one of them
    empty, and a frame of the built-in protocol in four chunks. *)
Lemma chunking_invariance_witness :
  Frames.feed_all (GenericProtocolParser.init Examples.xmodem_cfg)
    Examples.xmodem_chunks
  = Frames.feed (GenericProtocolParser.init Examples.xmodem_cfg)
      Examples.xmodem_frame
  /\ exists r,
       DataParser.raw_frame r = Examples.default_frame
       /\ Frames.feed_all_default DataParser.init Examples.default_chunks
          = Some (DataParser.init, [r])
       /\ Frames.feed_default DataParser.init Examples.default_frame
          = Some (DataParser.init, [r]).
Proof.
  destruct (chunking_invariance Examples.xmodem_cfg Examples.xmodem_frame
              Examples.xmodem_chunks Examples.default_frame
              Examples.default_chunks)
    as [[Hchunks Hwhole] (r & _ & Hraw & Hdc & Hdw)].
  - reflexivity.
  - simpl. lia.
  - simpl. lia.
  - repeat split; reflexivity.
  - reflexivity.
  - repeat split; reflexivity.
  - reflexivity.
  - split; [now rewrite Hchunks, Hwhole|].
    exists r. repeat split; assumption.
Defined.




(** C5, witness: a monitor whose only protocol with the header A8 A8 is
    disabled; the built-in parser and the enabled custom parser are both
    fed. *)
Lemma dispatcher_conflict_rule_witness :
  exists s' out,
    SerialMonitor.on_data_received Examples.monitor Examples.xmodem_frame
    = Some (s', out)
    /\ Frames.feed_default (SerialMonitor.parser Examples.monitor)
         Examples.xmodem_frame
       = Some (SerialMonitor.parser s', Dispatch.default_frames out)
    /\ Dispatch.fed_each Examples.xmodem_frame
         (SerialMonitor.protocol_parsers Examples.monitor)
         (SerialMonitor.protocol_parsers s') (Dispatch.custom_frames out).
Proof.
  destruct (dispatcher_conflict_rule Examples.monitor Examples.xmodem_frame)
    as [_ (s' & out & Hrun & Hfree & _ & Hfed)].
  - simpl. apply Forall_cons; [simpl; lia|apply Forall_nil].
  - exists s', out. split; [exact Hrun|]. split; [|exact Hfed].
    apply Hfree. unfold Dispatch.conflict. simpl.
    intros H. inversion H as [? ? [He _]|? ? H1]; subst; [discriminate He|].
    inversion H1 as [? ? [_ Hh]|? ? H2]; subst; [discriminate Hh|].
    inversion H2.
Defined.

(** C8, witness: COM3 reappears 0.2 s into probing, is still there at 0.7 s
    and at 1.2 s, where the reconnect is attempted; the tick at 1.3 s does
    nothing. *)
Lemma recovery_debounce_and_timeout_witness :
  Nat.le
    (List.length
       (snd (SerialMonitor.run_ticks Examples.probing
               (Examples.ticks_before ++ (1200000, ["COM3"%string])
                :: Examples.ticks_after)))) 1
  /\ exists t0,
       1000000 <= 1200000 - t0
       /\ Recovery.stable_since Examples.com3
            (Examples.ticks_before ++ [(1200000, ["COM3"%string])]) t0.
Proof.
  pose proof (recovery_debounce_and_timeout Examples.probing Examples.com3 0
                Examples.ticks_before Examples.ticks_after
                1200000 ["COM3"%string] eq_refl eq_refl eq_refl) as H.
  assert (Hrun : SerialMonitor.run_ticks Examples.probing Examples.ticks_before
                 = (SerialMonitor.set_stable Examples.probing (Some 200000) true,
                    []))
    by (vm_compute; reflexivity).
  rewrite Hrun in H. cbv beta iota in H.
  assert (Htick : SerialMonitor.check_port_recovery
                    (SerialMonitor.set_stable Examples.probing (Some 200000) true)
                    1200000 ["COM3"%string]
                  = (SerialMonitor.stop_recovery_check Examples.probing,
                     [SerialMonitor.OpenSerial Examples.com3
                        (Some [(0%nat, 1%Q)])]))
    by (vm_compute; reflexivity).
  rewrite Htick in H. cbv beta iota in H.
  destruct H as (Honce & Hact & _).
  split; [exact Honce|].
  destruct Hact as (_ & _ & _ & Hstable & _); [discriminate|].
  exact Hstable.
Defined.


(** * Further properties *)

(** ** Ranges of the checksums *)

Module ChecksumRange.

Lemma below_pow2_iff (x n : Z) :
  0 <= n -> (0 <= x < 2 ^ n <-> Z.land x (Z.ones n) = x).
Proof.
  intros Hn. rewrite Z.land_ones by assumption. split.
  - intros Hx. now apply Z.mod_small.
  - intros <-. apply Z.mod_pos_bound. now apply Z.pow_pos_nonneg.
Qed.

Lemma lxor_below_pow2 (a b n : Z) :
  0 <= n -> 0 <= a < 2 ^ n -> 0 <= b < 2 ^ n -> 0 <= Z.lxor a b < 2 ^ n.
Proof.
  intros Hn Ha Hb.
  apply below_pow2_iff in Ha; [|assumption].
  apply below_pow2_iff in Hb; [|assumption].
  apply below_pow2_iff; [assumption|].
  apply Z.bits_inj'. intros i Hi.
  rewrite Z.land_spec, !Z.lxor_spec.
  rewrite <- Ha at 2. rewrite <- Hb at 2. rewrite !Z.land_spec.
  destruct (Z.testbit a i), (Z.testbit b i), (Z.testbit (Z.ones n) i);
    reflexivity.
Qed.

Lemma lor_below_pow2 (a b n : Z) :
  0 <= n -> 0 <= a < 2 ^ n -> 0 <= b < 2 ^ n -> 0 <= Z.lor a b < 2 ^ n.
Proof.
  intros Hn Ha Hb.
  apply below_pow2_iff in Ha; [|assumption].
  apply below_pow2_iff in Hb; [|assumption].
  apply below_pow2_iff; [assumption|].
  apply Z.bits_inj'. intros i Hi.
  rewrite Z.land_spec, !Z.lor_spec.
  rewrite <- Ha at 2. rewrite <- Hb at 2. rewrite !Z.land_spec.
  destruct (Z.testbit a i), (Z.testbit b i), (Z.testbit (Z.ones n) i);
    reflexivity.
Qed.

Lemma fold_left_invariant {A B} (P : A -> Prop) (Q : B -> Prop)
  (f : A -> B -> A) (l : list B) (a : A) :
  (forall x y, P x -> Q y -> P (f x y)) -> P a -> Forall Q l ->
  P (fold_left f l a).
Proof.
  intros Hf. revert a. induction l as [|b l IH]; intros a Ha Hl; [exact Ha|].
  inversion Hl; subst. cbn [fold_left]. apply IH; auto.
Qed.

Lemma iter_invariant {A} (P : A -> Prop) (f : A -> A) (n : nat) (a : A) :
  (forall x, P x -> P (f x)) -> P a -> P (Nat.iter n f a).
Proof.
  intros Hf Ha. induction n as [|n IH]; [exact Ha|].
  cbn [Nat.iter]. apply Hf. exact IH.
Qed.

Lemma ccitt_range (data : bytes) :
  0 <= CRCCalculator.calculate_ccitt_crc16 data < 65536.
Proof.
  unfold CRCCalculator.calculate_ccitt_crc16.
  apply (fold_left_invariant (fun crc => 0 <= crc < 65536) (fun _ => True));
    [|lia|now apply Forall_forall].
  intros crc b _ _. cbn [Nat.iter]. apply CalibrationFacts.mask16_range.
Qed.

Lemma modbus_range (data : bytes) :
  is_bytes data -> 0 <= CRCCalculator.calculate_modbus_crc16 data < 65536.
Proof.
  intros Hd. unfold CRCCalculator.calculate_modbus_crc16.
  apply (fold_left_invariant (fun crc => 0 <= crc < 65536) is_byte);
    [|lia|exact Hd].
  intros crc b Hc Hb. unfold is_byte in Hb.
  apply iter_invariant.
  - intros x Hx.
    assert (Hs : 0 <= Z.shiftr x 1 < 2 ^ 16).
    { rewrite Z.shiftr_div_pow2 by lia. change (2 ^ 1) with 2.
      change (2 ^ 16) with 65536.
      split; [apply Z.div_pos; lia|apply Z.div_lt_upper_bound; lia]. }
    destruct (negb (Z.land x 1 =? 0)).
    + apply (lxor_below_pow2 _ _ 16); [lia|exact Hs|]. cbv. split; congruence.
    + exact Hs.
  - apply (lxor_below_pow2 _ _ 16); [lia|exact Hc|].
    change (2 ^ 16) with 65536. lia.
Qed.

Lemma sum_range (data : bytes) :
  0 <= CRCCalculator.calculate_sum_check data < 256.
Proof.
  unfold CRCCalculator.calculate_sum_check.
  change 0xFF with (Z.ones 8). rewrite Z.land_ones by lia.
  apply Z.mod_pos_bound. lia.
Qed.

Lemma xor_range (data : bytes) :
  is_bytes data -> 0 <= CRCCalculator.calculate_xor_check data < 256.
Proof.
  intros Hd. unfold CRCCalculator.calculate_xor_check.
  apply (fold_left_invariant (fun r => 0 <= r < 256) is_byte);
    [|lia|exact Hd].
  intros r b Hr Hb. apply (lxor_below_pow2 _ _ 8); [lia|exact Hr|exact Hb].
Qed.

End ChecksumRange.

(** ** What the send path appends, the receive path accepts *)

Module SendReceive.
Import GenericProtocolParser.

Lemma append2 (data : bytes) (b1 b2 : Z) :
  0 <= b1 < 256 -> 0 <= b2 < 256 ->
  SerialMonitor.and_then (SerialMonitor.append data b1)
    (fun data => SerialMonitor.append data b2)
  = Some (data ++ [b1; b2]).
Proof.
  intros H1 H2. rewrite CalibrationFacts.append_byte by assumption.
  cbn [SerialMonitor.and_then].
  rewrite CalibrationFacts.append_byte by assumption.
  now rewrite <- app_assoc.
Qed.

(** Acceptance of a two-byte trailer, read low byte first or high byte
    first. *)
Lemma verify_trailer2 (cfg : protocol_config) (data : bytes) (b1 b2 : Z) :
  data <> [] ->
  match crc_type cfg with
  | CRC16_CCITT =>
      CRCCalculator.calculate_ccitt_crc16 data = 256 * b1 + b2
  | CRC16_XMODEM =>
      CRCCalculator.calculate_crc16_xmodem data = b1 + 256 * b2
  | CRC16_MODBUS =>
      CRCCalculator.calculate_modbus_crc16 data = b1 + 256 * b2
  | _ => False
  end ->
  _verify_crc cfg (data ++ [b1; b2]) = true.
Proof.
  intros Hd. unfold _verify_crc.
  destruct (VerifyCrc.last2 data b1 b2) as [Hfrom Hto].
  destruct (crc_type cfg); try contradiction; intros Hcrc;
    rewrite VerifyCrc.long_enough by (assumption || reflexivity);
    rewrite Hfrom, Hto;
    unfold Struct.unpack_uint, Struct.unsigned_value;
    cbn [List.length Nat.eqb rev app Struct.le_value];
    apply Z.eqb_eq; lia.
Qed.

Lemma verify_trailer1 (cfg : protocol_config) (data : bytes) (b : Z) :
  data <> [] ->
  match crc_type cfg with
  | SumCheck => CRCCalculator.calculate_sum_check data = b
  | XorCheck => CRCCalculator.calculate_xor_check data = b
  | _ => False
  end ->
  _verify_crc cfg (data ++ [b]) = true.
Proof.
  intros Hd. unfold _verify_crc.
  destruct (VerifyCrc.last1 data b) as [Hget Hto].
  destruct (crc_type cfg); try contradiction; intros Hcrc;
    rewrite VerifyCrc.long_enough by (assumption || reflexivity);
    rewrite Hget, Hto; apply Z.eqb_eq; congruence.
Qed.

Lemma split16 (crc : Z) :
  0 <= crc < 65536 -> crc = crc mod 256 + 256 * (crc / 256).
Proof. intros _. rewrite Z.add_comm. apply Z.div_mod. lia. Qed.

End SendReceive.

(** X1. For non-empty byte data and every checksum of the send box,
    [add_crc_to_data] does not raise, appends two bytes (the CRC16 kinds), one
    byte (sum, XOR) or nothing (none), each a byte, and the result passes
    [_verify_crc] of a protocol configured with the same checksum kind. *)
Theorem send_checksum_accepted
  (cfg : GenericProtocolParser.protocol_config) (data : bytes)
  (k : SerialMonitorApp.send_crc) :
  is_bytes data -> data <> [] ->
  GenericProtocolParser.crc_type cfg = More.receive_kind k ->
  exists trailer,
    SerialMonitorApp.add_crc_to_data data k = Some (data ++ trailer)
    /\ List.length trailer = More.trailer_size k
    /\ is_bytes trailer
    /\ GenericProtocolParser._verify_crc cfg (data ++ trailer) = true.
Proof.
  intros Hb Hne Hk.
  pose proof (ChecksumRange.ccitt_range data) as Hcc.
  pose proof (CalibrationFacts.xmodem_range data) as Hxm.
  pose proof (ChecksumRange.modbus_range data Hb) as Hmb.
  pose proof (ChecksumRange.sum_range data) as Hsum.
  pose proof (ChecksumRange.xor_range data Hb) as Hxor.
  destruct k; cbn [More.receive_kind] in Hk;
    unfold SerialMonitorApp.add_crc_to_data.
  - exists []. rewrite app_nil_r. repeat split; [constructor|].
    unfold GenericProtocolParser._verify_crc. now rewrite Hk.
  - destruct (CalibrationFacts.low_high_bytes _ Hcc) as (-> & -> & Hl & Hh).
    eexists. rewrite SendReceive.append2 by assumption.
    split; [reflexivity|]. split; [reflexivity|].
    split; [repeat (apply Forall_cons; [assumption|]); apply Forall_nil|].
    apply SendReceive.verify_trailer2; [assumption|]. rewrite Hk.
    pose proof (SendReceive.split16 _ Hcc). lia.
  - destruct (CalibrationFacts.low_high_bytes _ Hmb) as (-> & -> & Hl & Hh).
    eexists. rewrite SendReceive.append2 by assumption.
    split; [reflexivity|]. split; [reflexivity|].
    split; [repeat (apply Forall_cons; [assumption|]); apply Forall_nil|].
    apply SendReceive.verify_trailer2; [assumption|]. rewrite Hk.
    apply SendReceive.split16. assumption.
  - destruct (CalibrationFacts.low_high_bytes _ Hxm) as (-> & -> & Hl & Hh).
    eexists. rewrite SendReceive.append2 by assumption.
    split; [reflexivity|]. split; [reflexivity|].
    split; [repeat (apply Forall_cons; [assumption|]); apply Forall_nil|].
    apply SendReceive.verify_trailer2; [assumption|]. rewrite Hk.
    apply SendReceive.split16. assumption.
  - eexists. rewrite CalibrationFacts.append_byte by assumption.
    split; [reflexivity|]. split; [reflexivity|].
    split; [apply Forall_cons; [assumption|apply Forall_nil]|].
    apply SendReceive.verify_trailer1; [assumption|]. now rewrite Hk.
  - eexists. rewrite CalibrationFacts.append_byte by assumption.
    split; [reflexivity|]. split; [reflexivity|].
    split; [apply Forall_cons; [assumption|apply Forall_nil]|].
    apply SendReceive.verify_trailer1; [assumption|]. now rewrite Hk.
  - exists []. rewrite app_nil_r. repeat split; [constructor|].
    unfold GenericProtocolParser._verify_crc. now rewrite Hk.
Qed.

(** ** Time calibration, continued *)

Module CalibrationMore.
Import SerialMonitor Calibration.

(** The command written for a reading of the clock. *)
Lemma command (now : datetime) :
  valid_datetime now ->
  let body := command_prefix ++ map bcd (time_fields now) in
  let crc := CRCCalculator.calculate_crc16_xmodem body in
  calibrate_time true now = Some (body ++ [crc mod 256; crc / 256]).
Proof.
  intros (Hy & Hmo & Hd & Hh & Hmi & Hs) body crc.
  assert (Hyy : 0 <= year now mod 100 < 100) by (apply Z.mod_pos_bound; lia).
  destruct (CalibrationFacts.low_high_bytes crc
              (CalibrationFacts.xmodem_range body)) as (Hlo & Hhi & Hrl & Hrh).
  unfold calibrate_time. cbn [negb].
  do 6 (rewrite CalibrationFacts.append_bcd by lia; cbn [and_then]).
  cbn [app]. fold command_prefix.
  change (0x06 :: 0x00 :: 0x10 :: 0x24 :: 0x08
          :: bcd (year now mod 100) :: bcd (month now) :: bcd (day now)
          :: bcd (hour now) :: bcd (minute now) :: [bcd (second now)])
    with body.
  fold crc. rewrite Hlo, Hhi.
  clearbody crc. clearbody body.
  rewrite CalibrationFacts.append_byte by lia. cbn [and_then].
  rewrite CalibrationFacts.append_byte by lia. cbn [and_then].
  now rewrite <- app_assoc.
Qed.

Lemma pack_nibbles (hi lo : Z) :
  0 <= hi < 16 -> 0 <= lo < 16 -> Z.lor (Z.shiftl hi 4) lo = 16 * hi + lo.
Proof.
  intros Hhi Hlo.
  assert (Hall : forallb More.nibbles_pack (seq 0 256) = true)
    by (vm_compute; reflexivity).
  rewrite forallb_forall in Hall.
  specialize (Hall (Z.to_nat (16 * hi + lo))).
  unfold More.nibbles_pack in Hall.
  replace (Z.of_nat (Z.to_nat (16 * hi + lo) / 16)) with hi in Hall.
  - replace (Z.of_nat (Z.to_nat (16 * hi + lo) mod 16)) with lo in Hall.
    + apply Z.eqb_eq, Hall, in_seq. lia.
    + rewrite Nat2Z.inj_mod, Z2Nat.id by lia.
      change (Z.of_nat 16) with 16.
      rewrite Z.add_comm, Z.mul_comm, Z.mod_add by lia.
      symmetry. apply Z.mod_small. lia.
  - rewrite Nat2Z.inj_div, Z2Nat.id by lia.
    change (Z.of_nat 16) with 16.
    rewrite Z.add_comm, Z.mul_comm, Z.div_add by lia.
    rewrite Z.div_small by lia. reflexivity.
Qed.

Lemma land15 (x : Z) : Z.land x 0x0F = x mod 16.
Proof. change 0x0F with (Z.ones 4). now rewrite Z.land_ones by lia. Qed.

(** [decimal_to_bcd] in closed form, for every integer. *)
Lemma decimal_to_bcd_closed (v : Z) :
  decimal_to_bcd v = 16 * ((v / 10) mod 16) + v mod 10.
Proof.
  unfold decimal_to_bcd. rewrite !land15.
  assert (H10 : 0 <= v mod 10 < 10) by (apply Z.mod_pos_bound; lia).
  assert (H16 : 0 <= (v / 10) mod 16 < 16) by (apply Z.mod_pos_bound; lia).
  rewrite (Z.mod_small (v mod 10)) by lia.
  apply pack_nibbles; lia.
Qed.

End CalibrationMore.

(** X2. The time-calibration command passes the CRC16-XMODEM check of
    [_verify_crc]: a protocol configured with CRC16-XMODEM accepts, byte for
    byte, what [calibrate_time] writes. *)
Theorem calibration_command_verifies
  (cfg : GenericProtocolParser.protocol_config) (now : SerialMonitor.datetime) :
  Calibration.valid_datetime now ->
  GenericProtocolParser.crc_type cfg = GenericProtocolParser.CRC16_XMODEM ->
  exists command,
    SerialMonitor.calibrate_time true now = Some command
    /\ List.length command = 13%nat
    /\ GenericProtocolParser._verify_crc cfg command = true.
Proof.
  intros Hv Hk. pose proof (CalibrationMore.command now Hv) as Hc.
  cbv zeta in Hc. eexists. split; [exact Hc|]. split; [reflexivity|].
  apply SendReceive.verify_trailer2.
  - unfold Calibration.command_prefix. discriminate.
  - rewrite Hk. apply SendReceive.split16. apply CalibrationFacts.xmodem_range.
Qed.

(** X3. For every integer, [decimal_to_bcd] is
    [16 * ((v div 10) mod 16) + v mod 10]: always a byte, so appending it
    never raises; for 0 <= v < 160 its two nibbles read back as
    [10 * high + low = v] (two decimal digits below 100); and it repeats with
    period 160. *)
Theorem decimal_to_bcd_nibbles (v : Z) :
  SerialMonitor.decimal_to_bcd v = 16 * ((v / 10) mod 16) + v mod 10
  /\ 0 <= SerialMonitor.decimal_to_bcd v < 256
  /\ SerialMonitor.decimal_to_bcd (v + 160) = SerialMonitor.decimal_to_bcd v
  /\ (0 <= v < 160 ->
      SerialMonitor.decimal_to_bcd v / 16 = v / 10
      /\ SerialMonitor.decimal_to_bcd v mod 16 = v mod 10
      /\ 10 * (SerialMonitor.decimal_to_bcd v / 16)
         + SerialMonitor.decimal_to_bcd v mod 16 = v).
Proof.
  rewrite !CalibrationMore.decimal_to_bcd_closed.
  assert (H10 : 0 <= v mod 10 < 10) by (apply Z.mod_pos_bound; lia).
  assert (H16 : 0 <= (v / 10) mod 16 < 16) by (apply Z.mod_pos_bound; lia).
  split; [reflexivity|]. split; [lia|]. split.
  - replace (v + 160) with (v + 16 * 10) by lia.
    rewrite Z.div_add, Z.mod_add by lia.
    replace (v / 10 + 16) with (v / 10 + 1 * 16) by lia.
    now rewrite Z.mod_add by lia.
  - intros Hv.
    assert (Hq : 0 <= v / 10 < 16)
      by (split; [apply Z.div_pos; lia|apply Z.div_lt_upper_bound; lia]).
    rewrite (Z.mod_small (v / 10)) by lia.
    assert (Hd : (16 * (v / 10) + v mod 10) / 16 = v / 10).
    { rewrite Z.add_comm, Z.mul_comm, Z.div_add by lia.
      rewrite Z.div_small by lia. reflexivity. }
    assert (Hm : (16 * (v / 10) + v mod 10) mod 16 = v mod 10).
    { rewrite Z.add_comm, Z.mul_comm, Z.mod_add by lia.
      apply Z.mod_small. lia. }
    rewrite Hd, Hm. repeat split.
    symmetry. apply Z.div_mod. lia.
Qed.

(** ** The fill step of a preset command *)

(** X4. The fill step of [send_preset_command] goes through exactly when
    the fill value is within [data_min, data_max] and the command has at
    least 3 bytes.  It then keeps the length, byte 0 and the bytes from
    offset 3 on, and for a fill value below 65536 bytes 1 and 2 read back as
    that value, high byte first. *)
Theorem fill_data_round_trip (data : bytes) (fill_value data_min data_max : Z) :
  (SerialMonitorApp.fill_data data fill_value data_min data_max <> None
   <-> data_min <= fill_value <= data_max /\ (3 <= List.length data)%nat)
  /\ forall filled,
       SerialMonitorApp.fill_data data fill_value data_min data_max
       = Some filled ->
       List.length filled = List.length data
       /\ firstn 1 filled = firstn 1 data
       /\ skipn 3 filled = skipn 3 data
       /\ is_bytes (firstn 2 (skipn 1 filled))
       /\ (0 <= fill_value < 65536 ->
           Struct.unpack_uint Struct.BE 2 (Py.slice filled 1 3)
           = Some fill_value).
Proof.
  unfold SerialMonitorApp.fill_data.
  destruct (Z.leb_spec data_min fill_value) as [H1|H1];
    destruct (Z.leb_spec fill_value data_max) as [H2|H2]; cbn [andb];
    try (split; [split; [congruence|lia]|discriminate]).
  destruct (Nat.leb_spec 3 (List.length data)) as [H3|H3];
    [|split; [split; [congruence|lia]|discriminate]].
  destruct data as [|b0 [|b1 [|b2 rest]]]; try (simpl in H3; lia).
  split; [split; [lia|discriminate]|].
  intros filled [= <-].
  assert (Hlo : 0 <= Z.land fill_value 0xFF < 256).
  { change 0xFF with (Z.ones 8). rewrite Z.land_ones by lia.
    apply Z.mod_pos_bound. lia. }
  assert (Hhi : 0 <= Z.land (Z.shiftr fill_value 8) 0xFF < 256).
  { change 0xFF with (Z.ones 8). rewrite Z.land_ones by lia.
    apply Z.mod_pos_bound. lia. }
  repeat split; try reflexivity.
  - cbn [skipn firstn].
    repeat (apply Forall_cons; [assumption|]). apply Forall_nil.
  - intros Hv.
    destruct (CalibrationFacts.low_high_bytes fill_value Hv)
      as (Hl & Hh & _ & _).
    rewrite slice_within by (cbn [List.length]; lia).
    change (Z.to_nat 3 - Z.to_nat 1)%nat with 2%nat.
    change (Z.to_nat 1) with 1%nat.
    cbn [skipn firstn].
    unfold Struct.unpack_uint, Struct.unsigned_value.
    cbn [List.length Nat.eqb rev app Struct.le_value].
    rewrite Hl, Hh. f_equal.
    pose proof (SendReceive.split16 fill_value Hv). lia.
Qed.

(** ** Whole frames, back to back *)

Module BackToBack.
Import GenericProtocolParser Frames GenericLoop.

Lemma parse_loop_frames (cfg : protocol_config) (frames : list bytes) :
  (0 < length cfg)%nat ->
  Forall (valid_frame cfg) frames ->
  forall fuel results,
    (List.length frames <= fuel)%nat ->
    parse_loop fuel cfg (List.concat frames) results
    = Some ([], results ++ map (make_result cfg) frames).
Proof.
  intros Hpos. induction 1 as [|f fs (Hl & Hs & Ha) Hfs IH];
    intros fuel results Hfuel.
  - rewrite parse_loop_short by (simpl; lia). now rewrite app_nil_r.
  - destruct fuel as [|fuel]; [simpl in Hfuel; lia|].
    cbn [List.concat].
    rewrite parse_loop_step by (rewrite length_app; lia).
    rewrite loop_body_accept;
      [|now apply startswith_app|rewrite length_app; lia
       |rewrite <- Hl, firstn_app, firstn_all, Nat.sub_diag, firstn_0,
          app_nil_r; exact Ha].
    rewrite <- Hl at 1 2.
    rewrite firstn_app, firstn_all, Nat.sub_diag, firstn_0, app_nil_r.
    rewrite skipn_app, skipn_all, Nat.sub_diag. cbn [skipn app].
    rewrite IH by (simpl in Hfuel; lia).
    now rewrite <- app_assoc.
Qed.

Lemma concat_length (cfg : protocol_config) (frames : list bytes) :
  Forall (valid_frame cfg) frames ->
  List.length (List.concat frames) = (List.length frames * length cfg)%nat.
Proof.
  induction 1 as [|f fs (Hl & _) _ IH]; [reflexivity|].
  cbn [List.concat List.length]. rewrite length_app, IH, Hl. lia.
Qed.

(** The built-in parser. *)

Lemma default_parse_loop_short fuel (buffer : bytes) results :
  (List.length buffer < DataParser.FRAME_LENGTH)%nat ->
  DataParser.parse_loop fuel buffer results = Some (buffer, results).
Proof.
  intros Hl.
  destruct fuel; cbn [DataParser.parse_loop];
    now destruct (Nat.ltb_spec (List.length buffer) DataParser.FRAME_LENGTH);
      [|lia].
Qed.

Lemma default_parse_loop_step fuel (buffer : bytes) results :
  (DataParser.FRAME_LENGTH <= List.length buffer)%nat ->
  DataParser.parse_loop (S fuel) buffer results =
  match DataParser.loop_body buffer with
  | DataParser.Break buffer => Some (buffer, results)
  | DataParser.Continue buffer appended =>
      DataParser.parse_loop fuel buffer (results ++ appended)
  end.
Proof.
  intros Hl. cbn [DataParser.parse_loop].
  now destruct (Nat.ltb_spec (List.length buffer) DataParser.FRAME_LENGTH);
    [lia|].
Qed.

(** The pass of the loop on a buffer whose first header occurrence is at
    index [i]. *)
Lemma default_loop_body_at (buffer : bytes) (i : nat) :
  Py.find DataParser.FRAME_HEADER buffer = Some i ->
  DataParser.loop_body buffer =
  let buffer := skipn i buffer in
  if (List.length buffer <? DataParser.FRAME_LENGTH)%nat
  then DataParser.Break buffer
  else
    let frame := firstn DataParser.FRAME_LENGTH buffer in
    if negb (Py.bytes_eqb (Py.slice frame 36 38) DataParser.FRAME_TAIL)
    then DataParser.Continue (skipn 2 buffer) []
    else DataParser.Continue (skipn DataParser.FRAME_LENGTH buffer)
           (match DataParser.decode frame with
            | Some r => [r]
            | None => []
            end).
Proof.
  intros Hf. unfold DataParser.loop_body. rewrite Hf.
  destruct (Nat.ltb_spec 0 i); [reflexivity|].
  now assert (i = 0%nat) as -> by lia.
Qed.

(** A valid frame at the front of the buffer is appended and consumed. *)
Lemma default_loop_body_accept (frame rest : bytes) (r : DataParser.result) :
  valid_default_frame frame ->
  DataParser.decode frame = Some r ->
  DataParser.loop_body (frame ++ rest) = DataParser.Continue rest [r].
Proof.
  intros (Hl & Hs & Ht) Hr.
  rewrite (default_loop_body_at _ 0)
    by (apply find_startswith; now apply startswith_app).
  cbv zeta. cbn [skipn].
  destruct (Nat.ltb_spec (List.length (frame ++ rest))
              DataParser.FRAME_LENGTH) as [Hlt|_];
    [rewrite length_app in Hlt; lia|].
  rewrite <- Hl.
  rewrite firstn_app, firstn_all, Nat.sub_diag, firstn_0, app_nil_r.
  rewrite skipn_app, skipn_all, Nat.sub_diag. cbn [skipn app].
  now rewrite Ht, bytes_eqb_refl, Hr.
Qed.

Lemma default_parse_loop_frames (frames : list bytes) :
  Forall valid_default_frame frames ->
  forall fuel results,
    (List.length frames <= fuel)%nat ->
    exists rs,
      DataParser.parse_loop fuel (List.concat frames) results
      = Some ([], results ++ rs)
      /\ map DataParser.raw_frame rs = frames.
Proof.
  induction 1 as [|f fs Hv Hfs IH]; intros fuel results Hfuel.
  - exists []. rewrite default_parse_loop_short
      by (unfold DataParser.FRAME_LENGTH; simpl; lia).
    now rewrite app_nil_r.
  - destruct fuel as [|fuel]; [simpl in Hfuel; lia|].
    destruct (Chunking.default_decode f (proj1 Hv)) as [r [Hr Hraw]].
    cbn [List.concat].
    rewrite default_parse_loop_step
      by (rewrite length_app; destruct Hv as [-> _]; lia).
    rewrite (default_loop_body_accept f _ r Hv Hr).
    destruct (IH fuel (results ++ [r])) as [rs [-> Hrs]];
      [simpl in Hfuel; lia|].
    exists (r :: rs). split; [now rewrite <- app_assoc|].
    cbn [map]. now rewrite Hraw, Hrs.
Qed.

Lemma default_concat_length (frames : list bytes) :
  Forall valid_default_frame frames ->
  List.length (List.concat frames) = (List.length frames * 38)%nat.
Proof.
  induction 1 as [|f fs (Hl & _) _ IH]; [reflexivity|].
  cbn [List.concat List.length]. rewrite length_app, IH, Hl.
  unfold DataParser.FRAME_LENGTH. lia.
Qed.

End BackToBack.

(** X5. Concatenation, generic parser: feeding any number of valid frames
    back to back in one call to a fresh enabled parser (positive frame
    length, total within the 10240-byte cap) returns exactly those frames, in
    input order, and leaves the buffer empty. *)
Theorem back_to_back_frames
  (cfg : GenericProtocolParser.protocol_config) (frames : list bytes) :
  GenericProtocolParser.enabled cfg = true ->
  (0 < GenericProtocolParser.length cfg)%nat ->
  Z.of_nat (List.length (List.concat frames)) <= 10240 ->
  Forall (Frames.valid_frame cfg) frames ->
  Frames.feed (GenericProtocolParser.init cfg) (List.concat frames)
  = Some (GenericProtocolParser.init cfg,
          map (GenericProtocolParser.make_result cfg) frames).
Proof.
  intros He Hpos Hcap Hv.
  unfold Frames.feed, GenericProtocolParser.add_data,
    GenericProtocolParser.init.
  cbn [GenericProtocolParser.config GenericProtocolParser.buffer app].
  destruct (Z.ltb_spec 10240 (Z.of_nat (List.length (List.concat frames))));
    [lia|].
  unfold GenericProtocolParser.parse.
  cbn [GenericProtocolParser.config GenericProtocolParser.buffer].
  rewrite He. cbn [negb].
  rewrite (BackToBack.parse_loop_frames cfg frames Hpos Hv); [reflexivity|].
  rewrite (BackToBack.concat_length cfg frames Hv). nia.
Qed.

(** X6. Concatenation, built-in parser: feeding any number of valid 38-byte
    frames back to back in one call to a fresh parser returns one result per
    frame, in input order, each carrying the bytes of its frame, and leaves
    the buffer empty. *)
Theorem back_to_back_default_frames (frames : list bytes) :
  Forall Frames.valid_default_frame frames ->
  exists rs,
    Frames.feed_default DataParser.init (List.concat frames)
    = Some (DataParser.init, rs)
    /\ map DataParser.raw_frame rs = frames.
Proof.
  intros Hv.
  destruct (BackToBack.default_parse_loop_frames frames Hv
              (S (List.length (List.concat frames))) [])
    as [rs [Hrun Hraw]].
  - rewrite (BackToBack.default_concat_length frames Hv). lia.
  - exists rs. split; [exact Hrun|exact Hraw].
Qed.

(** ** Bytes before the first header *)

(** X7. Leading garbage is skipped: when the first occurrence of the header
    in the input is where a valid frame starts, one feed of the input to a
    fresh parser returns exactly that frame and leaves the buffer empty; for
    an enabled generic protocol with a non-empty header (input within the
    cap) and for the built-in parser. *)
Theorem leading_garbage_skipped
  (cfg : GenericProtocolParser.protocol_config) (junk frame : bytes)
  (djunk dframe : bytes) :
  GenericProtocolParser.enabled cfg = true ->
  GenericProtocolParser.header cfg <> [] ->
  Z.of_nat (List.length (junk ++ frame)) <= 10240 ->
  Frames.valid_frame cfg frame ->
  Py.find (GenericProtocolParser.header cfg) (junk ++ frame)
  = Some (List.length junk) ->
  Frames.valid_default_frame dframe ->
  Py.find DataParser.FRAME_HEADER (djunk ++ dframe)
  = Some (List.length djunk) ->
  Frames.feed (GenericProtocolParser.init cfg) (junk ++ frame)
  = Some (GenericProtocolParser.init cfg,
          [GenericProtocolParser.make_result cfg frame])
  /\ exists r,
       DataParser.raw_frame r = dframe
       /\ Frames.feed_default DataParser.init (djunk ++ dframe)
          = Some (DataParser.init, [r]).
Proof.
  intros He Hh Hcap (Hl & Hs & Ha) Hf (Hdl & Hds & Hdt) Hdf.
  assert (Hpos : (0 < GenericProtocolParser.length cfg)%nat).
  { apply startswith_length in Hs.
    destruct (GenericProtocolParser.header cfg); [congruence|].
    simpl in Hs. lia. }
  split.
  - unfold Frames.feed, GenericProtocolParser.add_data,
      GenericProtocolParser.init.
    cbn [GenericProtocolParser.config GenericProtocolParser.buffer app].
    destruct (Z.ltb_spec 10240 (Z.of_nat (List.length (junk ++ frame))));
      [lia|].
    unfold GenericProtocolParser.parse.
    cbn [GenericProtocolParser.config GenericProtocolParser.buffer].
    rewrite He. cbn [negb].
    rewrite GenericLoop.parse_loop_step by (rewrite length_app; lia).
    rewrite (GenericLoop.loop_body_seek cfg _ _ Hh Hf).
    rewrite skipn_app, skipn_all, Nat.sub_diag. cbn [skipn app].
    rewrite GenericLoop.loop_body_accept;
      [|exact Hs|lia|rewrite <- Hl, firstn_all; exact Ha].
    rewrite <- Hl, firstn_all, skipn_all.
    rewrite GenericLoop.parse_loop_short by (simpl; lia).
    reflexivity.
  - destruct (Chunking.default_decode dframe Hdl) as [r [Hr Hraw]].
    exists r. split; [exact Hraw|].
    unfold Frames.feed_default, DataParser.add_data, DataParser.init,
      DataParser.parse.
    cbn [app].
    rewrite BackToBack.default_parse_loop_step
      by (rewrite length_app; lia).
    rewrite (BackToBack.default_loop_body_at _ _ Hdf). cbv zeta.
    rewrite skipn_app, skipn_all, Nat.sub_diag. cbn [skipn app].
    destruct (Nat.ltb_spec (List.length dframe) DataParser.FRAME_LENGTH);
      [lia|].
    rewrite <- Hdl, firstn_all, skipn_all, Hdt, bytes_eqb_refl, Hr.
    cbn [negb].
    rewrite BackToBack.default_parse_loop_short
      by (unfold DataParser.FRAME_LENGTH; simpl; lia).
    reflexivity.
Qed.

(** ** What is left in the buffer *)

Module Leftover.
Import GenericProtocolParser GenericLoop.

Lemma suffix_refl (b : bytes) : More.suffix_of b b.
Proof. now exists []. Qed.

Lemma suffix_skipn (k : nat) (b : bytes) : More.suffix_of (skipn k b) b.
Proof. exists (firstn k b). symmetry. apply firstn_skipn. Qed.

Lemma suffix_trans (c b a : bytes) :
  More.suffix_of c b -> More.suffix_of b a -> More.suffix_of c a.
Proof.
  intros [d1 ->] [d2 ->]. exists (d2 ++ d1). now rewrite app_assoc.
Qed.

Lemma suffix_nil (b : bytes) : More.suffix_of [] b.
Proof. exists b. now rewrite app_nil_r. Qed.

Lemma suffix_length (b a : bytes) :
  More.suffix_of b a -> (List.length b <= List.length a)%nat.
Proof. intros [d ->]. rewrite length_app. lia. Qed.

Lemma suffix_slice_from (b : bytes) (i : Z) :
  More.suffix_of (Py.slice_from b i) b.
Proof. apply suffix_skipn. Qed.

(** The built-in parser. *)

Lemma default_loop_body_leftover (buffer : bytes) :
  (DataParser.FRAME_LENGTH <= List.length buffer)%nat ->
  match DataParser.loop_body buffer with
  | DataParser.Break b =>
      More.suffix_of b buffer /\ (List.length b < 38)%nat
  | DataParser.Continue b appended =>
      More.suffix_of b buffer
      /\ (38 * List.length appended + List.length b <= List.length buffer)%nat
  end.
Proof.
  intros Hlen. unfold DataParser.loop_body.
  destruct (Py.find DataParser.FRAME_HEADER buffer) as [i|];
    [|split; [apply suffix_nil|simpl; lia]].
  set (b0 := if (0 <? i)%nat then skipn i buffer else buffer).
  assert (Hb0 : More.suffix_of b0 buffer).
  { subst b0. destruct (0 <? i)%nat; [apply suffix_skipn|apply suffix_refl]. }
  pose proof (suffix_length _ _ Hb0) as Hl0.
  unfold DataParser.FRAME_LENGTH in *.
  destruct (Nat.ltb_spec (List.length b0) 38); [now split|].
  destruct (negb _).
  - split; [eapply suffix_trans; [apply suffix_skipn|exact Hb0]|].
    rewrite length_skipn. simpl. lia.
  - split; [eapply suffix_trans; [apply suffix_skipn|exact Hb0]|].
    rewrite length_skipn. destruct (DataParser.decode _); simpl; lia.
Qed.

Lemma default_parse_loop_leftover fuel (buffer : bytes) results b out :
  DataParser.parse_loop fuel buffer results = Some (b, out) ->
  More.suffix_of b buffer
  /\ (List.length b < 38)%nat
  /\ exists new,
       out = results ++ new
       /\ (38 * List.length new + List.length b <= List.length buffer)%nat.
Proof.
  revert buffer results.
  induction fuel as [|fuel IH]; intros buffer results H.
  - cbn [DataParser.parse_loop] in H.
    destruct (Nat.ltb_spec (List.length buffer) DataParser.FRAME_LENGTH)
      as [Hs|Hs]; [|discriminate].
    injection H as <- <-. unfold DataParser.FRAME_LENGTH in Hs.
    split; [apply suffix_refl|]. split; [exact Hs|].
    exists []. rewrite app_nil_r. split; [reflexivity|simpl; lia].
  - destruct (Nat.ltb_spec (List.length buffer) DataParser.FRAME_LENGTH)
      as [Hs|Hs].
    + rewrite BackToBack.default_parse_loop_short in H by assumption.
      injection H as <- <-. unfold DataParser.FRAME_LENGTH in Hs.
      split; [apply suffix_refl|]. split; [exact Hs|].
      exists []. rewrite app_nil_r. split; [reflexivity|simpl; lia].
    + rewrite BackToBack.default_parse_loop_step in H by assumption.
      pose proof (default_loop_body_leftover buffer Hs) as Hb.
      destruct (DataParser.loop_body buffer) as [b0|b0 appended].
      * injection H as <- <-. destruct Hb as [Hsuf Hlt].
        split; [exact Hsuf|]. split; [exact Hlt|].
        exists []. rewrite app_nil_r. split; [reflexivity|].
        apply suffix_length in Hsuf. simpl. lia.
      * destruct Hb as [Hsuf Hcount].
        destruct (IH _ _ H) as (Hsuf' & Hlt & new & -> & Hnew).
        split; [eapply suffix_trans; eassumption|]. split; [exact Hlt|].
        exists (appended ++ new). split; [now rewrite app_assoc|].
        rewrite length_app. lia.
Qed.

(** The generic parser. *)

Lemma loop_body_leftover (cfg : protocol_config) (buffer : bytes) :
  match loop_body cfg buffer with
  | Break b | Continue b => More.suffix_of b buffer
  | Append _ b =>
      More.suffix_of b buffer
      /\ (length cfg + List.length b <= List.length buffer)%nat
  end.
Proof.
  unfold loop_body, locate_header.
  destruct (0 <? List.length (header cfg))%nat.
  - destruct (Py.find (header cfg) buffer) as [i|].
    + set (b0 := if (0 <? i)%nat then skipn i buffer else buffer).
      assert (Hb0 : More.suffix_of b0 buffer).
      { subst b0.
        destruct (0 <? i)%nat; [apply suffix_skipn|apply suffix_refl]. }
      pose proof (suffix_length _ _ Hb0) as Hl0.
      destruct (Nat.ltb_spec (List.length b0) (length cfg)); [exact Hb0|].
      destruct (negb (tail_matches cfg _));
        [eapply suffix_trans; [apply suffix_skipn|exact Hb0]|].
      destruct (negb (_verify_crc cfg _));
        [eapply suffix_trans; [apply suffix_skipn|exact Hb0]|].
      split; [eapply suffix_trans; [apply suffix_skipn|exact Hb0]|].
      rewrite length_skipn. lia.
    + destruct (_ <? _)%nat; [apply suffix_slice_from|apply suffix_refl].
  - destruct (Nat.ltb_spec (List.length buffer) (length cfg));
      [apply suffix_refl|].
    destruct (negb (tail_matches cfg _)); [apply suffix_skipn|].
    destruct (negb (_verify_crc cfg _)); [apply suffix_skipn|].
    split; [apply suffix_skipn|]. rewrite length_skipn. lia.
Qed.

Lemma parse_loop_leftover (cfg : protocol_config) fuel (buffer : bytes)
  results b out :
  parse_loop fuel cfg buffer results = Some (b, out) ->
  More.suffix_of b buffer
  /\ exists new,
       out = results ++ new
       /\ (length cfg * List.length new + List.length b
           <= List.length buffer)%nat.
Proof.
  revert buffer results.
  induction fuel as [|fuel IH]; intros buffer results H.
  - cbn [parse_loop] in H.
    destruct (List.length buffer <? length cfg)%nat; [|discriminate].
    injection H as <- <-. split; [apply suffix_refl|].
    exists []. rewrite app_nil_r. split; [reflexivity|simpl; lia].
  - destruct (Nat.ltb_spec (List.length buffer) (length cfg)) as [Hs|Hs].
    + rewrite parse_loop_short in H by assumption.
      injection H as <- <-. split; [apply suffix_refl|].
      exists []. rewrite app_nil_r. split; [reflexivity|simpl; lia].
    + rewrite parse_loop_step in H by assumption.
      pose proof (loop_body_leftover cfg buffer) as Hb.
      destruct (loop_body cfg buffer) as [b0|b0|r b0].
      * injection H as <- <-. split; [exact Hb|].
        exists []. rewrite app_nil_r. split; [reflexivity|].
        apply suffix_length in Hb. simpl. lia.
      * destruct (IH _ _ H) as (Hsuf & new & -> & Hnew).
        split; [eapply suffix_trans; eassumption|].
        exists new. split; [reflexivity|].
        apply suffix_length in Hb. lia.
      * destruct Hb as [Hb Hcount].
        destruct (IH _ _ H) as (Hsuf & new & -> & Hnew).
        split; [eapply suffix_trans; eassumption|].
        exists (r :: new). split; [now rewrite <- app_assoc|].
        cbn [List.length]. nia.
Qed.

Lemma add_data_leftover (p : GenericProtocolParser.t) (data : bytes) :
  More.suffix_of (buffer (add_data p data)) (buffer p ++ data)
  /\ Z.of_nat (List.length (buffer (add_data p data))) <= 10240.
Proof.
  unfold add_data. cbn [buffer].
  destruct (Z.ltb_spec 10240 (Z.of_nat (List.length (buffer p ++ data)))).
  - split; [apply suffix_slice_from|].
    unfold Py.slice_from, Py.clamp.
    change (-5120 <? 0) with true. cbv iota.
    rewrite length_skipn. lia.
  - split; [apply suffix_refl|assumption].
Qed.

End Leftover.

(** X8. The built-in parser always returns, and on return its buffer holds
    fewer than 38 bytes and is what is left of the input buffer after bytes
    were dropped from its front; each result accounts for 38 bytes of the
    input that are not counted twice. *)
Theorem default_parser_leftover (buffer : DataParser.t) :
  exists left out,
    DataParser.parse buffer = Some (left, out)
    /\ (List.length left < 38)%nat
    /\ More.suffix_of left buffer
    /\ (38 * List.length out + List.length left <= List.length buffer)%nat.
Proof.
  destruct (DispatchFacts.default_parse_total buffer) as [[left out] Hp].
  exists left, out. split; [exact Hp|].
  destruct (Leftover.default_parse_loop_leftover _ _ _ _ _ Hp)
    as (Hsuf & Hlt & new & Hout & Hcount).
  cbn [app] in Hout. subst new. repeat split; assumption.
Qed.

(** X9. After [add_data] and [parse] the buffer of a generic parser never
    exceeds 10240 bytes, is what is left of the old buffer followed by the
    chunk after bytes were dropped from the front, and each result accounts
    for frame-length bytes of them that are not counted twice; the
    configuration is unchanged. *)
Theorem generic_parser_leftover
  (p p' : GenericProtocolParser.t) (data : bytes)
  (out : list GenericProtocolParser.result) :
  Frames.feed p data = Some (p', out) ->
  GenericProtocolParser.config p' = GenericProtocolParser.config p
  /\ Z.of_nat (List.length (GenericProtocolParser.buffer p')) <= 10240
  /\ More.suffix_of (GenericProtocolParser.buffer p')
       (GenericProtocolParser.buffer p ++ data)
  /\ (GenericProtocolParser.length (GenericProtocolParser.config p)
      * List.length out
      + List.length (GenericProtocolParser.buffer p')
      <= List.length (GenericProtocolParser.buffer p ++ data))%nat.
Proof.
  unfold Frames.feed, GenericProtocolParser.parse.
  destruct (Leftover.add_data_leftover p data) as [Hsuf Hcap].
  pose proof (Leftover.suffix_length _ _ Hsuf) as Hlen.
  rewrite DispatchFacts.add_data_config.
  destruct (negb _).
  - intros [= <- <-]. split; [reflexivity|]. split; [exact Hcap|].
    split; [exact Hsuf|]. cbn [List.length]. lia.
  - destruct (GenericProtocolParser.parse_loop _ _ _ _) as [[b o]|] eqn:Hl;
      [|discriminate].
    intros [= <- <-]. cbn [GenericProtocolParser.config
                           GenericProtocolParser.buffer].
    destruct (Leftover.parse_loop_leftover _ _ _ _ _ _ Hl)
      as (Hsuf' & new & Hout & Hcount).
    cbn [app] in Hout. subst new.
    pose proof (Leftover.suffix_length _ _ Hsuf') as Hlen'.
    repeat split.
    + lia.
    + eapply Leftover.suffix_trans; eassumption.
    + lia.
Qed.

(** ** Parsing again without new data *)

Module Settled.
Import GenericProtocolParser GenericLoop.

Lemma find_none_skipn (sub s : bytes) (k : nat) :
  Py.find sub s = None -> Py.find sub (skipn k s) = None.
Proof.
  rewrite !find_none. intros Hn [pre [post H]]. apply Hn.
  exists (firstn k s ++ pre), post.
  rewrite <- app_assoc, <- H. symmetry. apply firstn_skipn.
Qed.

(** The buffer a pass leaves the loop with is shorter than a frame, or is a
    buffer the next call leaves the loop with as it is. *)
Lemma break_settled (cfg : protocol_config) (buffer b : bytes) :
  loop_body cfg buffer = Break b ->
  (List.length b < length cfg)%nat \/ loop_body cfg b = Break b.
Proof.
  unfold loop_body at 1.
  destruct (locate_header cfg buffer) as [b0|b0] eqn:Hloc.
  - intros [= <-]. right.
    unfold locate_header in Hloc.
    destruct (Nat.ltb_spec 0 (List.length (header cfg))) as [Hh|Hh];
      [|discriminate].
    destruct (Py.find (header cfg) buffer) eqn:Hf; [discriminate|].
    injection Hloc as Hb0.
    assert (Hkeep : locate_header cfg b0 = inl b0); [|
      unfold loop_body; now rewrite Hkeep].
    unfold locate_header.
    destruct (Nat.ltb_spec 0 (List.length (header cfg))); [|lia].
    destruct (Nat.ltb_spec (List.length (header cfg)) (List.length buffer))
      as [Hlong|Hshort].
    + destruct (Nat.eq_dec (List.length (header cfg)) 1) as [H1|H1].
      * (* one-byte header: nothing was dropped *)
        rewrite H1 in Hb0. change (- (Z.of_nat 1 - 1)) with 0 in Hb0.
        rewrite slice_from_nonneg in Hb0 by lia. cbn [Z.to_nat skipn] in Hb0.
        subst b0. rewrite Hf.
        destruct (Nat.ltb_spec (List.length (header cfg))
                    (List.length buffer)); [|lia].
        rewrite H1. change (- (Z.of_nat 1 - 1)) with 0.
        now rewrite slice_from_nonneg by lia.
      * replace (- (Z.of_nat (List.length (header cfg)) - 1))
          with (- Z.of_nat (List.length (header cfg) - 1)) in Hb0 by lia.
        rewrite slice_from_neg in Hb0 by lia.
        assert (Hlen : List.length b0 = (List.length (header cfg) - 1)%nat).
        { subst b0. rewrite length_skipn. lia. }
        assert (Hnone : Py.find (header cfg) b0 = None).
        { subst b0. now apply find_none_skipn. }
        rewrite Hnone.
        destruct (Nat.ltb_spec (List.length (header cfg)) (List.length b0));
          [lia|reflexivity].
    + subst b0. rewrite Hf.
      destruct (Nat.ltb_spec (List.length (header cfg)) (List.length buffer));
        [lia|reflexivity].
  - destruct (Nat.ltb_spec (List.length b0) (length cfg)) as [Hs|Hs].
    + intros [= <-]. now left.
    + destruct (negb (tail_matches cfg _)); [discriminate|].
      destruct (negb (_verify_crc cfg _)); discriminate.
Qed.

Lemma parse_loop_settled (cfg : protocol_config) fuel (buffer : bytes)
  results b out :
  parse_loop fuel cfg buffer results = Some (b, out) ->
  forall fuel', parse_loop (S fuel') cfg b [] = Some (b, []).
Proof.
  revert buffer results.
  induction fuel as [|fuel IH]; intros buffer results H fuel'.
  - cbn [parse_loop] in H.
    destruct (Nat.ltb_spec (List.length buffer) (length cfg)); [|discriminate].
    injection H as <- <-. now apply parse_loop_short.
  - destruct (Nat.ltb_spec (List.length buffer) (length cfg)) as [Hs|Hs].
    + rewrite parse_loop_short in H by assumption.
      injection H as <- <-. now apply parse_loop_short.
    + rewrite parse_loop_step in H by assumption.
      destruct (loop_body cfg buffer) as [b0|b0|r b0] eqn:Hb.
      * injection H as <- <-.
        destruct (break_settled cfg buffer b0 Hb) as [Hlt|Hkeep];
          [now apply parse_loop_short|].
        destruct (Nat.ltb_spec (List.length b0) (length cfg));
          [now apply parse_loop_short|].
        rewrite parse_loop_step by assumption. now rewrite Hkeep.
      * eapply IH; eassumption.
      * eapply IH; eassumption.
Qed.

End Settled.

(** X10. A second [parse] without new data is a no-op: it returns no result
    and leaves the parser as the first [parse] left it; for the generic
    parser and for the built-in one. *)
Theorem parse_twice_is_parse_once
  (p p' : GenericProtocolParser.t) (out : list GenericProtocolParser.result)
  (buffer left : DataParser.t) (dout : list DataParser.result) :
  GenericProtocolParser.parse p = Some (p', out) ->
  DataParser.parse buffer = Some (left, dout) ->
  GenericProtocolParser.parse p' = Some (p', [])
  /\ DataParser.parse left = Some (left, []).
Proof.
  intros Hp Hd. split.
  - unfold GenericProtocolParser.parse in *.
    destruct (negb (GenericProtocolParser.enabled
                      (GenericProtocolParser.config p))) eqn:He.
    + injection Hp as <- <-. now rewrite He.
    + destruct (GenericProtocolParser.parse_loop _ _ _ _) as [[b o]|] eqn:Hl;
        [|discriminate].
      injection Hp as <- <-.
      cbn [GenericProtocolParser.config GenericProtocolParser.buffer].
      rewrite He.
      now rewrite (Settled.parse_loop_settled _ _ _ _ _ _ Hl).
  - destruct (Leftover.default_parse_loop_leftover _ _ _ _ _ Hd)
      as (_ & Hlt & _).
    apply Chunking.default_parse_short.
    unfold DataParser.FRAME_LENGTH. exact Hlt.
Qed.

(** ** A custom protocol that repeats the built-in framing *)

Module SameFraming.
Import GenericProtocolParser GenericLoop.





End SameFraming.


(** ** Where the returned frames come from *)

Module Carved.
Import GenericProtocolParser GenericLoop.

Lemma carved_suffix (frames : list bytes) (rest b a : bytes) :
  More.carved frames rest b -> More.suffix_of b a ->
  More.carved frames rest a.
Proof.
  destruct frames as [|frame frames]; cbn [More.carved].
  - intros H1 H2. eapply Leftover.suffix_trans; eassumption.
  - intros (skipped & after & -> & Hrest) [dropped ->].
    exists (dropped ++ skipped), after.
    split; [now rewrite app_assoc|exact Hrest].
Qed.

Lemma carved_cons (frame : bytes) (frames : list bytes)
  (rest skipped after : bytes) :
  More.carved frames rest after ->
  More.carved (frame :: frames) rest (skipped ++ frame ++ after).
Proof. intros H. cbn [More.carved]. now exists skipped, after. Qed.

Lemma loop_body_carved (cfg : protocol_config) (buffer : bytes) :
  match loop_body cfg buffer with
  | Break b | Continue b => More.suffix_of b buffer
  | Append r b => exists skipped, buffer = skipped ++ raw_frame r ++ b
  end.
Proof.
  pose proof (Leftover.loop_body_leftover cfg buffer) as Hleft.
  unfold loop_body in *.
  destruct (locate_header cfg buffer) as [b0|b0] eqn:Hloc; [exact Hleft|].
  destruct (List.length b0 <? length cfg)%nat; [exact Hleft|].
  destruct (negb (tail_matches cfg _)); [exact Hleft|].
  destruct (negb (_verify_crc cfg _)); [exact Hleft|].
  cbn [make_result raw_frame].
  assert (Hb0 : More.suffix_of b0 buffer).
  { unfold locate_header in Hloc.
    destruct (0 <? List.length (header cfg))%nat.
    - destruct (Py.find (header cfg) buffer) as [i|]; [|discriminate].
      injection Hloc as <-.
      destruct (0 <? i)%nat;
        [apply Leftover.suffix_skipn|apply Leftover.suffix_refl].
    - injection Hloc as <-. apply Leftover.suffix_refl. }
  destruct Hb0 as [dropped ->]. exists dropped.
  now rewrite firstn_skipn.
Qed.

Lemma parse_loop_carved (cfg : protocol_config) fuel (buffer : bytes)
  results b out :
  parse_loop fuel cfg buffer results = Some (b, out) ->
  exists new,
    out = results ++ new /\ More.carved (map raw_frame new) b buffer.
Proof.
  revert buffer results.
  induction fuel as [|fuel IH]; intros buffer results H.
  - cbn [parse_loop] in H.
    destruct (List.length buffer <? length cfg)%nat; [|discriminate].
    injection H as <- <-. exists []. rewrite app_nil_r.
    split; [reflexivity|apply Leftover.suffix_refl].
  - destruct (Nat.ltb_spec (List.length buffer) (length cfg)) as [Hs|Hs].
    + rewrite parse_loop_short in H by assumption.
      injection H as <- <-. exists []. rewrite app_nil_r.
      split; [reflexivity|apply Leftover.suffix_refl].
    + rewrite parse_loop_step in H by assumption.
      pose proof (loop_body_carved cfg buffer) as Hb.
      destruct (loop_body cfg buffer) as [b0|b0|r b0].
      * injection H as <- <-. exists []. rewrite app_nil_r.
        split; [reflexivity|exact Hb].
      * destruct (IH _ _ H) as (new & -> & Hnew).
        exists new. split; [reflexivity|].
        eapply carved_suffix; eassumption.
      * destruct Hb as [skipped ->].
        destruct (IH _ _ H) as (new & -> & Hnew).
        exists (r :: new). split; [now rewrite <- app_assoc|].
        cbn [map]. now apply carved_cons.
Qed.

Lemma default_loop_body_carved (buffer : bytes) :
  match DataParser.loop_body buffer with
  | DataParser.Break b | DataParser.Continue b [] => More.suffix_of b buffer
  | DataParser.Continue b [r] =>
      exists skipped, buffer = skipped ++ DataParser.raw_frame r ++ b
  | DataParser.Continue _ _ => False
  end.
Proof.
  unfold DataParser.loop_body.
  destruct (Py.find DataParser.FRAME_HEADER buffer) as [i|];
    [|apply Leftover.suffix_nil].
  set (b0 := if (0 <? i)%nat then skipn i buffer else buffer).
  assert (Hb0 : More.suffix_of b0 buffer).
  { subst b0. destruct (0 <? i)%nat;
      [apply Leftover.suffix_skipn|apply Leftover.suffix_refl]. }
  clearbody b0.
  destruct (List.length b0 <? DataParser.FRAME_LENGTH)%nat; [exact Hb0|].
  destruct (negb _).
  - eapply Leftover.suffix_trans; [apply Leftover.suffix_skipn|exact Hb0].
  - destruct (DataParser.decode (firstn DataParser.FRAME_LENGTH b0))
      as [r|] eqn:Hd.
    + assert (Hraw : DataParser.raw_frame r
                     = firstn DataParser.FRAME_LENGTH b0).
      { unfold DataParser.decode in Hd.
        destruct (Struct.unpack_uint _ _ _); [|discriminate].
        destruct (Struct.unpack_uint _ _ _); [|discriminate].
        destruct (Struct.unpack_int _ _ _); [|discriminate].
        now injection Hd as <-. }
      rewrite Hraw. destruct Hb0 as [dropped ->]. exists dropped.
      now rewrite firstn_skipn.
    + eapply Leftover.suffix_trans; [apply Leftover.suffix_skipn|exact Hb0].
Qed.

Lemma default_parse_loop_carved fuel (buffer : bytes) results b out :
  DataParser.parse_loop fuel buffer results = Some (b, out) ->
  exists new,
    out = results ++ new
    /\ More.carved (map DataParser.raw_frame new) b buffer.
Proof.
  revert buffer results.
  induction fuel as [|fuel IH]; intros buffer results H.
  - cbn [DataParser.parse_loop] in H.
    destruct (List.length buffer <? DataParser.FRAME_LENGTH)%nat;
      [|discriminate].
    injection H as <- <-. exists []. rewrite app_nil_r.
    split; [reflexivity|apply Leftover.suffix_refl].
  - destruct (Nat.ltb_spec (List.length buffer) DataParser.FRAME_LENGTH)
      as [Hs|Hs].
    + rewrite BackToBack.default_parse_loop_short in H by assumption.
      injection H as <- <-. exists []. rewrite app_nil_r.
      split; [reflexivity|apply Leftover.suffix_refl].
    + rewrite BackToBack.default_parse_loop_step in H by assumption.
      pose proof (default_loop_body_carved buffer) as Hb.
      destruct (DataParser.loop_body buffer) as [b0|b0 [|r [|]]];
        try contradiction.
      * injection H as <- <-. exists []. rewrite app_nil_r.
        split; [reflexivity|exact Hb].
      * destruct (IH _ _ H) as (new & -> & Hnew).
        exists new. split; [now rewrite app_nil_r|].
        eapply carved_suffix; eassumption.
      * destruct Hb as [skipped ->].
        destruct (IH _ _ H) as (new & -> & Hnew).
        exists (r :: new). split; [now rewrite <- app_assoc|].
        cbn [map]. now apply carved_cons.
Qed.

End Carved.

(** X12. The frames a call of [parse] returns are pieces of the buffer it
    was called on: they follow one another there without overlap, in the
    order returned, possibly with skipped bytes in between, and the buffer
    left behind is what follows the last of them (after further dropped
    bytes).  No returned byte is invented, reordered or returned twice; for
    the generic parser and for the built-in one. *)
Theorem frames_are_carved_from_the_buffer
  (p p' : GenericProtocolParser.t) (out : list GenericProtocolParser.result)
  (buffer left : DataParser.t) (dout : list DataParser.result) :
  GenericProtocolParser.parse p = Some (p', out) ->
  DataParser.parse buffer = Some (left, dout) ->
  More.carved (map GenericProtocolParser.raw_frame out)
    (GenericProtocolParser.buffer p') (GenericProtocolParser.buffer p)
  /\ More.carved (map DataParser.raw_frame dout) left buffer.
Proof.
  intros Hp Hd. split.
  - unfold GenericProtocolParser.parse in Hp.
    destruct (negb _).
    + injection Hp as <- <-. apply Leftover.suffix_refl.
    + destruct (GenericProtocolParser.parse_loop _ _ _ _) as [[b o]|] eqn:Hl;
        [|discriminate].
      injection Hp as <- <-.
      destruct (Carved.parse_loop_carved _ _ _ _ _ _ Hl) as (new & Ho & Hc).
      cbn [app] in Ho. subst new. exact Hc.
  - destruct (Carved.default_parse_loop_carved _ _ _ _ _ Hd)
      as (new & Ho & Hc).
    cbn [app] in Ho. subst new. exact Hc.
Qed.

(** ** The receive log *)

Module ReceiveLogFacts.
Import SerialMonitorApp.

Section Gap.
Variable gap_reached : Z -> Z -> Z -> bool.

(** One event: what is shown and what is kept is what was kept and what
    arrived. *)
Lemma log_step_conserves (self : rx_log) (e : log_event) :
  List.concat (snd (log_step gap_reached self e))
  ++ rx_buffer (fst (log_step gap_reached self e))
  = rx_buffer self ++ More.received_bytes [e]
  /\ Forall (fun shown => shown <> []) (snd (log_step gap_reached self e)).
Proof.
  assert (Hshown : (0 <? List.length (rx_buffer self))%nat = true ->
                   Forall (fun shown : bytes => shown <> []) [rx_buffer self]).
  { intros H. apply Forall_cons; [|apply Forall_nil].
    destruct (rx_buffer self); [discriminate|discriminate]. }
  destruct e as [now data|now| |value];
    cbn [log_step More.received_bytes flat_map]; rewrite ?app_nil_r.
  - unfold log_received.
    destruct (match last_rx_time self with
              | Some last => gap_reached last now (frame_interval_ms self)
              | None => true
              end).
    + destruct (0 <? List.length (rx_buffer self))%nat eqn:Hlen;
        cbn [fst snd rx_buffer List.concat app]; rewrite ?app_nil_r;
        split; auto.
    + cbn [fst snd rx_buffer List.concat app]. split; auto.
  - unfold flush_rx_buffer.
    destruct (0 <? List.length (rx_buffer self))%nat eqn:Hlen;
      [|cbn; split; auto].
    destruct (last_rx_time self) as [last|]; [|cbn; split; auto].
    destruct (gap_reached last now (frame_interval_ms self));
      cbn [fst snd rx_buffer List.concat app]; rewrite ?app_nil_r;
      split; auto.
  - unfold flush_on_close.
    destruct (0 <? List.length (rx_buffer self))%nat eqn:Hlen;
      cbn [fst snd rx_buffer List.concat app]; rewrite ?app_nil_r;
      split; auto.
  - cbn [fst snd on_frame_interval_changed rx_buffer List.concat app].
    split; auto.
Qed.

Lemma log_run_cons (self : rx_log) (e : log_event) (rest : list log_event) :
  log_run gap_reached self (e :: rest)
  = (fst (log_run gap_reached (fst (log_step gap_reached self e)) rest),
     snd (log_step gap_reached self e)
     ++ snd (log_run gap_reached (fst (log_step gap_reached self e)) rest)).
Proof.
  cbn [log_run].
  destruct (log_step gap_reached self e) as [s1 shown].
  cbn [fst snd]. now destruct (log_run gap_reached s1 rest).
Qed.

Lemma received_bytes_cons (e : log_event) (rest : list log_event) :
  More.received_bytes (e :: rest)
  = More.received_bytes [e] ++ More.received_bytes rest.
Proof.
  unfold More.received_bytes. cbn [flat_map]. now rewrite app_nil_r.
Qed.

Lemma log_run_conserves (events : list log_event) (self : rx_log) :
  List.concat (snd (log_run gap_reached self events))
  ++ rx_buffer (fst (log_run gap_reached self events))
  = rx_buffer self ++ More.received_bytes events
  /\ Forall (fun shown => shown <> []) (snd (log_run gap_reached self events)).
Proof.
  revert self. induction events as [|e rest IH]; intros self.
  - cbn. rewrite app_nil_r. split; [reflexivity|apply Forall_nil].
  - rewrite log_run_cons. cbn [fst snd].
    destruct (log_step_conserves self e) as [Hstep Hne].
    destruct (IH (fst (log_step gap_reached self e))) as [Hrun Hne'].
    split; [|apply Forall_app; now split].
    rewrite concat_app, <- app_assoc, Hrun, app_assoc, Hstep.
    rewrite (received_bytes_cons e rest). now rewrite <- app_assoc.
Qed.

Lemma log_run_app (a b : list log_event) (self : rx_log) :
  log_run gap_reached self (a ++ b)
  = (fst (log_run gap_reached (fst (log_run gap_reached self a)) b),
     snd (log_run gap_reached self a)
     ++ snd (log_run gap_reached (fst (log_run gap_reached self a)) b)).
Proof.
  revert self. induction a as [|e a IH]; intros self.
  - cbn [app log_run fst snd]. now destruct (log_run gap_reached self b).
  - cbn [app]. rewrite !log_run_cons, IH. cbn [fst snd].
    now rewrite app_assoc.
Qed.

Lemma closed_empties (self : rx_log) :
  rx_buffer (fst (flush_on_close self)) = [].
Proof.
  unfold flush_on_close.
  destruct (Nat.ltb_spec 0 (List.length (rx_buffer self))) as [H|H];
    cbn [fst rx_buffer]; [reflexivity|].
  destruct (rx_buffer self); [reflexivity|simpl in H; lia].
Qed.

End Gap.

End ReceiveLogFacts.

(** X13. The receive log loses and invents nothing, whatever the timing:
    after any sequence of received chunks, flush-timer ticks, changes of the
    frame interval and closes of the port, the lines shown, joined, followed
    by what is still buffered are the bytes that were buffered at the start
    followed by the received chunks in order; no empty line is shown; and
    when the last event is the close of the port (or the loss of the
    connection) nothing stays buffered. *)
Theorem receive_log_conserves_bytes
  (gap_reached : Z -> Z -> Z -> bool)
  (self : SerialMonitorApp.rx_log)
  (events : list SerialMonitorApp.log_event) :
  let run := SerialMonitorApp.log_run gap_reached self in
  List.concat (snd (run events))
  ++ SerialMonitorApp.rx_buffer (fst (run events))
  = SerialMonitorApp.rx_buffer self ++ More.received_bytes events
  /\ Forall (fun shown => shown <> []) (snd (run events))
  /\ List.concat (snd (run (events ++ [SerialMonitorApp.Closed])))
     = SerialMonitorApp.rx_buffer self ++ More.received_bytes events.
Proof.
  cbv zeta.
  destruct (ReceiveLogFacts.log_run_conserves gap_reached events self)
    as [Hrun Hne].
  split; [exact Hrun|]. split; [exact Hne|].
  destruct (ReceiveLogFacts.log_run_conserves gap_reached
              (events ++ [SerialMonitorApp.Closed]) self) as [Hall _].
  rewrite ReceiveLogFacts.log_run_app in Hall. cbn [fst snd] in Hall.
  rewrite ReceiveLogFacts.log_run_cons in Hall.
  cbn [SerialMonitorApp.log_step SerialMonitorApp.log_run fst snd] in Hall.
  rewrite ReceiveLogFacts.closed_empties in Hall.
  rewrite ReceiveLogFacts.log_run_app, ReceiveLogFacts.log_run_cons.
  cbn [SerialMonitorApp.log_step SerialMonitorApp.log_run fst snd].
  rewrite app_nil_r in Hall. rewrite Hall.
  unfold More.received_bytes. rewrite flat_map_app. cbn [flat_map].
  now rewrite !app_nil_r.
Qed.

(** ** The curve path and the display path *)

Module TwoPaths.
Import PlotCanvas.

Ltac eval_name_tests :=
  repeat match goal with
         | |- context [String.eqb ?a ?b] =>
             let r := eval vm_compute in (String.eqb a b) in
             change (String.eqb a b) with r
         end;
  cbv iota.

Section Decoders.
Variable unpack_float : Struct.byteorder -> bytes -> Q.
Variable unpack_double : Struct.byteorder -> bytes -> Q.

(** The two [if]/[elif] chains on a type name that both dialogs offer. *)
Lemma chains_agree (dtype : string) (data : bytes) :
  In dtype More.shared_types ->
  match decode unpack_float unpack_double dtype data,
        SerialMonitorApp.parse_data_bytes unpack_float data dtype with
  | Return (Some q), SerialMonitorApp.Ok v =>
      SerialMonitorApp.to_number v = SerialMonitorApp.Ok q
  | Raise _, SerialMonitorApp.Err _ => True
  | _, _ => False
  end.
Proof.
  intros Hin. unfold More.shared_types in Hin. cbn [In] in Hin.
  repeat (destruct Hin as [Hin|Hin]; [subst dtype|]); try contradiction;
    unfold decode, SerialMonitorApp.parse_data_bytes;
    eval_name_tests;
    unfold unpack_Z, SerialMonitorApp.unpack_int_value, unpack_ieee,
      SerialMonitorApp.unpack_float_value, Struct.unpack_int;
    try (destruct (Py.getitem data 0); exact I || reflexivity);
    try (destruct (Struct.unpack_uint _ _ _); exact I || reflexivity);
    destruct (List.length _ =? 4)%nat; exact I || reflexivity.
Qed.

Lemma shared_not_string (dtype : string) :
  In dtype More.shared_types ->
  (dtype =? "string (ASCII)")%string = false.
Proof.
  intros Hin. unfold More.shared_types in Hin. cbn [In] in Hin.
  repeat (destruct Hin as [Hin|Hin]; [subst dtype; reflexivity|]).
  contradiction.
Qed.

End Decoders.

End TwoPaths.

(** X14. A display window and a curve with the same field descriptor show
    the same number: for each of the twelve type names that both dialogs
    offer and a curve that is not in bit mode, [parse_custom_display_data]
    updates the window with exactly the value [parse_value_from_frame]
    returns, and leaves the window alone exactly when the curve gets
    [None]. *)
Theorem display_shows_what_curve_plots
  (unpack_float unpack_double : Struct.byteorder -> bytes -> Q)
  (frame : bytes) (c : PlotCanvas.curve_config) (protocol : option string) :
  PlotCanvas.bit_mode c = false ->
  In (PlotCanvas.data_type c) More.shared_types ->
  SerialMonitorApp.display_value unpack_float frame (More.as_display c protocol)
  = More.plotted
      (PlotCanvas.parse_value_from_frame unpack_float unpack_double frame c).
Proof.
  intros Hbit Hin.
  unfold SerialMonitorApp.display_value, SerialMonitorApp.display_body,
    PlotCanvas.parse_value_from_frame, PlotCanvas.parse_value_body,
    More.as_display, More.plotted.
  cbn [SerialMonitorApp.d_start_byte SerialMonitorApp.d_byte_count
       SerialMonitorApp.d_data_type SerialMonitorApp.d_coefficient
       SerialMonitorApp.d_divisor SerialMonitorApp.d_offset].
  rewrite Hbit, Z.gtb_ltb, (TwoPaths.shared_not_string _ Hin).
  destruct (_ <? _); [reflexivity|]. cbn [negb].
  pose proof (TwoPaths.chains_agree unpack_float unpack_double
                (PlotCanvas.data_type c)
                (Py.slice frame (PlotCanvas.start_byte c)
                   (PlotCanvas.start_byte c + PlotCanvas.byte_count c)) Hin)
    as Hagree.
  destruct (PlotCanvas.decode _ _ _ _) as [[q|]|e];
    destruct (SerialMonitorApp.parse_data_bytes _ _ _) as [v|e'];
    try contradiction; cbn [PlotCanvas.bind SerialMonitorApp.bind];
    [|reflexivity].
  rewrite Hagree. cbn [SerialMonitorApp.bind].
  unfold PlotCanvas.true_div, SerialMonitorApp.true_div.
  now destruct (Qeq_bool _ _).
Qed.

(** ** The default curves *)

Module DefaultCurvesFacts.
Import PlotCanvas.

Lemma slice_length_needs (frame : bytes) (i n : nat) :
  (0 < n)%nat ->
  List.length (Py.slice frame (Z.of_nat i) (Z.of_nat (i + n))) = n ->
  (i + n <= List.length frame)%nat.
Proof.
  intros Hn. unfold Py.slice, Py.clamp.
  destruct (Z.ltb_spec (Z.of_nat i) 0); [lia|].
  destruct (Z.ltb_spec (Z.of_nat (i + n)) 0); [lia|].
  rewrite length_firstn, length_skipn. lia.
Qed.

Lemma unpack_uint_needs (o : Struct.byteorder) (frame : bytes) (i n : nat)
  (v : Z) :
  (0 < n)%nat ->
  Struct.unpack_uint o n (Py.slice frame (Z.of_nat i) (Z.of_nat (i + n)))
  = Some v ->
  (i + n <= List.length frame)%nat
  /\ v = Struct.unsigned_value o
           (Py.slice frame (Z.of_nat i) (Z.of_nat (i + n))).
Proof.
  intros Hn. unfold Struct.unpack_uint.
  destruct (Nat.eqb_spec
              (List.length (Py.slice frame (Z.of_nat i) (Z.of_nat (i + n))))
              n) as [Hl|]; [|discriminate].
  intros [= <-]. split; [now apply slice_length_needs|reflexivity].
Qed.

Section Decoders.
Variable unpack_float : Struct.byteorder -> bytes -> Q.
Variable unpack_double : Struct.byteorder -> bytes -> Q.

(** A default curve reads its field and divides it. *)
Lemma default_curve_value (frame : bytes) (i n : nat) (dtype : string)
  (k : scalar) (d : Q) :
  In (dtype, k) type_table -> scalar_size k = n -> (0 < n)%nat ->
  (i + n <= List.length frame)%nat ->
  Qeq_bool d 0 = false ->
  parse_value_from_frame unpack_float unpack_double frame
    (DefaultCurves.curve (Z.of_nat i) (Z.of_nat n) dtype d)
  = Some (raw_value unpack_float unpack_double k
            (Py.slice frame (Z.of_nat i) (Z.of_nat (i + n))) * 1 / d + 0)%Q.
Proof.
  intros Hin Hk Hn Hl Hd.
  unfold parse_value_from_frame, parse_value_body, DefaultCurves.curve.
  cbn [start_byte byte_count data_type bit_mode coefficient divisor offset].
  destruct (Z.gtb_spec (Z.of_nat i + Z.of_nat n)
              (Z.of_nat (List.length frame))); [lia|].
  replace (Z.of_nat i + Z.of_nat n) with (Z.of_nat (i + n)) by lia.
  assert (Hlen : List.length (Py.slice frame (Z.of_nat i) (Z.of_nat (i + n)))
                 = n).
  { rewrite slice_within by lia. rewrite length_firstn, length_skipn. lia. }
  rewrite (Extract.decode_known unpack_float unpack_double dtype k _ Hin)
    by lia.
  cbn [bind]. unfold true_div. rewrite Hd. cbn [bind].
  rewrite Hk, <- Hlen at 1. now rewrite firstn_all.
Qed.

End Decoders.

End DefaultCurvesFacts.

(** X15. The three default curves plot what the built-in parser decodes:
    on every frame that [DataParser.decode] accepts, the curves of
    [init_default_curves] return the CO concentration, the average CO
    concentration (raw value over 600) and the temperature (raw value over
    10) of the decoded result. *)
Theorem default_curves_plot_decoded_fields
  (unpack_float unpack_double : Struct.byteorder -> bytes -> Q)
  (frame : bytes) (r : DataParser.result) :
  DataParser.decode frame = Some r ->
  exists co avg temp,
    map (PlotCanvas.parse_value_from_frame unpack_float unpack_double frame)
      DefaultCurves.default_curves
    = [Some co; Some avg; Some temp]
    /\ (co == inject_Z (DataParser.co_concentration r))%Q
    /\ (avg == DataParser.co_avg r)%Q
    /\ (temp == DataParser.temperature r)%Q.
Proof.
  unfold DataParser.decode, Struct.unpack_int.
  destruct (Struct.unpack_uint Struct.LE 2 (Py.slice frame 2 4))
    as [co|] eqn:H1; [|discriminate].
  destruct (Struct.unpack_uint Struct.LE 4 (Py.slice frame 4 8))
    as [avg|] eqn:H2; [|discriminate].
  destruct (Struct.unpack_uint Struct.LE 2 (Py.slice frame 8 10))
    as [temp|] eqn:H3; [|discriminate].
  cbn [option_map]. intros [= <-].
  cbn [DataParser.co_concentration DataParser.co_avg DataParser.temperature].
  apply (DefaultCurvesFacts.unpack_uint_needs Struct.LE frame 2 2)
    in H1 as [Hl1 ->]; [|lia].
  apply (DefaultCurvesFacts.unpack_uint_needs Struct.LE frame 4 4)
    in H2 as [Hl2 ->]; [|lia].
  apply (DefaultCurvesFacts.unpack_uint_needs Struct.LE frame 8 2)
    in H3 as [Hl3 ->]; [|lia].
  pose proof (DefaultCurvesFacts.default_curve_value unpack_float
                unpack_double frame 2 2 "uint16 (LE)"
                (PlotCanvas.UInt Struct.LE 2) 1%Q
                ltac:(cbn; tauto) eq_refl ltac:(lia) Hl1 eq_refl) as E1.
  pose proof (DefaultCurvesFacts.default_curve_value unpack_float
                unpack_double frame 4 4 "uint32 (LE)"
                (PlotCanvas.UInt Struct.LE 4) 600%Q
                ltac:(cbn; tauto) eq_refl ltac:(lia) Hl2 eq_refl) as E2.
  pose proof (DefaultCurvesFacts.default_curve_value unpack_float
                unpack_double frame 8 2 "int16 (LE)"
                (PlotCanvas.SInt Struct.LE 2) 10%Q
                ltac:(cbn; tauto) eq_refl ltac:(lia) Hl3 eq_refl) as E3.
  change (Z.of_nat 2) with 2 in *. change (Z.of_nat (2 + 2)) with 4 in *.
  change (Z.of_nat 4) with 4 in *. change (Z.of_nat (4 + 4)) with 8 in *.
  change (Z.of_nat 8) with 8 in *. change (Z.of_nat (8 + 2)) with 10 in *.
  unfold DefaultCurves.default_curves. cbn [map].
  rewrite E1, E2, E3.
  eexists _, _, _. split; [reflexivity|].
  cbn [PlotCanvas.raw_value].
  change (inject_Z 600) with 600%Q. change (inject_Z 10) with 10%Q.
  repeat split; field.
Qed.

(** ** Text fields *)

Module AsciiFacts.
Import SerialMonitorApp.

(** [rstrip] removes a run of NUL bytes from the end, and all of it. *)
Lemma rstrip_nul_spec (data : bytes) :
  exists zeros,
    data = rstrip_nul data ++ zeros
    /\ Forall (fun b => b = 0) zeros
    /\ last (rstrip_nul data) 1 <> 0.
Proof.
  induction data as [|b rest (zeros & Hsplit & Hz & Hlast)].
  - exists []. cbn. repeat split; [constructor|lia].
  - cbn [rstrip_nul].
    destruct (rstrip_nul rest) as [|k kept] eqn:Hr.
    + destruct (Z.eqb_spec b 0) as [->|Hb].
      * exists (0 :: zeros). cbn [app] in *. subst rest.
        repeat split; [now constructor|cbn; lia].
      * exists zeros. cbn [app] in *. subst rest.
        repeat split; [assumption|cbn; assumption].
    + exists zeros. rewrite Hsplit at 1.
      repeat split; [assumption|]. exact Hlast.
Qed.

Lemma forallb_strip (f : Z -> bool) (data : bytes) :
  f 0 = true -> forallb f (rstrip_nul data) = forallb f data.
Proof.
  intros H0. destruct (rstrip_nul_spec data) as (zeros & Hsplit & Hz & _).
  rewrite Hsplit at 2. rewrite forallb_app.
  assert (Hzeros : forallb f zeros = true).
  { apply forallb_forall. intros x Hx.
    rewrite Forall_forall in Hz. now rewrite (Hz x Hx). }
  rewrite Hzeros. now rewrite andb_true_r.
Qed.

End AsciiFacts.

(** X16. A text field never fails and is never scaled.  With the type
    [string (ASCII)] and a frame long enough for the field, the window is
    updated with a string whatever the bytes, the coefficient, the divisor
    (zero included) and the offset are.  When every byte of the field is
    below 128 the string is the field without its trailing NUL bytes: all of
    them are removed and nothing else.  When some byte is 128 or more the
    string has one character per byte of the whole field, trailing NUL bytes
    included, with U+FFFD for each byte of 128 or more. *)
Theorem text_field_decoding
  (unpack_float : Struct.byteorder -> bytes -> Q)
  (frame : bytes) (d : SerialMonitorApp.display_config) :
  SerialMonitorApp.d_data_type d = "string (ASCII)"%string ->
  ~ More.too_short frame (SerialMonitorApp.d_start_byte d)
      (SerialMonitorApp.d_byte_count d) ->
  let field :=
    Py.slice frame (SerialMonitorApp.d_start_byte d)
      (SerialMonitorApp.d_start_byte d + SerialMonitorApp.d_byte_count d) in
  exists s,
    SerialMonitorApp.display_value unpack_float frame d
    = Some (SerialMonitorApp.Str s)
    /\ (forallb (fun b => b <? 128) field = true ->
        exists zeros,
          field = s ++ zeros /\ Forall (fun b => b = 0) zeros
          /\ last s 1 <> 0)
    /\ (forallb (fun b => b <? 128) field = false ->
        s = map (fun b => if b <? 128 then b else 0xFFFD) field
        /\ List.length s = List.length field).
Proof.
  intros Ht Hlong field.
  unfold SerialMonitorApp.display_value, SerialMonitorApp.display_body.
  rewrite Ht. fold field.
  destruct (Z.ltb_spec (Z.of_nat (List.length frame))
              (SerialMonitorApp.d_start_byte d
               + SerialMonitorApp.d_byte_count d)) as [Hs|_];
    [now elim Hlong|].
  unfold SerialMonitorApp.parse_data_bytes.
  TwoPaths.eval_name_tests.
  unfold SerialMonitorApp.decode_ascii.
  rewrite (AsciiFacts.forallb_strip (fun b => b <? 128) field eq_refl).
  destruct (forallb (fun b => b <? 128) field) eqn:Hall;
    cbn [SerialMonitorApp.bind negb]; eexists; (split; [reflexivity|]).
  - split; [|discriminate]. intros _.
    exact (AsciiFacts.rstrip_nul_spec field).
  - split; [discriminate|]. intros _.
    unfold SerialMonitorApp.decode_ascii_replace.
    split; [reflexivity|apply length_map].
Qed.

(** ** Status lamps *)

Module LampFacts.
Import SerialMonitorApp.



End LampFacts.


(** ** Which windows a frame updates *)

Module Routing.
Import SerialMonitorApp.

Section Decoders.
Variable unpack_float : Struct.byteorder -> bytes -> Q.






End Decoders.

End Routing.


(** ** The received clock *)

Module ClockFacts.
Import SerialMonitorApp.

Section Decoders.
Variable unpack_float : Struct.byteorder -> bytes -> Q.

(** The year types of the clock dialog read an [int]. *)
Lemma year_is_int (data : bytes) (year_type : string) (v : value) :
  In year_type More.year_types ->
  parse_data_bytes unpack_float data year_type = Ok v ->
  exists year, v = Int year.
Proof.
  intros Hin. unfold More.year_types in Hin. cbn [In] in Hin.
  repeat (destruct Hin as [Hin|Hin]; [subst year_type|]); try contradiction;
    unfold parse_data_bytes; TwoPaths.eval_name_tests;
    unfold unpack_int_value.
  - destruct (Struct.unpack_uint _ _ _); cbn; [|discriminate].
    intros [= <-]. now eexists.
  - destruct (Struct.unpack_uint _ _ _); cbn; [|discriminate].
    intros [= <-]. now eexists.
  - destruct (Py.getitem data 0); cbn; [|discriminate].
    intros [= <-]. now eexists.
Qed.

End Decoders.

End ClockFacts.

(** X19. The received clock is updated all at once or not at all: with a
    year type of the clock dialog, [update_received_clock] either touches
    nothing, or sets the time label, the date label and the stored time
    together, and then the clock is enabled, the frame is long enough for
    the year field, the year is what [parse_data_bytes] reads there, and
    month, day, hour, minute and second are the frame bytes at their
    configured offsets. *)
Theorem received_clock_all_or_nothing
  (unpack_float : Struct.byteorder -> bytes -> Q)
  (config : SerialMonitorApp.clock_config) (data : bytes) :
  In (SerialMonitorApp.c_year_type config) More.year_types ->
  SerialMonitorApp.update_received_clock unpack_float (Some config) data = []
  \/ exists year month day hour minute second,
       SerialMonitorApp.update_received_clock unpack_float (Some config) data
       = [SerialMonitorApp.ReceivedTimeLabel hour minute second;
          SerialMonitorApp.ReceivedDateLabel year month day;
          SerialMonitorApp.ReceivedTime year month day hour minute second]
       /\ SerialMonitorApp.c_enabled config = true
       /\ ~ More.too_short data (SerialMonitorApp.c_year_start config)
            (SerialMonitorApp.c_year_count config)
       /\ SerialMonitorApp.parse_data_bytes unpack_float
            (Py.slice data (SerialMonitorApp.c_year_start config)
               (SerialMonitorApp.c_year_start config
                + SerialMonitorApp.c_year_count config))
            (SerialMonitorApp.c_year_type config)
          = SerialMonitorApp.Ok (SerialMonitorApp.Int year)
       /\ Py.getitem data (SerialMonitorApp.c_month_start config) = Some month
       /\ Py.getitem data (SerialMonitorApp.c_day_start config) = Some day
       /\ Py.getitem data (SerialMonitorApp.c_hour_start config) = Some hour
       /\ Py.getitem data (SerialMonitorApp.c_minute_start config)
          = Some minute
       /\ Py.getitem data (SerialMonitorApp.c_second_start config)
          = Some second.
Proof.
  intros Hty. unfold SerialMonitorApp.update_received_clock.
  destruct (SerialMonitorApp.c_enabled config) eqn:He; cbn [negb];
    [|now left].
  unfold SerialMonitorApp.clock_body. cbv zeta beta.
  destruct (Z.ltb_spec (Z.of_nat (List.length data))
              (SerialMonitorApp.c_year_start config
               + SerialMonitorApp.c_year_count config)) as [|Hlong];
    [now left|].
  destruct (SerialMonitorApp.parse_data_bytes _ _ _) as [v|] eqn:Hyear;
    [|now left].
  destruct (ClockFacts.year_is_int unpack_float _ _ _ Hty Hyear)
    as [year ->].
  repeat match goal with
         | |- context [if ?len <=? ?start then _ else _] =>
             destruct (len <=? start); [now left|]
         | |- context [match Py.getitem data ?start with _ => _ end] =>
             let b := fresh "b" in
             let Hb := fresh "Hb" in
             destruct (Py.getitem data start) as [b|] eqn:Hb; [|now left]
         end.
  cbn [SerialMonitorApp.format_d fst]. right.
  eexists _, _, _, _, _, _. split; [reflexivity|].
  unfold More.too_short. repeat split; (assumption || lia || reflexivity).
Qed.

(** ** The recorded history of the plot *)

Module HistoryFacts.
Import PlotHistory.

Section Decoders.
Variable unpack_float : Struct.byteorder -> bytes -> Q.
Variable unpack_double : Struct.byteorder -> bytes -> Q.

Lemma append_values_length frame name configs (data : list (list Q)) :
  List.length (append_values unpack_float unpack_double frame name configs data)
  = List.length data.
Proof.
  revert data. induction configs as [|config configs IH]; intros [|l data];
    cbn [append_values List.length]; auto.
Qed.

Lemma append_values_grow frame name configs (data : list (list Q)) (n : nat) :
  Forall (fun l => (List.length l <= n)%nat) data ->
  Forall (fun l => (List.length l <= S n)%nat)
    (append_values unpack_float unpack_double frame name configs data).
Proof.
  revert data. induction configs as [|config configs IH]; intros data H.
  - destruct data; cbn [append_values];
      (eapply Forall_impl; [|exact H]); cbv beta; intros; lia.
  - destruct data as [|l data]; cbn [append_values]; [constructor|].
    inversion H as [|? ? Hl Hrest]; subst.
    constructor; [rewrite length_app; cbn [List.length]; lia|].
    now apply IH.
Qed.

Lemma append_values_aligned frame name configs (data : list (list Q))
  (n : nat) :
  (List.length data <= List.length configs)%nat ->
  Forall (fun l => List.length l = n) data ->
  Forall (fun l => List.length l = S n)
    (append_values unpack_float unpack_double frame name configs data).
Proof.
  revert data. induction configs as [|config configs IH]; intros data Hlen H.
  - destruct data; [constructor|cbn [List.length] in Hlen; lia].
  - destruct data as [|l data]; cbn [append_values]; [constructor|].
    inversion H as [|? ? Hl Hrest]; subst.
    constructor; [rewrite length_app; cbn [List.length]; lia|].
    apply IH; [cbn [List.length] in Hlen; lia|assumption].
Qed.

Lemma pop_curves_length (data : list (list Q)) :
  List.length (pop_curves data) = List.length data.
Proof. apply length_map. Qed.

Lemma pop_curves_shrink (data : list (list Q)) (n : nat) :
  Forall (fun l => (List.length l <= S n)%nat) data ->
  Forall (fun l => (List.length l <= n)%nat) (pop_curves data).
Proof.
  intros H. unfold pop_curves. apply Forall_map.
  eapply Forall_impl; [|exact H]. cbv beta.
  intros [|x l]; cbn [List.length]; lia.
Qed.

Lemma pop_curves_aligned (data : list (list Q)) (n : nat) :
  Forall (fun l => List.length l = S n) data ->
  Forall (fun l => List.length l = n) (pop_curves data).
Proof.
  intros H. unfold pop_curves. apply Forall_map.
  eapply Forall_impl; [|exact H]. cbv beta.
  intros [|x l]; cbn [List.length]; lia.
Qed.

Lemma pop0_app {A} (l : list A) (x : A) :
  exists rest,
    pop0 (l ++ [x]) = Some rest /\ List.length rest = List.length l.
Proof.
  destruct l as [|y l]; cbn [app pop0]; eexists; split; try reflexivity.
  rewrite length_app. cbn [List.length]. lia.
Qed.

Lemma clear_data_bounded (self : t) : bounded self -> bounded (clear_data self).
Proof.
  intros (_ & _ & Hc & H50 & _). unfold bounded, clear_data.
  cbn [time_data timestamp_data curve_configs curve_data List.length].
  rewrite length_map. repeat split; try assumption; try lia.
  apply Forall_map. apply Forall_forall. intros l _. cbn. lia.
Qed.

Lemma clear_data_aligned (self : t) : aligned (clear_data self).
Proof.
  unfold aligned, clear_data. cbn [time_data curve_data].
  apply Forall_map. apply Forall_forall. reflexivity.
Qed.

Lemma set_curve_configs_bounded (self : t) (configs : list curve) :
  bounded self -> bounded (set_curve_configs self configs).
Proof.
  intros (Ht & Hts & _). unfold bounded, set_curve_configs.
  cbn [time_data timestamp_data curve_configs curve_data].
  rewrite length_map. repeat split; try assumption.
  - unfold Py.slice_to. rewrite length_firstn.
    unfold Py.clamp. change (50 <? 0) with false. cbv iota. lia.
  - apply Forall_map. apply Forall_forall. intros l _. cbn. lia.
Qed.

(** The three lists after the append and the bounded pop. *)
Lemma add_data_cases (saved : bool) (self : t) (d : data_dict) :
  exists time_data' timestamp_data' curve_data' start last,
    (add_data unpack_float unpack_double saved self d
     = Some {| time_data := time_data'; timestamp_data := timestamp_data';
               curve_configs := curve_configs self;
               curve_data := curve_data'; start_time := start;
               recording_start_time := start; last_auto_save_time := last |}
     \/ exists recording,
          add_data unpack_float unpack_double saved self d
          = Some {| time_data := time_data';
                    timestamp_data := timestamp_data';
                    curve_configs := curve_configs self;
                    curve_data := curve_data'; start_time := start;
                    recording_start_time := recording;
                    last_auto_save_time := last |})
    /\ (bounded self ->
        Z.of_nat (List.length time_data') <= 50000
        /\ List.length timestamp_data' = List.length time_data'
        /\ List.length curve_data' = List.length (curve_configs self)
        /\ Forall (fun l => (List.length l <= List.length time_data')%nat)
             curve_data')
    /\ (bounded self -> aligned self -> raw_frame d <> None ->
        Forall (fun l => List.length l = List.length time_data') curve_data').
Proof.
  unfold add_data. cbv zeta.
  set (elapsed := (inject_Z _ / 1000000)%Q).
  set (grown := match raw_frame d with
                | Some frame =>
                    append_values unpack_float unpack_double frame
                      (protocol_name d) (curve_configs self) (curve_data self)
                | None => curve_data self
                end).
  assert (Hgl : List.length grown = List.length (curve_data self)).
  { subst grown. destruct (raw_frame d);
      [apply append_values_length|reflexivity]. }
  assert (Hgrow : forall n,
            Forall (fun l => (List.length l <= n)%nat) (curve_data self) ->
            Forall (fun l => (List.length l <= S n)%nat) grown).
  { intros n H. subst grown. destruct (raw_frame d);
      [now apply append_values_grow|].
    eapply Forall_impl; [|exact H]. cbv beta. intros; lia. }
  assert (Halign : forall n,
            (List.length (curve_data self)
             <= List.length (curve_configs self))%nat ->
            raw_frame d <> None ->
            Forall (fun l => List.length l = n) (curve_data self) ->
            Forall (fun l => List.length l = S n) grown).
  { intros n Hlen Hraw H. subst grown. destruct (raw_frame d);
      [now apply append_values_aligned|congruence]. }
  clearbody grown.
  assert (Hsave : forall (s : t) (tm : Z),
    let s' := auto_save_and_reset saved s in
    (s' = s \/ s' = clear_data s)).
  { intros s tm. unfold auto_save_and_reset.
    destruct (_ =? _)%nat; [now left|]. destruct saved; [now right|now left]. }
  destruct (pop0_app (time_data self) elapsed) as (td & Htd & Htdl).
  destruct (pop0_app (timestamp_data self) (timestamp d)) as (ts & Hts & Htsl).
  assert (Happ1 : List.length (time_data self ++ [elapsed])
                  = S (List.length (time_data self)))
    by (rewrite length_app; cbn [List.length]; lia).
  assert (Happ2 : List.length (timestamp_data self ++ [timestamp d])
                  = S (List.length (timestamp_data self)))
    by (rewrite length_app; cbn [List.length]; lia).
  destruct (Z.ltb_spec 50000
              (Z.of_nat (List.length (time_data self ++ [elapsed]))))
    as [Hfull|Hroom].
  - rewrite Htd, Hts.
    set (last0 := if match start_time self with
                     | Some _ => false | None => true end
                  then Some (timestamp d) else last_auto_save_time self).
    assert (Hpop :
      (bounded self ->
       Z.of_nat (List.length td) <= 50000
       /\ List.length ts = List.length td
       /\ List.length (pop_curves grown) = List.length (curve_configs self)
       /\ Forall (fun l => (List.length l <= List.length td)%nat)
            (pop_curves grown))
      /\ (bounded self -> aligned self -> raw_frame d <> None ->
          Forall (fun l => List.length l = List.length td)
            (pop_curves grown))).
    { split.
      - intros (Ht & Hs & Hc & H50 & Hall).
        rewrite pop_curves_length, Hgl, Htdl, Htsl.
        repeat split; try assumption.
        apply pop_curves_shrink. now apply Hgrow.
      - intros (Ht & Hs & Hc & H50 & Hall) Hal Hraw. rewrite Htdl.
        apply pop_curves_aligned. apply Halign; [lia|assumption|exact Hal]. }
    destruct last0 as [last|].
    + destruct (auto_save_interval * 1000000 <=? timestamp d - last).
      * destruct (Hsave
                    {| time_data := td; timestamp_data := ts;
                       curve_configs := curve_configs self;
                       curve_data := pop_curves grown;
                       start_time :=
                         Some match start_time self with
                              | Some start => start
                              | None => timestamp d
                              end;
                       recording_start_time :=
                         if match start_time self with
                            | Some _ => false | None => true end
                         then Some (timestamp d)
                         else recording_start_time self;
                       last_auto_save_time := Some last |} 0) as [->| ->].
        -- eexists _, _, _, _, _. split; [right; eexists; reflexivity|].
           exact Hpop.
        -- cbn [clear_data time_data timestamp_data curve_configs curve_data
                start_time recording_start_time].
           eexists _, _, _, _, _. split; [left; reflexivity|].
           destruct Hpop as [Hb Ha]. split.
           ++ intros Hself. destruct (Hb Hself) as (_ & _ & Hc & _).
              cbn [List.length]. rewrite length_map.
              repeat split; try assumption; try lia.
              apply Forall_map. apply Forall_forall. intros l _. cbn. lia.
           ++ intros _ _ _. apply Forall_map. apply Forall_forall.
              reflexivity.
      * eexists _, _, _, _, _. split; [right; eexists; reflexivity|].
        exact Hpop.
    + eexists _, _, _, _, _. split; [right; eexists; reflexivity|].
      exact Hpop.
  - set (last0 := if match start_time self with
                     | Some _ => false | None => true end
                  then Some (timestamp d) else last_auto_save_time self).
    assert (Hkeep :
      (bounded self ->
       Z.of_nat (List.length (time_data self ++ [elapsed])) <= 50000
       /\ List.length (timestamp_data self ++ [timestamp d])
          = List.length (time_data self ++ [elapsed])
       /\ List.length grown = List.length (curve_configs self)
       /\ Forall (fun l => (List.length l
                            <= List.length (time_data self ++ [elapsed]))%nat)
            grown)
      /\ (bounded self -> aligned self -> raw_frame d <> None ->
          Forall (fun l => List.length l
                           = List.length (time_data self ++ [elapsed]))
            grown)).
    { split.
      - intros (Ht & Hs & Hc & H50 & Hall).
        rewrite Happ1, Happ2, Hgl, Hs.
        repeat split; try assumption; try lia.
        now apply Hgrow.
      - intros (Ht & Hs & Hc & H50 & Hall) Hal Hraw. rewrite Happ1.
        apply Halign; [lia|assumption|exact Hal]. }
    destruct last0 as [last|].
    + destruct (auto_save_interval * 1000000 <=? timestamp d - last).
      * destruct (Hsave
                    {| time_data := time_data self ++ [elapsed];
                       timestamp_data := timestamp_data self ++ [timestamp d];
                       curve_configs := curve_configs self;
                       curve_data := grown;
                       start_time :=
                         Some match start_time self with
                              | Some start => start
                              | None => timestamp d
                              end;
                       recording_start_time :=
                         if match start_time self with
                            | Some _ => false | None => true end
                         then Some (timestamp d)
                         else recording_start_time self;
                       last_auto_save_time := Some last |} 0) as [->| ->].
        -- eexists _, _, _, _, _. split; [right; eexists; reflexivity|].
           exact Hkeep.
        -- cbn [clear_data time_data timestamp_data curve_configs curve_data
                start_time recording_start_time].
           eexists _, _, _, _, _. split; [left; reflexivity|].
           destruct Hkeep as [Hb Ha]. split.
           ++ intros Hself. destruct (Hb Hself) as (_ & _ & Hc & _).
              cbn [List.length]. rewrite length_map.
              repeat split; try assumption; try lia.
              apply Forall_map. apply Forall_forall. intros l _. cbn. lia.
           ++ intros _ _ _. apply Forall_map. apply Forall_forall.
              reflexivity.
      * eexists _, _, _, _, _. split; [right; eexists; reflexivity|].
        exact Hkeep.
    + eexists _, _, _, _, _. split; [right; eexists; reflexivity|].
      exact Hkeep.
Qed.

Lemma step_keeps (self : t) (o : op) :
  bounded self ->
  exists self',
    step unpack_float unpack_double self o = Some self'
    /\ bounded self'
    /\ (aligned self -> keeps_alignment o -> aligned self').
Proof.
  intros Hb. destruct o as [saved d| |configs]; cbn [step keeps_alignment].
  - destruct (add_data_cases saved self d)
      as (td & ts & cd & start & last & Hrun & Hbound & Halign).
    destruct (Hbound Hb) as (H1 & H2 & H3 & H4).
    destruct Hb as (Ht & Hs & Hc & H50 & Hall).
    destruct Hrun as [-> | [recording ->]]; eexists; (split; [reflexivity|]);
      (split; [unfold bounded; cbn [time_data timestamp_data curve_configs
                                     curve_data]; repeat split; assumption|]);
      intros Hal Hraw; unfold aligned; cbn [time_data curve_data];
      apply Halign; try assumption; unfold bounded; repeat split; assumption.
  - eexists. split; [reflexivity|].
    split; [now apply clear_data_bounded|].
    intros _ _. apply clear_data_aligned.
  - eexists. split; [reflexivity|].
    split; [now apply set_curve_configs_bounded|]. intros _ [].
Qed.

End Decoders.

Lemma init_bounded : bounded init.
Proof.
  apply set_curve_configs_bounded. unfold bounded.
  cbn [time_data timestamp_data curve_configs curve_data List.length].
  repeat split; try lia. apply Forall_nil.
Qed.

Lemma init_aligned : aligned init.
Proof.
  unfold aligned, init, set_curve_configs. cbn [curve_data time_data].
  apply Forall_map. apply Forall_forall. reflexivity.
Qed.

End HistoryFacts.

(** X20. The recorded history of the plot stays bounded, and aligned.
    From a state in which the history holds at most 50000 points, one time
    stamp per point, one list per curve and no curve longer than the time
    axis (the state [__init__] leaves is one), every sequence of calls of
    [add_data], [clear_data] and [set_curve_configs] returns without an
    exception, whatever the frames and whether or not the auto-save
    succeeds, in a state of that kind.  If moreover every curve has one
    value per point at the start, and the calls are [add_data] with a frame
    and [clear_data] only, every curve has one value per point at the end:
    a curve of another protocol, or one whose field cannot be read, still
    gets a value for every frame. *)
Theorem plot_history_bounded_and_aligned
  (unpack_float unpack_double : Struct.byteorder -> bytes -> Q)
  (self : PlotHistory.t) (ops : list PlotHistory.op) :
  PlotHistory.bounded self ->
  PlotHistory.bounded PlotHistory.init
  /\ PlotHistory.aligned PlotHistory.init
  /\ exists self',
       PlotHistory.run unpack_float unpack_double self ops = Some self'
       /\ PlotHistory.bounded self'
       /\ (PlotHistory.aligned self ->
           Forall PlotHistory.keeps_alignment ops ->
           PlotHistory.aligned self').
Proof.
  intros Hb.
  split; [exact HistoryFacts.init_bounded|].
  split; [exact HistoryFacts.init_aligned|].
  revert self Hb. induction ops as [|o ops IH]; intros self Hb.
  - exists self. cbn [PlotHistory.run]. split; [reflexivity|].
    split; [exact Hb|]. intros Hal _. exact Hal.
  - cbn [PlotHistory.run].
    destruct (HistoryFacts.step_keeps unpack_float unpack_double self o Hb)
      as (s1 & -> & Hb1 & Hal1).
    destruct (IH s1 Hb1) as (s2 & Hrun & Hb2 & Hal2).
    exists s2. split; [exact Hrun|]. split; [exact Hb2|].
    intros Hal Hops. inversion Hops as [|? ? Ho Hrest]; subst.
    apply Hal2; [now apply Hal1|exact Hrest].
Qed.

(** ** Hexadecimal text *)

Module HexText.
Import SerialMonitorApp.

Lemma nibble_cases (d : Z) :
  0 <= d < 16 ->
  d = 0 \/ d = 1 \/ d = 2 \/ d = 3 \/ d = 4 \/ d = 5 \/ d = 6 \/ d = 7
  \/ d = 8 \/ d = 9 \/ d = 10 \/ d = 11 \/ d = 12 \/ d = 13 \/ d = 14
  \/ d = 15.
Proof. lia. Qed.

(** A digit written by [f'{b:02X}'] reads back, and is none of the
    characters that are removed or skipped. *)
Lemma digit_facts (d : Z) :
  0 <= d < 16 ->
  hex_value (GenericProtocolParser.hex_digit d) = Some d
  /\ is_space (GenericProtocolParser.hex_digit d) = false
  /\ Ascii.eqb (GenericProtocolParser.hex_digit d) " " = false
  /\ Ascii.eqb (GenericProtocolParser.hex_digit d) "010" = false
  /\ Ascii.eqb (GenericProtocolParser.hex_digit d) "013" = false.
Proof.
  intros Hd. pose proof (nibble_cases d Hd) as Hc.
  repeat (destruct Hc as [->|Hc]; [repeat split; reflexivity|]).
  subst d. repeat split; reflexivity.
Qed.

Lemma pack_byte (b : Z) :
  0 <= b < 256 -> Z.lor (Z.shiftl (b / 16) 4) (b mod 16) = b.
Proof.
  intros Hb.
  assert (Hall : forallb (fun n => Z.lor (Z.shiftl (Z.of_nat n / 16) 4)
                                     (Z.of_nat n mod 16) =? Z.of_nat n)
                   (seq 0 256) = true) by (vm_compute; reflexivity).
  rewrite forallb_forall in Hall. specialize (Hall (Z.to_nat b)).
  rewrite Z2Nat.id in Hall by lia. apply Z.eqb_eq, Hall, in_seq. lia.
Qed.

Lemma nibbles (b : Z) :
  0 <= b < 256 -> 0 <= b / 16 < 16 /\ 0 <= b mod 16 < 16.
Proof.
  intros Hb. split.
  - split; [apply Z.div_pos; lia|apply Z.div_lt_upper_bound; lia].
  - apply Z.mod_pos_bound. lia.
Qed.

Lemma fromhex_pair (b : Z) (rest : string) :
  0 <= b < 256 ->
  fromhex (String (GenericProtocolParser.hex_digit (b / 16))
             (String (GenericProtocolParser.hex_digit (b mod 16)) rest))
  = match fromhex rest with
    | Some data => Some (b :: data)
    | None => None
    end.
Proof.
  intros Hb. destruct (nibbles b Hb) as [Hhi Hlo].
  destruct (digit_facts _ Hhi) as (Hv1 & Hs1 & _).
  destruct (digit_facts _ Hlo) as (Hv2 & _).
  cbn [fromhex]. rewrite Hs1, Hv1, Hv2. now rewrite pack_byte.
Qed.

Lemma remove_pair (c : ascii) (b : Z) (rest : string) :
  0 <= b < 256 ->
  (forall d, 0 <= d < 16 ->
             Ascii.eqb (GenericProtocolParser.hex_digit d) c = false) ->
  remove_char c
    (String (GenericProtocolParser.hex_digit (b / 16))
       (String (GenericProtocolParser.hex_digit (b mod 16)) rest))
  = String (GenericProtocolParser.hex_digit (b / 16))
      (String (GenericProtocolParser.hex_digit (b mod 16))
         (remove_char c rest)).
Proof.
  intros Hb Hc. destruct (nibbles b Hb) as [Hhi Hlo].
  cbn [remove_char]. now rewrite (Hc _ Hhi), (Hc _ Hlo).
Qed.

(** The text of a frame, byte by byte. *)
Lemma hex_of_frame_cons (b : Z) (frame : bytes) :
  GenericProtocolParser.hex_of_frame (b :: frame)
  = String (GenericProtocolParser.hex_digit (b / 16))
      (String (GenericProtocolParser.hex_digit (b mod 16))
         match frame with
         | [] => EmptyString
         | _ :: _ =>
             String " " (GenericProtocolParser.hex_of_frame frame)
         end).
Proof.
  unfold GenericProtocolParser.hex_of_frame. cbn [map String.concat].
  destruct frame as [|b' frame]; reflexivity.
Qed.

Lemma spaces_removed (frame : bytes) :
  is_bytes frame ->
  remove_char " " (GenericProtocolParser.hex_of_frame frame) = More.digits frame.
Proof.
  induction 1 as [|b frame Hb Hrest IH]; [reflexivity|].
  rewrite hex_of_frame_cons, remove_pair;
    [|exact Hb|intros d Hd; now destruct (digit_facts d Hd) as (_ & _ & H & _)].
  cbn [More.digits]. do 2 f_equal.
  destruct frame; [reflexivity|]. cbn [remove_char].
  change (Ascii.eqb " " " ") with true. cbv iota. exact IH.
Qed.

Lemma digits_kept (c : ascii) (frame : bytes) :
  is_bytes frame ->
  (forall d, 0 <= d < 16 ->
             Ascii.eqb (GenericProtocolParser.hex_digit d) c = false) ->
  remove_char c (More.digits frame) = More.digits frame.
Proof.
  intros Hf Hc. induction Hf as [|b frame Hb Hrest IH]; [reflexivity|].
  cbn [More.digits]. rewrite remove_pair by assumption. now rewrite IH.
Qed.

Lemma digits_read_back (frame : bytes) :
  is_bytes frame -> fromhex (More.digits frame) = Some frame.
Proof.
  induction 1 as [|b frame Hb Hrest IH]; [reflexivity|].
  cbn [More.digits]. rewrite fromhex_pair by exact Hb. now rewrite IH.
Qed.

End HexText.

(** X21. Hexadecimal text round trip: the text the monitor writes for a
    byte string (two upper-case digits per byte, joined by spaces), entered
    as a command in HEX mode, is sent as exactly those bytes; the
    conversion does not raise. *)
Theorem hex_text_round_trip (frame : bytes) :
  is_bytes frame ->
  SerialMonitorApp.hex_text_to_bytes
    (GenericProtocolParser.hex_of_frame frame)
  = Some frame.
Proof.
  intros Hf. unfold SerialMonitorApp.hex_text_to_bytes.
  rewrite (HexText.spaces_removed frame Hf).
  rewrite (HexText.digits_kept "010" frame Hf)
    by (intros d Hd;
        now destruct (HexText.digit_facts d Hd) as (_ & _ & _ & H & _)).
  rewrite (HexText.digits_kept "013" frame Hf)
    by (intros d Hd;
        now destruct (HexText.digit_facts d Hd) as (_ & _ & _ & _ & H)).
  now apply HexText.digits_read_back.
Qed.

(** ** The further theorems at concrete inputs *)

(** X1 at A8 01 under CRC16-XMODEM. *)
Lemma send_checksum_accepted_witness :
  exists trailer,
    SerialMonitorApp.add_crc_to_data [0xA8; 0x01] SerialMonitorApp.SendXmodem
    = Some ([0xA8; 0x01] ++ trailer)
    /\ GenericProtocolParser._verify_crc Examples.xmodem_cfg
         ([0xA8; 0x01] ++ trailer) = true.
Proof.
  assert (Hb : is_bytes [0xA8; 0x01])
    by (repeat (apply Forall_cons; [unfold is_byte; lia|]); apply Forall_nil).
  destruct (send_checksum_accepted Examples.xmodem_cfg [0xA8; 0x01]
              SerialMonitorApp.SendXmodem Hb ltac:(discriminate) eq_refl)
    as (trailer & Hadd & _ & _ & Hv).
  exists trailer. split; [exact Hadd|exact Hv].
Defined.

(** X2 at 2026-11-04 07:22:05. *)
Lemma calibration_command_verifies_witness :
  exists command,
    SerialMonitor.calibrate_time true Examples.clock = Some command
    /\ GenericProtocolParser._verify_crc Examples.xmodem_cfg command = true.
Proof.
  assert (Hv : Calibration.valid_datetime Examples.clock).
  { unfold Calibration.valid_datetime. simpl. lia. }
  destruct (calibration_command_verifies Examples.xmodem_cfg Examples.clock
              Hv eq_refl) as (command & Hc & _ & Hok).
  exists command. split; [exact Hc|exact Hok].
Defined.

(** X3 at 59. *)
Lemma decimal_to_bcd_nibbles_witness :
  0 <= 59 < 160
  /\ 10 * (SerialMonitor.decimal_to_bcd 59 / 16)
     + SerialMonitor.decimal_to_bcd 59 mod 16 = 59.
Proof.
  assert (Hr : 0 <= 59 < 160) by lia.
  split; [exact Hr|].
  destruct (decimal_to_bcd_nibbles 59) as (_ & _ & _ & H).
  destruct (H Hr) as (_ & _ & H3). exact H3.
Defined.

(** X4 at the command 01 00 00 0D filled with 0x1234. *)
Lemma fill_data_round_trip_witness :
  exists filled,
    SerialMonitorApp.fill_data [0x01; 0x00; 0x00; 0x0D] 0x1234 0 65535
    = Some filled
    /\ Struct.unpack_uint Struct.BE 2 (Py.slice filled 1 3) = Some 0x1234.
Proof.
  destruct (fill_data_round_trip [0x01; 0x00; 0x00; 0x0D] 0x1234 0 65535)
    as [_ H].
  eexists. split; [reflexivity|].
  destruct (H _ eq_refl) as (_ & _ & _ & _ & H5). apply H5. lia.
Defined.

(** X5 at two frames under the additive checksum. *)
Lemma back_to_back_frames_witness :
  Frames.feed (GenericProtocolParser.init Examples.sum_cfg)
    (List.concat [Examples.sum_frame1; Examples.sum_frame2])
  = Some (GenericProtocolParser.init Examples.sum_cfg,
          map (GenericProtocolParser.make_result Examples.sum_cfg)
            [Examples.sum_frame1; Examples.sum_frame2]).
Proof.
  apply (back_to_back_frames Examples.sum_cfg
           [Examples.sum_frame1; Examples.sum_frame2]).
  - reflexivity.
  - simpl. lia.
  - simpl. lia.
  - repeat (apply Forall_cons; [repeat split; reflexivity|]).
    apply Forall_nil.
Defined.

(** X6 at the same frame of the built-in protocol twice. *)
Lemma back_to_back_default_frames_witness :
  exists rs,
    Frames.feed_default DataParser.init
      (List.concat [Examples.default_frame; Examples.default_frame])
    = Some (DataParser.init, rs)
    /\ map DataParser.raw_frame rs
       = [Examples.default_frame; Examples.default_frame].
Proof.
  apply (back_to_back_default_frames
           [Examples.default_frame; Examples.default_frame]).
  repeat (apply Forall_cons; [repeat split; reflexivity|]).
  apply Forall_nil.
Defined.

(** X7 at two bytes before A8 01 F6 84 and one byte before a frame of the
    built-in protocol. *)
Lemma leading_garbage_skipped_witness :
  Frames.feed (GenericProtocolParser.init Examples.xmodem_cfg)
    ([0x00; 0x55] ++ Examples.xmodem_frame)
  = Some (GenericProtocolParser.init Examples.xmodem_cfg,
          [GenericProtocolParser.make_result Examples.xmodem_cfg
             Examples.xmodem_frame])
  /\ exists r,
       DataParser.raw_frame r = Examples.default_frame
       /\ Frames.feed_default DataParser.init ([0x01] ++ Examples.default_frame)
          = Some (DataParser.init, [r]).
Proof.
  apply (leading_garbage_skipped Examples.xmodem_cfg [0x00; 0x55]
           Examples.xmodem_frame [0x01] Examples.default_frame).
  - reflexivity.
  - discriminate.
  - simpl. lia.
  - repeat split; reflexivity.
  - reflexivity.
  - repeat split; reflexivity.
  - reflexivity.
Defined.

(** X9 at a fresh parser fed two frames among garbage. *)
Lemma generic_parser_leftover_witness :
  exists p' out,
    Frames.feed (GenericProtocolParser.init Examples.xmodem_cfg)
      MoreExamples.noisy_buffer = Some (p', out)
    /\ More.suffix_of (GenericProtocolParser.buffer p')
         ([] ++ MoreExamples.noisy_buffer)
    /\ (4 * List.length out + List.length (GenericProtocolParser.buffer p')
        <= List.length ([] ++ MoreExamples.noisy_buffer))%nat.
Proof.
  assert (E : Frames.feed (GenericProtocolParser.init Examples.xmodem_cfg)
                MoreExamples.noisy_buffer
              = Some ({| GenericProtocolParser.config := Examples.xmodem_cfg;
                         GenericProtocolParser.buffer := [0x01] |},
                      [GenericProtocolParser.make_result Examples.xmodem_cfg
                         Examples.xmodem_frame;
                       GenericProtocolParser.make_result Examples.xmodem_cfg
                         Examples.xmodem_frame]))
    by reflexivity.
  destruct (generic_parser_leftover _ _ _ _ E) as (_ & _ & Hsuf & Hcount).
  eexists _, _. split; [exact E|]. split; [exact Hsuf|exact Hcount].
Defined.

(** X10 at the buffers two frames among garbage, and a frame of the built-in
    protocol followed by one byte, leave behind. *)
Lemma parse_twice_is_parse_once_witness :
  GenericProtocolParser.parse
    {| GenericProtocolParser.config := Examples.xmodem_cfg;
       GenericProtocolParser.buffer := [0x01] |}
  = Some ({| GenericProtocolParser.config := Examples.xmodem_cfg;
             GenericProtocolParser.buffer := [0x01] |}, [])
  /\ DataParser.parse [0xA8] = Some ([0xA8], []).
Proof.
  eapply (parse_twice_is_parse_once
            {| GenericProtocolParser.config := Examples.xmodem_cfg;
               GenericProtocolParser.buffer := MoreExamples.noisy_buffer |}
            _
            [GenericProtocolParser.make_result Examples.xmodem_cfg
               Examples.xmodem_frame;
             GenericProtocolParser.make_result Examples.xmodem_cfg
               Examples.xmodem_frame]
            (Examples.default_frame ++ [0xA8]) _
            match DataParser.decode Examples.default_frame with
            | Some r => [r]
            | None => []
            end).
  - reflexivity.
  - reflexivity.
Defined.

(** X12 at the same two buffers. *)
Lemma frames_are_carved_from_the_buffer_witness :
  More.carved [Examples.xmodem_frame; Examples.xmodem_frame] [0x01]
    MoreExamples.noisy_buffer
  /\ More.carved [Examples.default_frame] [0xA8]
       (Examples.default_frame ++ [0xA8]).
Proof.
  assert (E : GenericProtocolParser.parse
                {| GenericProtocolParser.config := Examples.xmodem_cfg;
                   GenericProtocolParser.buffer := MoreExamples.noisy_buffer |}
              = Some ({| GenericProtocolParser.config := Examples.xmodem_cfg;
                         GenericProtocolParser.buffer := [0x01] |},
                      [GenericProtocolParser.make_result Examples.xmodem_cfg
                         Examples.xmodem_frame;
                       GenericProtocolParser.make_result Examples.xmodem_cfg
                         Examples.xmodem_frame]))
    by reflexivity.
  assert (D : DataParser.parse (Examples.default_frame ++ [0xA8])
              = Some ([0xA8],
                      match DataParser.decode Examples.default_frame with
                      | Some r => [r]
                      | None => []
                      end))
    by reflexivity.
  exact (frames_are_carved_from_the_buffer _ _ _ _ _ _ E D).
Defined.

(** X13 at six bytes in four chunks with flush ticks in between, the port
    closed at the end. *)
Lemma receive_log_conserves_bytes_witness :
  List.concat
    (snd (SerialMonitorApp.log_run MoreExamples.gap MoreExamples.fresh_log
            (MoreExamples.log_events ++ [SerialMonitorApp.Closed])))
  = [1; 2; 3; 4; 5; 6].
Proof.
  destruct (receive_log_conserves_bytes MoreExamples.gap
              MoreExamples.fresh_log MoreExamples.log_events) as (_ & _ & H).
  exact H.
Defined.

(** X14 at the CO field of a frame of the built-in protocol. *)
Lemma display_shows_what_curve_plots_witness :
  SerialMonitorApp.display_value Examples.no_float Examples.default_frame
    (More.as_display (Examples.field 2 2 "uint16 (LE)") None)
  = More.plotted
      (PlotCanvas.parse_value_from_frame Examples.no_float Examples.no_float
         Examples.default_frame (Examples.field 2 2 "uint16 (LE)")).
Proof.
  apply display_shows_what_curve_plots.
  - reflexivity.
  - right. right. left. reflexivity.
Defined.

(** X15 at a frame with CO 300, average raw 180000 and temperature raw
    253. *)
Lemma default_curves_plot_decoded_fields_witness :
  exists co avg temp,
    map (PlotCanvas.parse_value_from_frame Examples.no_float Examples.no_float
           Examples.default_frame)
      DefaultCurves.default_curves
    = [Some co; Some avg; Some temp]
    /\ (co == 300)%Q.
Proof.
  destruct (default_curves_plot_decoded_fields Examples.no_float
              Examples.no_float Examples.default_frame _ eq_refl)
    as (co & avg & temp & Hm & H1 & _).
  exists co, avg, temp. split; [exact Hm|exact H1].
Defined.

(** X16 at the text Hi padded with two NUL bytes, with a zero divisor. *)
Lemma text_field_decoding_witness :
  exists s zeros,
    SerialMonitorApp.display_value Examples.no_float MoreExamples.text_frame
      MoreExamples.text_display
    = Some (SerialMonitorApp.Str s)
    /\ [0x48; 0x69; 0x00; 0x00] = s ++ zeros
    /\ Forall (fun b => b = 0) zeros.
Proof.
  assert (Hlong : ~ More.too_short MoreExamples.text_frame 2 4)
    by (unfold More.too_short; cbn; lia).
  destruct (text_field_decoding Examples.no_float MoreExamples.text_frame
              MoreExamples.text_display eq_refl Hlong)
    as (s & Hs & Hclean & _).
  destruct (Hclean eq_refl) as (zeros & H1 & H2 & _).
  exists s, zeros. split; [exact Hs|]. split; [exact H1|exact H2].
Defined.



(** X19 at a frame that carries 2026-11-04 07:22:05. *)
Lemma received_clock_all_or_nothing_witness :
  SerialMonitorApp.update_received_clock Examples.no_float
    (Some MoreExamples.clock_cfg) MoreExamples.clock_frame
  = [SerialMonitorApp.ReceivedTimeLabel 7 22 5;
     SerialMonitorApp.ReceivedDateLabel 2026 11 4;
     SerialMonitorApp.ReceivedTime 2026 11 4 7 22 5].
Proof.
  destruct (received_clock_all_or_nothing Examples.no_float
              MoreExamples.clock_cfg MoreExamples.clock_frame
              (or_introl eq_refl))
    as [Hnil|(y & mo & d & h & mi & s & Hrun & _)].
  - discriminate Hnil.
  - reflexivity.
Defined.

(** X20 at the state [__init__] leaves, with two results, a clear and a
    result more than two hours later. *)
Lemma plot_history_bounded_and_aligned_witness :
  exists self',
    PlotHistory.run Examples.no_float Examples.no_float PlotHistory.init
      MoreExamples.history_ops = Some self'
    /\ PlotHistory.bounded self'
    /\ PlotHistory.aligned self'.
Proof.
  destruct (plot_history_bounded_and_aligned Examples.no_float
              Examples.no_float PlotHistory.init MoreExamples.history_ops
              HistoryFacts.init_bounded)
    as (_ & Hai & self' & Hrun & Hb' & Hal).
  exists self'. split; [exact Hrun|]. split; [exact Hb'|].
  apply Hal; [exact Hai|].
  unfold MoreExamples.history_ops.
  repeat (apply Forall_cons;
          [cbn [PlotHistory.keeps_alignment PlotHistory.raw_frame];
           try discriminate; try exact I|]).
  apply Forall_nil.
Defined.

(** X21 at A8 01 F6 84. *)
Lemma hex_text_round_trip_witness :
  SerialMonitorApp.hex_text_to_bytes
    (GenericProtocolParser.hex_of_frame Examples.xmodem_frame)
  = Some Examples.xmodem_frame.
Proof.
  apply hex_text_round_trip.
  repeat (apply Forall_cons; [unfold is_byte; lia|]). apply Forall_nil.
Defined.
